(** * A price-time order book: shallow embedding and verification

    The program is a small Python matching engine.  Orders are nodes of
    intrusive doubly linked queues ([next]/[prev]), price levels are at the
    same time queue capsules and nodes of an unbalanced binary search tree
    with parent links ([left]/[right]/[parent]), and the book owns one tree
    per side.  Every object is mutated in place and several of them are
    reachable through more than one reference, so the embedding keeps two
    explicit stores (orders and levels, addressed by object identity) and
    threads them, the two [BookSide] objects and the text written to standard
    output through a state-and-exception monad.

    Conventions of the embedding
    - Python [int] is [Z]; a [float] price is an exact rational [Q] (compared
      with [Qeq_bool]/[Qlt]); quotients are stored in lowest terms.  Products,
      differences and quotients of prices are exact, so they are Python's
      whenever no operation has to round (see [binary64]).  Not-a-number and
      the infinities have no counterpart here: every price of the embedding
      is a finite number.
    - A reference is [option nat]: [None] is Python's [None], [Some i] the
      object stored under identity [i].  Reading an attribute of [None]
      raises [AttributeError] as it does in Python.
    - A [while] loop is a [Fixpoint] on a step budget; running out of budget
      is the distinguished outcome [OutOfFuel], never a normal return. *)

From Stdlib Require Import ZArith QArith Qabs Lqa Ascii String.
From stdpp Require Import gmap list strings sorting.

Local Open Scope Z_scope.

(** ** Objects *)

Module Order.
  (** [quote.py], classes [Quote] and [Order]. *)
Record t := mk {
    is_limit : bool;
    is_buy : bool;
    price : option Q;
    qty : Z;
    timestamp : Z;
    next : option nat;
    prev : option nat
  }.

Definition set_price (p : option Q) (o : t) : t :=
    mk (is_limit o) (is_buy o) p (qty o) (timestamp o) (next o) (prev o).
Definition set_qty (q : Z) (o : t) : t :=
    mk (is_limit o) (is_buy o) (price o) q (timestamp o) (next o) (prev o).
Definition set_next (n : option nat) (o : t) : t :=
    mk (is_limit o) (is_buy o) (price o) (qty o) (timestamp o) n (prev o).
Definition set_prev (p : option nat) (o : t) : t :=
    mk (is_limit o) (is_buy o) (price o) (qty o) (timestamp o) (next o) p.
End Order.

Module Level.
  (** [level.py], class [Level]: attributes set by [__init__]. *)
Record t := mk {
    price : option Q;
    is_bid : bool;
    total_qty : Z;
    head : option nat;
    tail : option nat;
    right : option nat;
    left : option nat;
    parent : option nat
  }.

Definition set_total_qty (q : Z) (l : t) : t :=
    mk (price l) (is_bid l) q (head l) (tail l) (right l) (left l) (parent l).
Definition set_head (h : option nat) (l : t) : t :=
    mk (price l) (is_bid l) (total_qty l) h (tail l) (right l) (left l) (parent l).
Definition set_tail (x : option nat) (l : t) : t :=
    mk (price l) (is_bid l) (total_qty l) (head l) x (right l) (left l) (parent l).
Definition set_right (x : option nat) (l : t) : t :=
    mk (price l) (is_bid l) (total_qty l) (head l) (tail l) x (left l) (parent l).
Definition set_left (x : option nat) (l : t) : t :=
    mk (price l) (is_bid l) (total_qty l) (head l) (tail l) (right l) x (parent l).
Definition set_parent (x : option nat) (l : t) : t :=
    mk (price l) (is_bid l) (total_qty l) (head l) (tail l) (right l) (left l) x.
End Level.

Module BookSide.
  (** [side.py], class [BookSide]: attributes set by [__init__]. *)
Record t := mk {
    root : option nat;
    is_bid : bool;
    total_qty : Z
  }.

Definition set_root (r : option nat) (b : t) : t := mk r (is_bid b) (total_qty b).
Definition set_total_qty (q : Z) (b : t) : t := mk (root b) (is_bid b) q.
  (** [BookSide.__init__] *)
Definition init (is_bid : bool) : t := mk None is_bid 0.
End BookSide.

(** What the program writes to standard output, one constructor per
    [print] call site. *)
Inductive Event :=
| Trade (price : option Q) (qty : Z)     (* "Trade, price: {price}, qty: {qty}" *)
| BookingFailed.                          (* "Booking failed: no orders to match" *)

(** ** Program state

    [orders] and [levels] are the object stores; [bid] and [ask] are the two
    attributes of the single [OrderBook]; [stdout] collects the printed
    lines, oldest first. *)
Record State := mkState {
  orders : gmap nat Order.t;
  levels : gmap nat Level.t;
  bid : BookSide.t;
  ask : BookSide.t;
  stdout : list Event
}.

(** [OrderBook.__init__] *)
Definition OrderBook_init : State :=
  mkState ∅ ∅ (BookSide.init true) (BookSide.init false) [].

Definition set_orders (m : gmap nat Order.t) (s : State) : State :=
  mkState m (levels s) (bid s) (ask s) (stdout s).
Definition set_levels (m : gmap nat Level.t) (s : State) : State :=
  mkState (orders s) m (bid s) (ask s) (stdout s).
Definition set_bid (b : BookSide.t) (s : State) : State :=
  mkState (orders s) (levels s) b (ask s) (stdout s).
Definition set_ask (b : BookSide.t) (s : State) : State :=
  mkState (orders s) (levels s) (bid s) b (stdout s).
Definition set_stdout (o : list Event) (s : State) : State :=
  mkState (orders s) (levels s) (bid s) (ask s) o.

(** ** The monad *)

Inductive exn :=
| AttributeError | TypeError | ZeroDivisionError | IndexError | ValueError
| DanglingRef.   (* an identity absent from its store: impossible in Python *)

Inductive result (A : Type) :=
| Ok (a : A)
| Raise (e : exn)
| OutOfFuel.
Arguments Ok {A} a.
Arguments Raise {A} e.
Arguments OutOfFuel {A}.

Definition M (A : Type) : Type := State -> result (A * State).

Definition ret {A} (a : A) : M A := fun s => Ok (a, s).
Definition bind {A B} (m : M A) (k : A -> M B) : M B :=
  fun s => match m s with
           | Ok (a, s') => k a s'
           | Raise e => Raise e
           | OutOfFuel => OutOfFuel
           end.
Definition raise {A} (e : exn) : M A := fun _ => Raise e.
Definition timeout {A} : M A := fun _ => OutOfFuel.

Declare Scope py_scope.
Delimit Scope py_scope with py.
Notation "'let*' x := m 'in' k" := (bind m (fun x => k))
  (at level 10, x name, m at level 100, k at level 200) : py_scope.
Notation "m ;; k" := (bind m (fun _ => k))
  (at level 100, k at level 200, right associativity) : py_scope.
Local Open Scope py_scope.

(** [x.attr] when [x] may be [None]. *)
Definition deref {A} (p : option A) : M A :=
  match p with Some a => ret a | None => raise AttributeError end.

Definition load_order (o : nat) : M Order.t :=
  fun s => match orders s !! o with Some v => Ok (v, s) | None => Raise DanglingRef end.
Definition store_order (o : nat) (v : Order.t) : M unit :=
  fun s => Ok (tt, set_orders (<[o := v]> (orders s)) s).
Definition modify_order (o : nat) (f : Order.t -> Order.t) : M unit :=
  let* v := load_order o in store_order o (f v).

Definition load_level (l : nat) : M Level.t :=
  fun s => match levels s !! l with Some v => Ok (v, s) | None => Raise DanglingRef end.
Definition store_level (l : nat) (v : Level.t) : M unit :=
  fun s => Ok (tt, set_levels (<[l := v]> (levels s)) s).
Definition modify_level (l : nat) (f : Level.t -> Level.t) : M unit :=
  let* v := load_level l in store_level l (f v).

(** The two [BookSide] objects are named by a flag: [true] is [self.bid],
    [false] is [self.ask]. *)
Definition side (b : bool) (s : State) : BookSide.t := if b then bid s else ask s.
Definition load_side (b : bool) : M BookSide.t := fun s => Ok (side b s, s).
Definition store_side (b : bool) (v : BookSide.t) : M unit :=
  fun s => Ok (tt, if b then set_bid v s else set_ask v s).
Definition modify_side (b : bool) (f : BookSide.t -> BookSide.t) : M unit :=
  let* v := load_side b in store_side b (f v).

Definition print (e : Event) : M unit :=
  fun s => Ok (tt, set_stdout (stdout s ++ [e]) s).

(** ** Arithmetic and comparison on prices *)

Definition py_eq (a b : option Q) : bool :=
  match a, b with
  | Some x, Some y => Qeq_bool x y
  | None, None => true
  | _, _ => false
  end.

Definition Qlt_bool (x y : Q) : bool := negb (Qle_bool y x).

(** [a < b]; an operand that is [None] raises [TypeError]. *)
Definition py_lt (a b : option Q) : M bool :=
  match a, b with
  | Some x, Some y => ret (Qlt_bool x y)
  | _, _ => raise TypeError
  end.
Definition py_gt (a b : option Q) : M bool := py_lt b a.

(** [abs(a - b)] *)
Definition py_abs_sub (a b : option Q) : M Q :=
  match a, b with
  | Some x, Some y => ret (Qabs (x - y))
  | _, _ => raise TypeError
  end.

(** [a / n] with [a] a float and [n] an int *)
Definition py_div (a : Q) (n : Z) : M Q :=
  if n =? 0 then raise ZeroDivisionError else ret (Qred (a / inject_Z n)).

(** [Order.total] *)
Definition total (o : Order.t) : M (option Q) :=
  if Order.is_limit o then
    match Order.price o with
    | Some p => ret (Some (inject_Z (Order.qty o) * p)%Q)
    | None => raise TypeError
    end
  else ret None.

(** ** [level.py]: the queue of one price level *)

(** [Level.__init__(limit_order)]: a new level object holding one order. *)
Definition Level_init (limit_order : nat) : M nat :=
  let* o := load_order limit_order in
  fun s =>
    let l := fresh (dom (levels s)) in
    Ok (l, set_levels (<[l := Level.mk (Order.price o) (Order.is_buy o) (Order.qty o)
                                        (Some limit_order) (Some limit_order)
                                        None None None]> (levels s)) s).

Definition enqueue_order (self limit_order : nat) : M unit :=
  let* o := load_order limit_order in
  let* lv := load_level self in
  store_level self (Level.set_total_qty (Level.total_qty lv + Order.qty o) lv) ;;
  let* lv := load_level self in
  match Level.head lv with
  | None => store_level self (Level.set_head (Some limit_order) lv)
  | Some _ =>
      let* t := deref (Level.tail lv) in
      modify_order t (Order.set_next (Some limit_order))
  end ;;
  let* lv := load_level self in
  modify_order limit_order (Order.set_prev (Level.tail lv)) ;;
  modify_level self (Level.set_tail (Some limit_order)).

Definition dequeue_order (self : nat) : M nat :=
  let* lv := load_level self in
  let order := Level.head lv in
  match order with
  | Some o =>
      let* ov := load_order o in
      modify_level self (Level.set_head (Order.next ov)) ;;
      match Order.next ov with
      | Some h => modify_order h (Order.set_prev None)
      | None => ret tt
      end
  | None => ret tt
  end ;;
  let* o := deref order in
  let* ov := load_order o in
  let* lv := load_level self in
  store_level self (Level.set_total_qty (Level.total_qty lv - Order.qty ov) lv) ;;
  let* lv := load_level self in
  (if decide (order = Level.tail lv)
   then modify_level self (Level.set_tail None)
   else ret tt) ;;
  ret o.

(** The [while] of [insert_order]: returns the final [(pointer, aux)]. *)
Fixpoint insert_order_scan (fuel : nat) (limit_order : nat)
    (pointer aux : option nat) : M (option nat * option nat) :=
  match fuel with
  | O => timeout
  | S fuel =>
      let* p := deref pointer in
      let* pv := load_order p in
      let* o := load_order limit_order in
      if Order.timestamp o <=? Order.timestamp pv
      then insert_order_scan fuel limit_order (Order.next pv) (Some p)
      else ret (pointer, aux)
  end.

Definition insert_order (fuel : nat) (self limit_order : nat) : M unit :=
  let* o := load_order limit_order in
  let* lv := load_level self in
  let* t := deref (Level.tail lv) in
  let* tv := load_order t in
  if Order.timestamp tv <=? Order.timestamp o then enqueue_order self limit_order
  else
    store_level self (Level.set_total_qty (Level.total_qty lv + Order.qty o) lv) ;;
    let* lv := load_level self in
    let* pa := insert_order_scan fuel limit_order (Level.head lv) None in
    let* a := deref (snd pa) in
    modify_order a (Order.set_next (Some limit_order)) ;;
    let* p := deref (fst pa) in
    modify_order p (Order.set_prev (Some limit_order)) ;;
    modify_order limit_order (Order.set_next (fst pa)) ;;
    modify_order limit_order (Order.set_prev (snd pa)).

(** The [while] of [remove_order]: returns the final [aux]. *)
Fixpoint remove_order_scan (fuel : nat) (limit_order : nat)
    (pointer aux : option nat) : M (option nat) :=
  match fuel with
  | O => timeout
  | S fuel =>
      if decide (pointer = Some limit_order) then ret aux
      else
        let* p := deref pointer in
        let* pv := load_order p in
        remove_order_scan fuel limit_order (Order.next pv) pointer
  end.

Definition remove_order (fuel : nat) (self limit_order : nat) : M unit :=
  let* lv := load_level self in
  if decide (Some limit_order = Level.head lv) then
    dequeue_order self ;; ret tt
  else
    let* o := load_order limit_order in
    store_level self (Level.set_total_qty (Level.total_qty lv - Order.qty o) lv) ;;
    let* lv := load_level self in
    let* aux := remove_order_scan fuel limit_order (Level.head lv) None in
    let* o := load_order limit_order in
    let* a := deref aux in
    modify_order a (Order.set_next (Order.next o)) ;;
    let* o := load_order limit_order in
    match Order.next o with
    | Some n => modify_order n (Order.set_prev aux)
    | None => ret tt
    end.

(** ** [side.py]: the tree of price levels of one side *)

(** The [while] of [register_order]: returns the final [aux]. *)
Fixpoint register_order_search (fuel : nat) (limit_order : nat)
    (pointer aux : option nat) : M (option nat) :=
  match fuel with
  | O => timeout
  | S fuel =>
      match pointer with
      | None => ret aux
      | Some p =>
          let* pv := load_level p in
          let* o := load_order limit_order in
          let* gt := py_gt (Level.price pv) (Order.price o) in
          if gt then register_order_search fuel limit_order (Level.left pv) pointer
          else
            let* lt := py_lt (Level.price pv) (Order.price o) in
            if lt then register_order_search fuel limit_order (Level.right pv) pointer
            else ret pointer
      end
  end.

Definition register_order (fuel : nat) (self : bool) (limit_order : nat)
    (timestamp : bool) : M unit :=
  let* o := load_order limit_order in
  let* sd := load_side self in
  store_side self (BookSide.set_total_qty (BookSide.total_qty sd + Order.qty o) sd) ;;
  let* sd := load_side self in
  match BookSide.root sd with
  | None =>
      let* l := Level_init limit_order in
      modify_side self (BookSide.set_root (Some l))
  | Some _ =>
      let* aux := register_order_search fuel limit_order (BookSide.root sd) None in
      let* a := deref aux in
      let* av := load_level a in
      if py_eq (Level.price av) (Order.price o) then
        if timestamp then insert_order fuel a limit_order
        else enqueue_order a limit_order
      else
        let* gt := py_gt (Level.price av) (Order.price o) in
        let* level :=
          (if gt then
             let* l := Level_init limit_order in
             modify_level a (Level.set_left (Some l)) ;; ret l
           else
             let* l := Level_init limit_order in
             modify_level a (Level.set_right (Some l)) ;; ret l) in
        modify_level level (Level.set_parent aux)
  end.

Fixpoint min_level_walk (fuel : nat) (level : nat) : M nat :=
  match fuel with
  | O => timeout
  | S fuel =>
      let* lv := load_level level in
      match Level.left lv with
      | Some l => min_level_walk fuel l
      | None => ret level
      end
  end.

Definition min_level (fuel : nat) (self : bool) (start : option nat) : M (option nat) :=
  let* sd := load_side self in
  let level := match start with Some _ => start | None => BookSide.root sd end in
  match level with
  | None => ret None
  | Some l => let* r := min_level_walk fuel l in ret (Some r)
  end.

Fixpoint max_level_walk (fuel : nat) (level : nat) : M nat :=
  match fuel with
  | O => timeout
  | S fuel =>
      let* lv := load_level level in
      match Level.right lv with
      | Some r => max_level_walk fuel r
      | None => ret level
      end
  end.

Definition max_level (fuel : nat) (self : bool) (start : option nat) : M (option nat) :=
  let* sd := load_side self in
  let level := match start with Some _ => start | None => BookSide.root sd end in
  match level with
  | None => ret None
  | Some l => let* r := max_level_walk fuel l in ret (Some r)
  end.

(** The [while] of [next_level]: climbs while [aux] is a right child. *)
Fixpoint next_level_climb (fuel : nat) (next : option nat) (aux : nat) : M (option nat) :=
  match fuel with
  | O => timeout
  | S fuel =>
      match next with
      | None => ret None
      | Some n =>
          let* nv := load_level n in
          if decide (Some aux = Level.right nv)
          then next_level_climb fuel (Level.parent nv) n
          else ret next
      end
  end.

Definition next_level (fuel : nat) (self : bool) (level : option nat) : M (option nat) :=
  match level with
  | None => ret None
  | Some l =>
      let* lv := load_level l in
      match Level.right lv with
      | Some _ => min_level fuel self (Level.right lv)
      | None => next_level_climb fuel (Level.parent lv) l
      end
  end.

Definition replace_level (self : bool) (old new : option nat) : M unit :=
  match old with
  | Some o =>
      let* ov := load_level o in
      match Level.parent ov with
      | None => modify_side self (BookSide.set_root new)
      | Some p =>
          let* pv := load_level p in
          if decide (old = Level.left pv)
          then store_level p (Level.set_left new pv)
          else store_level p (Level.set_right new pv)
      end ;;
      match new with
      | Some n =>
          let* ov := load_level o in
          modify_level n (Level.set_parent (Level.parent ov))
      | None => ret tt
      end
  | None => ret tt
  end.

Definition remove_level (fuel : nat) (self : bool) (level : nat) : M unit :=
  let* lv := load_level level in
  match Level.left lv with
  | None => replace_level self (Some level) (Level.right lv)
  | Some _ =>
      match Level.right lv with
      | None => replace_level self (Some level) (Level.left lv)
      | Some _ =>
          let* nxt := next_level fuel self (Some level) in
          let* n := deref nxt in
          let* nv := load_level n in
          (if decide (Level.parent nv = Some level) then ret tt
           else
             replace_level self nxt (Level.right nv) ;;
             let* lv := load_level level in
             modify_level n (Level.set_right (Level.right lv)) ;;
             let* nv := load_level n in
             let* r := deref (Level.right nv) in
             modify_level r (Level.set_parent nxt)) ;;
          replace_level self (Some level) nxt ;;
          let* lv := load_level level in
          modify_level n (Level.set_left (Level.left lv)) ;;
          let* nv := load_level n in
          let* l := deref (Level.left nv) in
          modify_level l (Level.set_parent nxt)
      end
  end.

(** ** [book.py]: matching *)

Definition print_match (price : option Q) (qty : Z) : M unit :=
  print (Trade price qty).

Definition reallocate_order (fuel : nat) (order origin_level : nat) : M unit :=
  remove_order fuel origin_level order ;;
  let* o := load_order order in
  if Order.is_buy o then register_order fuel true order true
  else register_order fuel false order true.

(** The [while] of [trade_at_level]: returns the final [qty_traded]. *)
Fixpoint trade_at_level_loop (fuel : nat) (market_order level : nat)
    (counterparty : option nat) (qty_traded : Z) : M Z :=
  match fuel with
  | O => timeout
  | S fuel =>
      match counterparty with
      | None => ret qty_traded
      | Some c =>
          let* mo := load_order market_order in
          if 0 <? Order.qty mo then
            let* cv := load_order c in
            let* qty_traded :=
              (if Order.qty cv <=? Order.qty mo then
                 dequeue_order level ;;
                 let* cv := load_order c in
                 let* mo := load_order market_order in
                 store_order market_order (Order.set_qty (Order.qty mo - Order.qty cv) mo) ;;
                 ret (qty_traded + Order.qty cv)
               else
                 store_order c (Order.set_qty (Order.qty cv - Order.qty mo) cv) ;;
                 let* mo := load_order market_order in
                 let* lv := load_level level in
                 store_level level (Level.set_total_qty (Level.total_qty lv - Order.qty mo) lv) ;;
                 let* mo := load_order market_order in
                 store_order market_order (Order.set_qty 0 mo) ;;
                 ret (qty_traded + Order.qty mo)) in
            let* cv := load_order c in
            trade_at_level_loop fuel market_order level (Order.next cv) qty_traded
          else ret qty_traded
      end
  end.

Definition trade_at_level (fuel : nat) (market_order level : nat) : M nat :=
  let* lv := load_level level in
  let* qty_traded := trade_at_level_loop fuel market_order level (Level.head lv) 0 in
  let* lv := load_level level in
  (if Level.is_bid lv then
     let* sd := load_side true in
     store_side true (BookSide.set_total_qty (BookSide.total_qty sd - qty_traded) sd) ;;
     let* lv := load_level level in
     if Level.total_qty lv =? 0 then remove_level fuel true level else ret tt
   else
     let* sd := load_side false in
     store_side false (BookSide.set_total_qty (BookSide.total_qty sd - qty_traded) sd) ;;
     let* lv := load_level level in
     if Level.total_qty lv =? 0 then remove_level fuel false level else ret tt) ;;
  let* lv := load_level level in
  print_match (Level.price lv) qty_traded ;;
  ret market_order.

(** The [while] of [trade_limit_order]: [None] is the early
    [return limit_order], [Some c] the counterparty the loop stops at. *)
Fixpoint trade_limit_order_scan (fuel : nat) (limit_order : nat)
    (counterparty : option nat) : M (option nat) :=
  match fuel with
  | O => timeout
  | S fuel =>
      let* c := deref counterparty in
      let* cv := load_order c in
      let* ct := total cv in
      let* o := load_order limit_order in
      let* ot := total o in
      if py_eq ct ot || (Order.qty cv =? Order.qty o) then
        match Order.next cv with
        | None => ret None
        | Some _ => trade_limit_order_scan fuel limit_order (Order.next cv)
        end
      else ret counterparty
  end.

Definition trade_limit_order (fuel : nat) (limit_order level : nat) : M nat :=
  let* o := load_order limit_order in
  let* lv := load_level level in
  if py_eq (Order.price o) (Level.price lv) then trade_at_level fuel limit_order level
  else
    let* found := trade_limit_order_scan fuel limit_order (Level.head lv) in
    match found with
    | None => ret limit_order
    | Some counterparty =>
        let* cv := load_order counterparty in
        let* o := load_order limit_order in
        let new_qty := Z.abs (Order.qty cv - Order.qty o) in
        let* ct := total cv in
        let* ot := total o in
        let* new_total := py_abs_sub ct ot in
        let* gt := py_gt ct ot in
        if gt then
          let* p := py_div new_total new_qty in
          modify_order counterparty (Order.set_price (Some p)) ;;
          let* cv := load_order counterparty in
          let* o := load_order limit_order in
          store_order counterparty (Order.set_qty (Order.qty cv - Order.qty o) cv) ;;
          reallocate_order fuel counterparty level ;;
          let* o := load_order limit_order in
          print_match (Order.price o) (Order.qty o) ;;
          modify_order limit_order (Order.set_qty 0) ;;
          ret limit_order
        else
          let* p := py_div new_total new_qty in
          modify_order limit_order (Order.set_price (Some p)) ;;
          modify_order limit_order (Order.set_qty new_qty) ;;
          let* cv := load_order counterparty in
          print_match (Order.price cv) (Order.qty cv) ;;
          let counterparty_side := Order.is_buy cv in
          let* o := load_order limit_order in
          let* sd := load_side counterparty_side in
          store_side counterparty_side
            (BookSide.set_total_qty (BookSide.total_qty sd - Order.qty o) sd) ;;
          remove_order fuel level counterparty ;;
          let* lv := load_level level in
          (match Level.head lv with
           | None => remove_level fuel counterparty_side level
           | Some _ => ret tt
           end) ;;
          ret limit_order
    end.

(** The [while] of [process_limit_order]. *)
Fixpoint process_limit_order_loop (fuel n : nat) (order : nat)
    (order_side counterparty_side : bool) (counterparty_level : option nat) : M unit :=
  match n with
  | O => timeout
  | S n =>
      let* o := load_order order in
      if 0 <? Order.qty o then
        match counterparty_level with
        | None => register_order fuel order_side order false
        | Some cl =>
            let* lv := load_level cl in
            let* c1 := (if Order.is_buy o then py_lt (Order.price o) (Level.price lv)
                        else ret false) in
            if c1 then register_order fuel order_side order false
            else
              let* c2 := (if negb (Order.is_buy o)
                          then py_gt (Order.price o) (Level.price lv)
                          else ret false) in
              if c2 then register_order fuel order_side order false
              else
                let* order := trade_limit_order fuel order cl in
                let* nl := next_level fuel counterparty_side counterparty_level in
                process_limit_order_loop fuel n order order_side counterparty_side nl
        end
      else ret tt
  end.

Definition process_limit_order (fuel : nat) (order : nat) : M unit :=
  let* o := load_order order in
  let counterparty_side := negb (Order.is_buy o) in
  let order_side := Order.is_buy o in
  let* cs := load_side counterparty_side in
  if BookSide.total_qty cs =? 0 then register_order fuel order_side order false
  else
    let* counterparty_level :=
      (if Order.is_buy o then min_level fuel false None else max_level fuel true None) in
    process_limit_order_loop fuel fuel order order_side counterparty_side counterparty_level.

(** The [while] of [process_market_order]. *)
Fixpoint process_market_order_loop (fuel n : nat) (order : nat)
    (counterparty_side : bool) (counterparty_level : option nat) : M unit :=
  match n with
  | O => timeout
  | S n =>
      let* o := load_order order in
      if 0 <? Order.qty o then
        let* cl := deref counterparty_level in
        let* order := trade_at_level fuel order cl in
        let* nl := next_level fuel counterparty_side counterparty_level in
        match nl with
        | None => ret tt
        | Some _ => process_market_order_loop fuel n order counterparty_side nl
        end
      else ret tt
  end.

Definition process_market_order (fuel : nat) (order : nat) : M unit :=
  let* o := load_order order in
  let counterparty_side := negb (Order.is_buy o) in
  let* counterparty_level :=
    (if Order.is_buy o then min_level fuel false None else max_level fuel true None) in
  match counterparty_level with
  | Some _ => process_market_order_loop fuel fuel order counterparty_side counterparty_level
  | None => print BookingFailed
  end.

Definition add_order (fuel : nat) (order : nat) : M unit :=
  let* o := load_order order in
  if Order.is_limit o then process_limit_order fuel order
  else process_market_order fuel order.

(** ** [quote.py]: from an input line to an order *)

(** [str.lower] and [str.split()] on ASCII text. *)
Definition lower_char (c : ascii) : ascii :=
  let n := nat_of_ascii c in
  if (65 <=? n)%nat && (n <=? 90)%nat then ascii_of_nat (n + 32) else c.

Fixpoint lower (s : string) : string :=
  match s with
  | EmptyString => EmptyString
  | String c s => String (lower_char c) (lower s)
  end.

Definition is_space (c : ascii) : bool :=
  let n := nat_of_ascii c in
  ((9 <=? n)%nat && (n <=? 13)%nat) || ((28 <=? n)%nat && (n <=? 32)%nat).

(** [split_acc s cur]: [cur] is the token being read, reversed. *)
Fixpoint split_acc (s : string) (cur : list ascii) : list string :=
  let flush := match cur with
               | [] => []
               | _ => [string_of_list_ascii (rev cur)]
               end in
  match s with
  | EmptyString => flush
  | String c s => if is_space c then flush ++ split_acc s [] else split_acc s (c :: cur)
  end.

Definition split (s : string) : list string := split_acc s [].

(** [items[i]] for a list; [IndexError] when out of range. *)
Definition index {A} (l : list A) (i : nat) : result A :=
  match l !! i with Some a => Ok a | None => Raise IndexError end.

Definition rbind {A B} (r : result A) (k : A -> result B) : result B :=
  match r with Ok a => k a | Raise e => Raise e | OutOfFuel => OutOfFuel end.

Section Quote.
  (** The built-ins [float] and [int] on a token; [None] is [ValueError].
      A token that [float] reads as not-a-number or as an infinity has no
      value among the rationals: what is proved of prices is proved of
      finite numbers. *)
Variable py_float : string -> option Q.
Variable py_int : string -> option Z.

Definition of_value {A} (o : option A) : result A :=
    match o with Some a => Ok a | None => Raise ValueError end.

  (** [Order.__init__(quote)], which runs [Quote.__init__] and then clears
      the two queue links; [now] is the value of [datetime.now()]. *)
Definition Order_init (quote : string) (now : Z) : result Order.t :=
    let quote_items := split (lower quote) in
    rbind (index quote_items 0) (fun i0 =>
    let is_limit := if decide (i0 = "limit"%string) then true else false in
    rbind (index quote_items 1) (fun i1 =>
    let is_buy := if decide (i1 = "buy"%string) then true else false in
    rbind (if is_limit
           then rbind (index quote_items 2) (fun i2 =>
                rbind (of_value (py_float i2)) (fun p => Ok (Some p)))
           else Ok None) (fun price =>
    rbind (index quote_items (length quote_items - 1)) (fun il =>
    rbind (of_value (py_int il)) (fun qty =>
    Ok (Order.mk is_limit is_buy price qty now None None)))))).
End Quote.

(** ** [main.py] *)

(** The caller's side of [book.add_order(Order(quote))]: the constructed
    order becomes an object of the store and is then submitted. *)
Definition new_order (o : Order.t) : M nat :=
  fun s => let i := fresh (dom (orders s)) in
           Ok (i, set_orders (<[i := o]> (orders s)) s).

Definition submit (fuel : nat) (o : Order.t) : M unit :=
  let* i := new_order o in add_order fuel i.

(** Running a list of already constructed orders, in order. *)
Fixpoint submit_all (fuel : nat) (os : list Order.t) : M unit :=
  match os with
  | [] => ret tt
  | o :: os => submit fuel o ;; submit_all fuel os
  end.

(** Plain decimal literals, enough for the [float] and [int] of the
    scenarios below. *)
Definition digit_of (c : ascii) : option Z :=
  let n := nat_of_ascii c in
  if (48 <=? n)%nat && (n <=? 57)%nat then Some (Z.of_nat (n - 48)) else None.

Fixpoint decimal_acc (s : string) (acc : Z) : option Z :=
  match s with
  | EmptyString => Some acc
  | String c s => match digit_of c with
                  | Some d => decimal_acc s (10 * acc + d)
                  | None => None
                  end
  end.

Definition decimal (s : string) : option Z :=
  match s with EmptyString => None | _ => decimal_acc s 0 end.

Definition decimal_float (s : string) : option Q := inject_Z <$> decimal s.

(** [start_trading] on the given input lines, the [i]-th line (from 1)
    stamped with time [i]; the line ["stop"] ends the run. *)
Fixpoint start_trading_from (fuel : nat) (now : Z) (lines : list string) : M unit :=
  match lines with
  | [] => ret tt
  | quote :: lines =>
      if decide (quote = "stop"%string) then ret tt
      else
        match Order_init decimal_float decimal quote now with
        | Ok o => submit fuel o ;; start_trading_from fuel (now + 1) lines
        | Raise e => raise e
        | OutOfFuel => timeout
        end
  end.

Definition start_trading (fuel : nat) (lines : list string) : result (unit * State) :=
  start_trading_from fuel 1 lines OrderBook_init.

(** * Specification vocabulary *)

(** ** Queues

    [queue h p q]: following [next] from the reference [p] in the order
    store [h] visits exactly the orders [q] and then reaches [None]. *)
Fixpoint queue (h : gmap nat Order.t) (p : option nat) (q : list nat) : Prop :=
  match q with
  | [] => p = None
  | c :: q => p = Some c /\ exists v, h !! c = Some v /\ queue h (Order.next v) q
  end.

(** ** Trees

    The shape of a side's tree, with the identities of its levels. *)
Inductive tree :=
| Leaf
| Node (l : tree) (x : nat) (r : tree).

Fixpoint inorder (t : tree) : list nat :=
  match t with
  | Leaf => []
  | Node l x r => inorder l ++ x :: inorder r
  end.

Definition root_of (t : tree) : option nat :=
  match t with
  | Leaf => None
  | Node _ x _ => Some x
  end.

(** The tree links of a stored level: [(parent, left, right)]. *)
Definition links (h : gmap nat Level.t) (x : nat)
    : option (option nat * option nat * option nat) :=
  (fun v => (Level.parent v, Level.left v, Level.right v)) <$> h !! x.

(** [tree_rep h par t]: the level store [h] holds the tree [t] below a
    node [par] (or below the side's [root] when [par] is [None]): each
    level's [parent], [left] and [right] are the ones [t] prescribes. *)
Fixpoint tree_rep (h : gmap nat Level.t) (par : option nat) (t : tree) : Prop :=
  match t with
  | Leaf => True
  | Node l x r =>
      links h x = Some (par, root_of l, root_of r) /\
      tree_rep h (Some x) l /\
      tree_rep h (Some x) r
  end.

(** [x] is priced strictly below [y]. *)
Definition price_lt (h : gmap nat Level.t) (x y : nat) : Prop :=
  exists vx vy p q,
    h !! x = Some vx /\ h !! y = Some vy /\
    Level.price vx = Some p /\ Level.price vy = Some q /\ (p < q)%Q.

(** A level of side [b]: stored, priced, and flagged for that side. *)
Definition level_of (h : gmap nat Level.t) (b : bool) (x : nat) : Prop :=
  exists v p, h !! x = Some v /\ Level.price v = Some p /\ Level.is_bid v = b.

(** [side_tree s b t]: side [b] of the book is the search tree [t]. *)
Definition side_tree (s : State) (b : bool) (t : tree) : Prop :=
  BookSide.root (side b s) = root_of t /\
  tree_rep (levels s) None t /\
  Forall (level_of (levels s) b) (inorder t) /\
  StronglySorted (price_lt (levels s)) (inorder t).

(** The sum of the levels' [total_qty] over a list of level identities. *)
Definition levels_total (h : gmap nat Level.t) (xs : list nat) : Z :=
  foldr (fun x acc => match h !! x with
                      | Some v => Level.total_qty v + acc
                      | None => acc
                      end) 0 xs.

(** ** Visiting a side in [next_level] order

    [min_level()] and then [next_level] again and again until it answers
    [None]; the levels are returned in the order they were visited. *)
Fixpoint visit_from (fuel n : nat) (self : bool) (cur : option nat) : M (list nat) :=
  match n with
  | O => timeout
  | S n =>
      match cur with
      | None => ret []
      | Some x =>
          let* nx := next_level fuel self cur in
          let* rest := visit_from fuel n self nx in
          ret (x :: rest)
      end
  end.

Definition visit_side (fuel : nat) (self : bool) : M (list nat) :=
  let* m := min_level fuel self None in
  visit_from fuel fuel self m.

(** ** Reachable books

    What [Order.__init__] can return: no queue links yet, and a price
    exactly when the order is a limit order. *)
Definition constructed (o : Order.t) : Prop :=
  Order.next o = None /\ Order.prev o = None /\
  (Order.is_limit o = true <-> is_Some (Order.price o)).

(** The states the book is in between two submissions of a run of
    [start_trading] that has not stopped on an exception. *)
Inductive reachable : State -> Prop :=
| reachable_init : reachable OrderBook_init
| reachable_submit s o fuel s' :
    reachable s -> constructed o -> submit fuel o s = Ok (tt, s') -> reachable s'.

(** ** Letter case

    [same_letter a b]: the two characters are equal, or one is a capital
    letter [A]..[Z] and the other the small letter for it. *)
Definition same_letter (a b : ascii) : bool :=
  let m := nat_of_ascii a in
  let n := nat_of_ascii b in
  (m =? n)%nat
  || ((65 <=? m)%nat && (m <=? 90)%nat && (n =? m + 32)%nat)
  || ((65 <=? n)%nat && (n <=? 90)%nat && (m =? n + 32)%nat).

(** Two lines that differ at most in the case of their letters. *)
Fixpoint same_letters (s t : string) : bool :=
  match s, t with
  | EmptyString, EmptyString => true
  | String a s, String b t => same_letter a b && same_letters s t
  | _, _ => false
  end.

(** ** The scenarios of the specification *)

Definition scenario5 : list string :=
  ["limit sell 9 10"; "limit sell 11 10"; "limit buy 12 5"]%string.

(** The outcome the specification announces for scenario 5, for a run
    that ends in state [s] and was in state [s0] before its last line. *)
Definition scenario5_announced (s0 s : State) : Prop :=
  stdout s = [Trade (Some 9%Q) 5] /\
  (exists t l lv o ov,
      side_tree s false t /\ l ∈ inorder t /\
      levels s !! l = Some lv /\ Level.price lv = Some 9%Q /\
      Level.head lv = Some o /\ orders s !! o = Some ov /\
      Order.is_buy ov = false /\ Order.qty ov = 5) /\
  map_Forall (fun l lv => Level.price lv = Some 11%Q -> levels s !! l = Some lv)
             (levels s0).

(** What the run really does on scenario 5. *)
Definition scenario5_observed (s0 s : State) : Prop :=
  stdout s = [Trade (Some 12%Q) 5] /\
  (exists t l lv o ov,
      side_tree s false t /\ l ∈ inorder t /\
      levels s !! l = Some lv /\ Level.price lv = Some 6%Q /\
      Level.head lv = Some o /\ orders s !! o = Some ov /\
      Order.is_buy ov = false /\ Order.qty ov = 5 /\
      Order.price ov = Some 6%Q /\ Order.timestamp ov = 1) /\
  map_Forall (fun l lv => Level.price lv = Some 11%Q -> levels s !! l = Some lv)
             (levels s0).

Definition scenario5_state : State :=
  Eval vm_compute in
    match start_trading 10 scenario5 with
    | Ok (_, s) => s
    | _ => OrderBook_init
    end.

Definition scenario5_tree : tree :=
  Node (Node Leaf 2%nat Leaf) 0%nat (Node Leaf 1%nat Leaf).

(** ** Choosing the counterparty of a price-improving limit order *)

(** [price * qty] of a stored order, [None] when it carries no price. *)
Definition notional (v : Order.t) : option Q :=
  match Order.price v with
  | Some p => Some (inject_Z (Order.qty v) * p)%Q
  | None => None
  end.

(** Equal notional value, or equal quantity. *)
Definition same_size (c o : Order.t) : bool :=
  py_eq (notional c) (notional o) || (Order.qty c =? Order.qty o).

(** The rule as the specification words it: the first resting order of
    the queue that has the notional value or the quantity of [o]. *)
Definition counterparty_announced (h : gmap nat Order.t) (o : Order.t)
    (q : list nat) : option nat :=
  find (fun c => match h !! c with
                 | Some cv => same_size cv o
                 | None => false
                 end) q.

(** The rule the loop of [trade_limit_order] applies: the first resting
    order that has neither the notional value nor the quantity of [o]. *)
Definition counterparty_chosen (h : gmap nat Order.t) (o : Order.t)
    (q : list nat) : option nat :=
  find (fun c => match h !! c with
                 | Some cv => negb (same_size cv o)
                 | None => false
                 end) q.

(** A stored limit order: it has a price. *)
Definition priced (h : gmap nat Order.t) (c : nat) : Prop :=
  exists v p, h !! c = Some v /\ Order.is_limit v = true /\ Order.price v = Some p.

(** ** Binary64 numbers

    A Python [float] is a binary64 number; the finite ones are the
    rationals [m * 2^e] with [|m| < 2^53] and [-1074 <= e <= 971].  An
    arithmetic operation on floats returns the exact result whenever that
    result is such a number, and rounds it otherwise, so the exact
    rationals of this embedding compute what Python computes as long as no
    operation has to round. *)
Definition binary64 (x : Q) : Prop :=
  exists m e : Z, Z.abs m < 2 ^ 53 /\ -1074 <= e <= 971 /\ (x == inject_Z m * 2 ^ e)%Q.

(** A stored limit order whose [total()] Python computes without rounding:
    the price is a float, the quantity converts to a float as it is, and
    their product is a float again. *)
Definition exactly_priced (h : gmap nat Order.t) (c : nat) : Prop :=
  exists v p, h !! c = Some v /\ Order.is_limit v = true /\ Order.price v = Some p /\
    binary64 p /\ binary64 (inject_Z (Order.qty v)) /\
    binary64 (inject_Z (Order.qty v) * p).

(** ** A level whose first two orders are passed over

    The book after [limit sell 9 5], [limit sell 9 10] and [limit sell 9 7],
    one ask level (identity 0) with the queue 0, 1, 2, at the moment the
    order [limit buy 18 5], stored under identity 3, is about to be
    submitted: order 0 has its quantity, order 1 its notional value 90. *)
Definition crossing_passes_two : State :=
  Eval vm_compute in
    match start_trading 10 ["limit sell 9 5"; "limit sell 9 10"; "limit sell 9 7"]%string with
    | Ok (_, s) =>
        match new_order (Order.mk true true (Some 18%Q) 5 4 None None) s with
        | Ok (_, s) => s
        | _ => OrderBook_init
        end
    | _ => OrderBook_init
    end.

(** The same without the third sell order: the incoming order is stored
    under identity 2 and the queue of level 0 is 0, 1. *)
Definition crossing_unmatched : State :=
  Eval vm_compute in
    match start_trading 10 ["limit sell 9 5"; "limit sell 9 10"]%string with
    | Ok (_, s) =>
        match new_order (Order.mk true true (Some 18%Q) 5 3 None None) s with
        | Ok (_, s) => s
        | _ => OrderBook_init
        end
    | _ => OrderBook_init
    end.

(** The book scenario 5 leaves, whose level 0 (priced 9) has an empty
    queue, with the order [limit buy 10 5] stored under identity 3. *)
Definition crossing_empty_level : State :=
  Eval vm_compute in
    match new_order (Order.mk true true (Some 10%Q) 5 4 None None) scenario5_state with
    | Ok (_, s) => s
    | _ => OrderBook_init
    end.

(** ** A level with two resting orders

    The book after [limit sell 6 1] and [limit sell 6 2]: one ask level
    (identity 0) whose queue holds the orders 0 and 1, stamped 1 and 2. *)
Definition insert_order_state : State :=
  Eval vm_compute in
    match start_trading 10 ["limit sell 6 1"; "limit sell 6 2"]%string with
    | Ok (_, s) => s
    | _ => OrderBook_init
    end.

(** Scenario 5 at the moment its third order, already constructed and
    stored under identity 2, is about to be submitted. *)
Definition scenario5_crossing : State :=
  Eval vm_compute in
    match start_trading 10 (take 2 scenario5) with
    | Ok (_, s) =>
        match new_order (Order.mk true true (Some 12%Q) 5 3 None None) s with
        | Ok (_, s) => s
        | _ => OrderBook_init
        end
    | _ => OrderBook_init
    end.

(** ** One-hole contexts

    A tree with one subtree taken out, read from the hole up to the top:
    [InLeft c p r] says the hole is the left child of [p], whose right
    subtree is [r], and [p] itself sits in the hole of [c]. *)
Inductive ctx :=
| Top
| InLeft (c : ctx) (p : nat) (r : tree)
| InRight (c : ctx) (l : tree) (p : nat).

Fixpoint plug (c : ctx) (t : tree) : tree :=
  match c with
  | Top => t
  | InLeft c p r => plug c (Node t p r)
  | InRight c l p => plug c (Node l p t)
  end.

(** The parent of the hole; [top] is the parent of the whole tree. *)
Definition ctx_parent (top : option nat) (c : ctx) : option nat :=
  match c with
  | Top => top
  | InLeft _ p _ => Some p
  | InRight _ _ p => Some p
  end.

(** The root of [plug c t] when [t] has root [child]. *)
Fixpoint ctx_root (c : ctx) (child : option nat) : option nat :=
  match c with
  | Top => child
  | InLeft c p _ => ctx_root c (Some p)
  | InRight c _ p => ctx_root c (Some p)
  end.

(** The levels of the context visited before, and after, the hole. *)
Fixpoint ctx_before (c : ctx) : list nat :=
  match c with
  | Top => []
  | InLeft c _ _ => ctx_before c
  | InRight c l p => ctx_before c ++ inorder l ++ [p]
  end.

Fixpoint ctx_after (c : ctx) : list nat :=
  match c with
  | Top => []
  | InLeft c p r => p :: inorder r ++ ctx_after c
  | InRight c _ _ => ctx_after c
  end.

Fixpoint ctx_depth (c : ctx) : nat :=
  match c with
  | Top => O
  | InLeft c _ _ => S (ctx_depth c)
  | InRight c _ _ => S (ctx_depth c)
  end.

(** [ctx_rep h top c child]: the store holds the context [c], its hole
    filled by the reference [child]. *)
Fixpoint ctx_rep (h : gmap nat Level.t) (top : option nat) (c : ctx)
    (child : option nat) : Prop :=
  match c with
  | Top => True
  | InLeft c p r =>
      links h p = Some (ctx_parent top c, child, root_of r) /\
      tree_rep h (Some p) r /\
      ctx_rep h top c (Some p)
  | InRight c l p =>
      links h p = Some (ctx_parent top c, root_of l, child) /\
      tree_rep h (Some p) l /\
      ctx_rep h top c (Some p)
  end.

(** The leftmost level of [Node l x _], and the rightmost of [Node _ x r]. *)
Fixpoint tree_min (l : tree) (x : nat) : nat :=
  match l with
  | Leaf => x
  | Node l y _ => tree_min l y
  end.

Fixpoint tree_max (x : nat) (r : tree) : nat :=
  match r with
  | Leaf => x
  | Node _ y r => tree_max y r
  end.

(** ** What an operation leaves alone *)

(** Everything a level carries besides its three tree links. *)
Definition level_data (v : Level.t) : option Q * bool * Z * option nat * option nat :=
  (Level.price v, Level.is_bid v, Level.total_qty v, Level.head v, Level.tail v).

(** Everything a side carries besides its root. *)
Definition side_data (b : BookSide.t) : bool * Z :=
  (BookSide.is_bid b, BookSide.total_qty b).

(** [tree_surgery s s']: from [s] to [s'] only tree links and roots may
    have changed; orders, queues, quantities, prices and output are the
    same, and no level appeared or disappeared. *)
Definition tree_surgery (s s' : State) : Prop :=
  orders s' = orders s /\
  stdout s' = stdout s /\
  side_data (bid s') = side_data (bid s) /\
  side_data (ask s') = side_data (ask s) /\
  forall z, level_data <$> levels s' !! z = level_data <$> levels s !! z.

(** The tree a removal leaves below the place of [Node l x r]. *)
Fixpoint min_split (l : tree) (x : nat) (r : tree) (c : ctx) : ctx * tree :=
  match l with
  | Leaf => (c, r)
  | Node l' y r' => min_split l' y r' (InLeft c x r)
  end.

Definition delete_root (l : tree) (r : tree) : tree :=
  match l, r with
  | Leaf, _ => r
  | _, Leaf => l
  | _, Node rl y rr =>
      let cn := min_split rl y rr Top in
      Node l (tree_min rl y) (plug (fst cn) (snd cn))
  end.

(** What a level is for the tree it sits in. *)
Definition tree_view (v : Level.t)
    : option Q * bool * option nat * option nat * option nat :=
  (Level.price v, Level.is_bid v, Level.parent v, Level.left v, Level.right v).

(** [steady s s']: from [s] to [s'] only queues moved: the output and both
    sides are the same, every level kept its price, its side and its tree
    links, and every order is still stored, on the same side. *)
Definition steady (s s' : State) : Prop :=
  stdout s' = stdout s /\
  bid s' = bid s /\
  ask s' = ask s /\
  (forall z, tree_view <$> levels s' !! z = tree_view <$> levels s !! z) /\
  (forall o v, orders s !! o = Some v ->
     exists v', orders s' !! o = Some v' /\ Order.is_buy v' = Order.is_buy v).

(** ** A book with five ask levels

    Six resting sell orders at the prices 10, 8, 12, 9, 11 and again 10:
    the level priced 10 is the root and queues two orders. *)
Definition five_asks : list string :=
  ["limit sell 10 5"; "limit sell 8 3"; "limit sell 12 4";
   "limit sell 9 2"; "limit sell 11 1"; "limit sell 10 7"]%string.

Definition five_asks_state : State :=
  Eval vm_compute in
    match start_trading 10 five_asks with
    | Ok (_, s) => s
    | _ => OrderBook_init
    end.

Definition five_asks_tree : tree :=
  Node (Node Leaf 1%nat (Node Leaf 3%nat Leaf)) 0%nat
       (Node (Node Leaf 4%nat Leaf) 2%nat Leaf).

(** Everything an order carries besides its two queue links. *)
Definition order_data (v : Order.t) : bool * bool * option Q * Z * Z :=
  (Order.is_limit v, Order.is_buy v, Order.price v, Order.qty v, Order.timestamp v).

(** [relinked s s']: from [s] to [s'] only queues were re-linked (and the
    levels' [total_qty] adjusted): the output and both sides are the same,
    every level kept its price, its side and its tree links, and every
    order its type, side, price, quantity and timestamp. *)
Definition relinked (s s' : State) : Prop :=
  stdout s' = stdout s /\
  bid s' = bid s /\
  ask s' = ask s /\
  (forall z, tree_view <$> levels s' !! z = tree_view <$> levels s !! z) /\
  (forall o, order_data <$> orders s' !! o = order_data <$> orders s !! o).

(** The same book with one more sell order constructed and not yet booked. *)
Definition five_asks_new : State :=
  set_orders (<[6%nat := Order.mk true false (Some 10%Q) 4 7 None None]>
                (orders five_asks_state)) five_asks_state.

(** ** Prices of levels against a given price *)

Definition priced_below (h : gmap nat Level.t) (p : Q) (y : nat) : Prop :=
  exists v q, h !! y = Some v /\ Level.price v = Some q /\ (q < p)%Q.

Definition priced_above (h : gmap nat Level.t) (p : Q) (y : nat) : Prop :=
  exists v q, h !! y = Some v /\ Level.price v = Some q /\ (p < q)%Q.

Definition priced_at (h : gmap nat Level.t) (p : Q) (y : nat) : Prop :=
  exists v q, h !! y = Some v /\ Level.price v = Some q /\ (q == p)%Q.

(** The state with side [b] replaced by [v]. *)
Definition with_side (b : bool) (v : BookSide.t) (s : State) : State :=
  if b then set_bid v s else set_ask v s.

(** The book with five ask levels and a constructed sell order at a price
    of its own, 19/2. *)
Definition five_asks_between : State :=
  set_orders (<[6%nat := Order.mk true false (Some (19 # 2)%Q) 4 7 None None]>
                (orders five_asks_state)) five_asks_state.

(** ** Filling an order from one level's queue

    The walk of [trade_at_level] told on quantities alone.  [rem] is what
    the incoming order still wants, [ns] the quantities of the resting
    orders from the head of the queue.  The result says how many resting
    orders were dequeued whole ([consumed]), by how much the next one was
    reduced in place ([reduced_by], 0 when none was), what the incoming
    order still wants afterwards ([remaining]) and how much was traded in
    all ([traded]). *)
Record fill := mkFill { consumed : nat; reduced_by : Z; remaining : Z; traded : Z }.

Fixpoint fill_queue (rem : Z) (ns : list Z) : fill :=
  match ns with
  | [] => mkFill 0 0 rem 0
  | n :: ns' =>
      if 0 <? rem then
        if n <=? rem then
          let f := fill_queue (rem - n) ns' in
          mkFill (S (consumed f)) (reduced_by f) (remaining f) (n + traded f)
        else mkFill 0 rem 0 rem
      else mkFill 0 0 rem 0
  end.

(** The quantity of a stored order (0 for a reference to nothing). *)
Definition qty_in (h : gmap nat Order.t) (c : nat) : Z :=
  from_option Order.qty 0 (h !! c).

(** The book with five ask levels and a constructed market buy order for
    six shares. *)
Definition five_asks_market : State :=
  set_orders (<[6%nat := Order.mk false true None 6 7 None None]>
                (orders five_asks_state)) five_asks_state.

(** The same book after that order traded at the level priced 8. *)
Definition five_asks_market_traded : State :=
  Eval vm_compute in
    match trade_at_level 10 6 1 five_asks_market with
    | Ok (_, s) => s
    | _ => five_asks_market
    end.

(** The book with five ask levels after the second order of the level
    priced 10 was re-priced to 19/2 (it is still queued at 10). *)
Definition five_asks_repriced : State :=
  set_orders (<[5%nat := Order.mk true false (Some (19 # 2)%Q) 7 6 None (Some 0%nat)]>
                (orders five_asks_state)) five_asks_state.

(** ** What a run prints *)

Definition is_trade (e : Event) : Prop :=
  match e with
  | Trade _ _ => True
  | BookingFailed => False
  end.

(** The book with five ask levels after the market buy order for six
    shares was added. *)
Definition five_asks_market_added : State :=
  Eval vm_compute in
    match add_order 10 6 five_asks_market with
    | Ok (_, s) => s
    | _ => five_asks_market
    end.

(** ** Division by zero

    [no_zero_division m]: in no state does the run of [m] raise
    [ZeroDivisionError]. *)
Definition no_zero_division {A} (m : M A) : Prop :=
  forall s, m s <> Raise ZeroDivisionError.

(** The book with five ask levels and a constructed buy order for two
    shares: a market order, and a limit order at the lowest ask price 8. *)
Definition five_asks_small_market : State :=
  set_orders (<[6%nat := Order.mk false true None 2 7 None None]>
                (orders five_asks_state)) five_asks_state.

Definition five_asks_small_limit : State :=
  set_orders (<[6%nat := Order.mk true true (Some 8%Q) 2 7 None None]>
                (orders five_asks_state)) five_asks_state.

(** * Proofs *)

(** ** Scenario 5 *)

Lemma scenario5_not_as_announced :
  ~ (exists s0 s,
        start_trading 10 (take 2 scenario5) = Ok (tt, s0) /\
        start_trading 10 scenario5 = Ok (tt, s) /\
        scenario5_announced s0 s).
Proof.
  intros (s0 & s & _ & Hrun & Hout & _).
  vm_compute in Hrun. injection Hrun as <-.
  vm_compute in Hout. discriminate Hout.
Qed.

Lemma scenario5_final : start_trading 10 scenario5 = Ok (tt, scenario5_state).
Proof. vm_compute. reflexivity. Qed.

Lemma scenario5_side_tree : side_tree scenario5_state false scenario5_tree.
Proof.
  split; [reflexivity|].
  split; [simpl; repeat split; reflexivity|].
  split.
  { repeat constructor; do 2 eexists; split; try reflexivity; split; reflexivity. }
  repeat constructor;
    do 4 eexists; (split; [reflexivity|]); (split; [reflexivity|]);
    (split; [reflexivity|]); (split; [reflexivity|]); reflexivity.
Qed.

(** C1 (as the code behaves).  On [limit sell 9 10], [limit sell 11 10],
    [limit buy 12 5] the run ends normally and prints exactly one line, the
    trade of quantity 5 at the incoming order's price 12; the first sell
    order survives with quantity 5, re-priced to 6, at the head of a level
    priced 6 of the ask tree; every level priced 11 is stored unchanged. *)
Theorem scenario5_run :
  exists s0 s,
    start_trading 10 (take 2 scenario5) = Ok (tt, s0) /\
    start_trading 10 scenario5 = Ok (tt, s) /\
    scenario5_observed s0 s.
Proof.
  eexists. exists scenario5_state.
  split; [vm_compute; reflexivity|].
  split; [apply scenario5_final|].
  split; [reflexivity|].
  split.
  - exists scenario5_tree, 2%nat.
    do 3 eexists.
    split; [apply scenario5_side_tree|].
    split; [set_solver|].
    repeat (split; [reflexivity|]). reflexivity.
  - apply map_Forall_to_list. vm_compute.
    repeat constructor; simpl; congruence.
Qed.


(** C3 (the code at the failing input).  After scenario 5 the ask side
    records a total of 25 while the levels of its tree add up to 20. *)
Theorem scenario5_side_total_off :
  exists s t,
    start_trading 10 scenario5 = Ok (tt, s) /\
    side_tree s false t /\
    BookSide.total_qty (ask s) = 25 /\
    levels_total (levels s) (inorder t) = 20.
Proof.
  exists scenario5_state, scenario5_tree.
  split; [apply scenario5_final|].
  split; [apply scenario5_side_tree|].
  split; reflexivity.
Qed.

(** C4 (the code at the failing input).  After scenario 5 the root of the
    ask tree, the level priced 9, has an empty queue and is still linked. *)
Theorem scenario5_empty_level_kept :
  exists s t l lv,
    start_trading 10 scenario5 = Ok (tt, s) /\
    side_tree s false t /\
    l ∈ inorder t /\
    levels s !! l = Some lv /\
    Level.price lv = Some 9%Q /\
    Level.head lv = None.
Proof.
  exists scenario5_state, scenario5_tree, 0%nat. eexists.
  split; [apply scenario5_final|].
  split; [apply scenario5_side_tree|].
  split; [set_solver|].
  split; [reflexivity|].
  split; reflexivity.
Qed.

(** ** Market order against an empty side *)

(** C7.  A market order submitted while the opposing side has no level
    prints the booking failure and changes nothing else: no trade is
    printed, no store and no side is touched, the order is booked nowhere. *)
Theorem market_order_no_counterparty fuel s order o :
  orders s !! order = Some o ->
  Order.is_limit o = false ->
  BookSide.root (side (negb (Order.is_buy o)) s) = None ->
  add_order fuel order s = Ok (tt, set_stdout (stdout s ++ [BookingFailed]) s).
Proof.
  intros Ho Hm Hroot.
  unfold add_order, bind, load_order. rewrite Ho, Hm.
  unfold process_market_order, bind, load_order. rewrite Ho.
  destruct (Order.is_buy o); simpl in Hroot;
    unfold min_level, max_level, bind, load_side, side; rewrite Hroot; reflexivity.
Qed.

Lemma market_order_no_counterparty_witness :
  add_order 0 0
    (set_orders {[ 0%nat := Order.mk false false None 5 1 None None ]} OrderBook_init)
  = Ok (tt, set_stdout [BookingFailed]
              (set_orders {[ 0%nat := Order.mk false false None 5 1 None None ]}
                          OrderBook_init)).
Proof.
  apply (market_order_no_counterparty 0
           (set_orders {[ 0%nat := Order.mk false false None 5 1 None None ]} OrderBook_init)
           0 (Order.mk false false None 5 1 None None)); reflexivity.
Defined.

(** ** The quote parser *)

Lemma same_letter_lower a b : same_letter a b = true -> lower_char a = lower_char b.
Proof.
  unfold same_letter, lower_char.
  pose proof (ascii_nat_embedding a) as Ha. pose proof (ascii_nat_embedding b) as Hb.
  remember (nat_of_ascii a) as m eqn:Em. remember (nat_of_ascii b) as n eqn:En.
  clear Em En. cbn zeta. intros H.
  apply orb_true_iff in H as [H|H]; [apply orb_true_iff in H as [H|H]|].
  - apply Nat.eqb_eq in H. subst n. rewrite <- Ha, <- Hb. reflexivity.
  - apply andb_true_iff in H as [H Hn]. apply Nat.eqb_eq in Hn. subst n.
    rewrite H. apply andb_true_iff in H as [H _]. apply Nat.leb_le in H.
    replace (m + 32 <=? 90)%nat with false by (symmetry; apply Nat.leb_gt; lia).
    rewrite andb_false_r. exact Hb.
  - apply andb_true_iff in H as [H Hm]. apply Nat.eqb_eq in Hm. subst m.
    rewrite H. apply andb_true_iff in H as [H _]. apply Nat.leb_le in H.
    replace (n + 32 <=? 90)%nat with false by (symmetry; apply Nat.leb_gt; lia).
    rewrite andb_false_r. symmetry. exact Ha.
Qed.

Lemma same_letters_lower s : forall t, same_letters s t = true -> lower s = lower t.
Proof.
  induction s as [|a s IH]; intros [|b t] H; try discriminate H; [reflexivity|].
  cbn [same_letters] in H. apply andb_true_iff in H as [Hab Hst].
  cbn [lower]. rewrite (same_letter_lower a b Hab), (IH t Hst). reflexivity.
Qed.

(** C9.  The parser reads a line through its lowercased tokens, so a line
    that differs from another at most in the case of its letters constructs
    the same order.  On a line with at least two tokens the order type and
    the side are read off the first two lowercased tokens by comparison
    with ["limit"] and ["buy"] only.  Any other first token gives a market
    order, accepted as soon as the last token is an integer; the first
    token ["limit"] gives a limit order, accepted as soon as the third token
    is a number and the last token an integer, whatever the second token
    is; any second token other than ["buy"] gives a sell order; and a
    constructed order never has another type or side.  So no spelling of
    the two keywords makes the parser reject a line. *)
Theorem quote_classification py_float py_int quote now :
  (forall quote', same_letters quote quote' = true ->
     Order_init py_float py_int quote' now = Order_init py_float py_int quote now) /\
  (forall first second rest,
     split (lower quote) = first :: second :: rest ->
     (first <> "limit"%string ->
      forall tok q, last (second :: rest) = Some tok -> py_int tok = Some q ->
        Order_init py_float py_int quote now
        = Ok (Order.mk false (bool_decide (second = "buy"%string)) None q now None None)) /\
     (first = "limit"%string ->
      forall third p tok q, rest !! 0%nat = Some third -> py_float third = Some p ->
        last rest = Some tok -> py_int tok = Some q ->
        Order_init py_float py_int quote now
        = Ok (Order.mk true (bool_decide (second = "buy"%string)) (Some p) q now None None)) /\
     (forall o, Order_init py_float py_int quote now = Ok o ->
        Order.is_limit o = bool_decide (first = "limit"%string) /\
        Order.is_buy o = bool_decide (second = "buy"%string))).
Proof.
  split.
  { intros quote' Hsame. unfold Order_init.
    rewrite (same_letters_lower quote quote' Hsame). reflexivity. }
  intros first second rest Hsplit. unfold Order_init. rewrite Hsplit.
  assert (Hlast : (first :: second :: rest) !! (length (first :: second :: rest) - 1)%nat
                  = last (second :: rest)).
  { rewrite last_lookup. simpl. first [reflexivity | f_equal; lia]. }
  change (index (first :: second :: rest) 0) with (Ok first).
  change (index (first :: second :: rest) 1) with (Ok second).
  cbn [rbind].
  split; [|split].
  - intros Hne tok q Htok Hq.
    destruct (decide (first = "limit"%string)) as [|_]; [contradiction|].
    cbn [rbind]. unfold index. rewrite Hlast, Htok. cbn [rbind of_value].
    rewrite Hq. cbn [rbind].
    destruct (decide (second = "buy"%string)) as [E|E].
    + rewrite bool_decide_eq_true_2 by exact E. reflexivity.
    + rewrite bool_decide_eq_false_2 by exact E. reflexivity.
  - intros Hlim third p tok q Hthird Hp Htok Hq.
    destruct (decide (first = "limit"%string)) as [_|]; [|contradiction].
    assert (Htok' : last (second :: rest) = Some tok).
    { destruct rest; [discriminate Htok | exact Htok]. }
    unfold index.
    change ((first :: second :: rest) !! 2%nat) with (rest !! 0%nat).
    rewrite Hthird, Hlast, Htok'. cbn [rbind of_value].
    rewrite Hp. cbn [rbind]. rewrite Hq. cbn [rbind].
    destruct (decide (second = "buy"%string)) as [E|E].
    + rewrite bool_decide_eq_true_2 by exact E. reflexivity.
    + rewrite bool_decide_eq_false_2 by exact E. reflexivity.
  - intros o Ho.
    destruct (decide (first = "limit"%string)) as [E1|E1];
      destruct (decide (second = "buy"%string)) as [E2|E2];
      rewrite ?(bool_decide_eq_true_2 _ E1), ?(bool_decide_eq_false_2 _ E1),
              ?(bool_decide_eq_true_2 _ E2), ?(bool_decide_eq_false_2 _ E2);
      repeat match type of Ho with
             | rbind ?r _ = Ok _ => destruct r eqn:?; cbn [rbind] in Ho; try discriminate Ho
             end;
      injection Ho as <-; split; reflexivity.
Qed.

Lemma quote_classification_witness :
  Order_init decimal_float decimal "LIMT Byu 10 5" 7
  = Ok (Order.mk false false None 5 7 None None) /\
  Order_init decimal_float decimal "Market BUY 5" 7
  = Ok (Order.mk false true None 5 7 None None) /\
  Order_init decimal_float decimal "Limit BYU 10 5" 7
  = Ok (Order.mk true false (Some 10%Q) 5 7 None None) /\
  Order_init decimal_float decimal "LIMIT Buy 10 5" 7
  = Ok (Order.mk true true (Some 10%Q) 5 7 None None) /\
  Order_init decimal_float decimal "limit buy 10 5" 7
  = Order_init decimal_float decimal "LIMIT Buy 10 5" 7.
Proof.
  split; [|split; [|split; [|split]]].
  - apply (proj1 (proj2 (quote_classification decimal_float decimal "LIMT Byu 10 5" 7)
                    "limt" "byu" ["10"; "5"]%string eq_refl))
      with (tok := "5"%string); [discriminate | reflexivity | reflexivity].
  - apply (proj1 (proj2 (quote_classification decimal_float decimal "Market BUY 5" 7)
                    "market" "buy" ["5"]%string eq_refl))
      with (tok := "5"%string); [discriminate | reflexivity | reflexivity].
  - apply (proj1 (proj2 (proj2 (quote_classification decimal_float decimal
                                  "Limit BYU 10 5" 7)
                           "limit" "byu" ["10"; "5"]%string eq_refl)))
      with (third := "10"%string) (tok := "5"%string); reflexivity.
  - apply (proj1 (proj2 (proj2 (quote_classification decimal_float decimal
                                  "LIMIT Buy 10 5" 7)
                           "limit" "buy" ["10"; "5"]%string eq_refl)))
      with (third := "10"%string) (tok := "5"%string); reflexivity.
  - apply (proj1 (quote_classification decimal_float decimal "LIMIT Buy 10 5" 7)).
    reflexivity.
Defined.

(** ** Mid-queue insertion *)

Lemma insert_order_state_run :
  start_trading 10 ["limit sell 6 1"; "limit sell 6 2"]%string = Ok (tt, insert_order_state).
Proof. vm_compute. reflexivity. Qed.

(** C5 (the code at the failing input).  Level 0 of [insert_order_state]
    holds the two orders stamped 1 and 2, oldest first; inserting an order
    stamped 0 reads an attribute of [None].  The same happens in a plain run
    when a re-priced order lands on a level holding a newer order. *)
Theorem insert_order_raises :
  (exists lv v0 v1,
      levels insert_order_state !! 0%nat = Some lv /\
      queue (orders insert_order_state) (Level.head lv) [0; 1]%nat /\
      Level.tail lv = Some 1%nat /\
      orders insert_order_state !! 0%nat = Some v0 /\ Order.timestamp v0 = 1 /\
      orders insert_order_state !! 1%nat = Some v1 /\ Order.timestamp v1 = 2) /\
  (let* o := new_order (Order.mk true false (Some 6%Q) 3 0 None None) in
   insert_order 10 0 o) insert_order_state = Raise AttributeError /\
  start_trading 10 ["limit sell 9 10"; "limit sell 6 1"; "limit buy 36 1"]%string
  = Raise AttributeError.
Proof.
  split.
  { do 3 eexists. split; [reflexivity|].
    split.
    { simpl. split; [reflexivity|]. eexists. split; [reflexivity|].
      split; [reflexivity|]. eexists. split; [reflexivity|]. reflexivity. }
    repeat split; reflexivity. }
  split; vm_compute; reflexivity.
Qed.

(** ** Running monadic code: basic equations *)

Lemma bind_ok {A B} (m : M A) (k : A -> M B) s a s' :
  m s = Ok (a, s') -> bind m k s = k a s'.
Proof. unfold bind. intros ->. reflexivity. Qed.

Lemma bind_ret {A B} (a : A) (k : A -> M B) s : bind (ret a) k s = k a s.
Proof. reflexivity. Qed.

Lemma load_order_ok s o v : orders s !! o = Some v -> load_order o s = Ok (v, s).
Proof. unfold load_order. intros ->. reflexivity. Qed.

Lemma load_level_ok s l v : levels s !! l = Some v -> load_level l s = Ok (v, s).
Proof. unfold load_level. intros ->. reflexivity. Qed.

Lemma total_priced v p s :
  Order.is_limit v = true -> Order.price v = Some p ->
  total v s = Ok (notional v, s).
Proof. unfold total, notional. intros -> ->. reflexivity. Qed.

(** ** The counterparty of a price-improving limit order *)

Lemma trade_limit_order_scan_chosen q : forall fuel s limit_order o po p,
  orders s !! limit_order = Some o ->
  Order.is_limit o = true -> Order.price o = Some po ->
  queue (orders s) p q -> q <> [] ->
  Forall (priced (orders s)) q ->
  (length q <= fuel)%nat ->
  trade_limit_order_scan fuel limit_order p s
  = Ok (counterparty_chosen (orders s) o q, s).
Proof.
  induction q as [|c q IH]; intros fuel s limit_order o po p Ho Hlim Hpo Hq Hne Hpr Hfuel;
    [congruence|].
  destruct Hq as (-> & v & Hv & Hq).
  destruct fuel as [|fuel]; [simpl in Hfuel; lia|].
  apply Forall_cons in Hpr as [(v' & pc & Hv' & Hvl & Hvp) Hpr].
  rewrite Hv in Hv'. injection Hv' as <-.
  cbn [trade_limit_order_scan deref].
  rewrite bind_ret.
  rewrite (bind_ok _ _ _ _ _ (load_order_ok _ _ _ Hv)).
  rewrite (bind_ok _ _ _ _ _ (total_priced _ _ _ Hvl Hvp)).
  rewrite (bind_ok _ _ _ _ _ (load_order_ok _ _ _ Ho)).
  rewrite (bind_ok _ _ _ _ _ (total_priced _ _ _ Hlim Hpo)).
  unfold counterparty_chosen. cbn [find]. rewrite Hv.
  fold (same_size v o).
  destruct (same_size v o) eqn:Hsame; cbn [negb]; [|reflexivity].
  destruct q as [|c' q].
  - simpl in Hq. rewrite Hq. reflexivity.
  - pose proof Hq as (Hnext & _). rewrite Hnext.
    rewrite <- Hnext.
    apply (IH fuel s limit_order o po (Order.next v)); try assumption;
      [discriminate | simpl in Hfuel |- *; lia].
Qed.

Lemma counterparty_not_as_announced :
  exists lv o,
    levels scenario5_crossing !! 0%nat = Some lv /\
    orders scenario5_crossing !! 2%nat = Some o /\
    py_eq (Order.price o) (Level.price lv) = false /\
    queue (orders scenario5_crossing) (Level.head lv) [0%nat] /\
    counterparty_announced (orders scenario5_crossing) o [0%nat] = None /\
    trade_limit_order_scan 10 2 (Level.head lv) scenario5_crossing
    = Ok (Some 0%nat, scenario5_crossing).
Proof.
  do 2 eexists.
  split; [reflexivity|].
  split; [reflexivity|].
  split; [reflexivity|].
  split.
  { simpl. split; [reflexivity|]. eexists. split; reflexivity. }
  split; [reflexivity|].
  vm_compute. reflexivity.
Qed.

Lemma exactly_priced_priced h c : exactly_priced h c -> priced h c.
Proof. intros (v & p & Hv & Hl & Hp & _). exists v, p. auto. Qed.

(** C2 (as the code behaves).  When the incoming limit order is priced off
    the level and the level's queue is not empty, the loop stops at the
    first resting order, from the head, that has neither the notional value
    nor the quantity of the incoming order; when every resting order of the
    level has one of the two, the incoming order is returned as it came and
    nothing is changed or printed.  On a level whose queue is empty the
    call raises [AttributeError].  The orders are limit orders whose
    notional value [qty * price] Python computes without rounding, so that
    its comparison is the one of the exact products. *)
Theorem trade_limit_order_counterparty fuel s limit_order level lv o q :
  levels s !! level = Some lv ->
  orders s !! limit_order = Some o ->
  py_eq (Order.price o) (Level.price lv) = false ->
  queue (orders s) (Level.head lv) q ->
  exactly_priced (orders s) limit_order ->
  Forall (exactly_priced (orders s)) q ->
  (1 <= fuel)%nat -> (length q <= fuel)%nat ->
  (q = [] -> trade_limit_order fuel limit_order level s = Raise AttributeError) /\
  (q <> [] ->
   trade_limit_order_scan fuel limit_order (Level.head lv) s
   = Ok (counterparty_chosen (orders s) o q, s) /\
   (counterparty_chosen (orders s) o q = None ->
    trade_limit_order fuel limit_order level s = Ok (limit_order, s))).
Proof.
  intros Hlv Ho Hneq Hq Hex Hexq Hfuel1 Hfuel.
  pose proof (exactly_priced_priced _ _ Hex) as (o' & po & Ho' & Hlim & Hpo).
  rewrite Ho in Ho'. injection Ho' as <-.
  assert (Hpr : Forall (priced (orders s)) q).
  { eapply Forall_impl; [exact Hexq|]. intros c. apply exactly_priced_priced. }
  split.
  - intros ->. simpl in Hq.
    unfold trade_limit_order.
    rewrite (bind_ok _ _ _ _ _ (load_order_ok _ _ _ Ho)).
    rewrite (bind_ok _ _ _ _ _ (load_level_ok _ _ _ Hlv)).
    rewrite Hneq, Hq.
    destruct fuel as [|fuel]; [lia|]. reflexivity.
  - intros Hne.
    pose proof (trade_limit_order_scan_chosen q fuel s limit_order o po (Level.head lv)
                  Ho Hlim Hpo Hq Hne Hpr Hfuel) as Hscan.
    split; [exact Hscan|].
    intros Hnone. unfold trade_limit_order.
    rewrite (bind_ok _ _ _ _ _ (load_order_ok _ _ _ Ho)).
    rewrite (bind_ok _ _ _ _ _ (load_level_ok _ _ _ Hlv)).
    rewrite Hneq.
    rewrite (bind_ok _ _ _ _ _ Hscan). rewrite Hnone. reflexivity.
Qed.

Ltac whole_binary64 n :=
  exists n, 0; split; [reflexivity | split; [lia | reflexivity]].

Ltac whole_exactly_priced p n t :=
  do 2 eexists; split; [reflexivity|]; split; [reflexivity|]; split; [reflexivity|];
  split; [whole_binary64 p|]; split; [whole_binary64 n | whole_binary64 t].

Lemma trade_limit_order_counterparty_witness :
  (trade_limit_order_scan 10 3 (Some 0%nat) crossing_passes_two
   = Ok (Some 2%nat, crossing_passes_two)) /\
  (trade_limit_order_scan 10 2 (Some 0%nat) crossing_unmatched
   = Ok (None, crossing_unmatched) /\
   trade_limit_order 10 2 0 crossing_unmatched = Ok (2%nat, crossing_unmatched)) /\
  trade_limit_order 10 3 0 crossing_empty_level = Raise AttributeError.
Proof.
  split; [|split].
  - refine (proj1 (proj2 (trade_limit_order_counterparty 10 crossing_passes_two 3 0
              (Level.mk (Some 9%Q) false 22 (Some 0%nat) (Some 2%nat) None None None)
              (Order.mk true true (Some 18%Q) 5 4 None None) [0; 1; 2]%nat
              eq_refl eq_refl eq_refl _ _ _ _ _) _)).
    + simpl. split; [reflexivity|]. eexists. split; [reflexivity|].
      split; [reflexivity|]. eexists. split; [reflexivity|].
      split; [reflexivity|]. eexists. split; reflexivity.
    + whole_exactly_priced 18 5 90.
    + repeat apply Forall_cons_2; [ whole_exactly_priced 9 5 45
                                  | whole_exactly_priced 9 10 90
                                  | whole_exactly_priced 9 7 63
                                  | apply Forall_nil_2 ].
    + lia.
    + simpl. lia.
    + discriminate.
  - pose proof (proj2 (trade_limit_order_counterparty 10 crossing_unmatched 2 0
              (Level.mk (Some 9%Q) false 15 (Some 0%nat) (Some 1%nat) None None None)
              (Order.mk true true (Some 18%Q) 5 3 None None) [0; 1]%nat
              eq_refl eq_refl eq_refl
              ltac:(simpl; split; [reflexivity|]; eexists; split; [reflexivity|];
                    split; [reflexivity|]; eexists; split; reflexivity)
              ltac:(whole_exactly_priced 18 5 90)
              ltac:(repeat apply Forall_cons_2; [ whole_exactly_priced 9 5 45
                                                | whole_exactly_priced 9 10 90
                                                | apply Forall_nil_2 ])
              ltac:(lia) ltac:(simpl; lia)) ltac:(discriminate)) as [Hscan Hret].
    split; [exact Hscan|]. apply Hret. reflexivity.
  - refine (proj1 (trade_limit_order_counterparty 10 crossing_empty_level 3 0
              (Level.mk (Some 9%Q) false 5 None None (Some 1%nat) (Some 2%nat) None)
              (Order.mk true true (Some 10%Q) 5 4 None None) []
              eq_refl eq_refl eq_refl _ _ _ _ _) eq_refl).
    + reflexivity.
    + whole_exactly_priced 10 5 50.
    + apply Forall_nil_2.
    + lia.
    + simpl. lia.
Defined.

(** ** Trees and contexts: structure *)

Lemma inorder_plug c : forall t,
  inorder (plug c t) = ctx_before c ++ inorder t ++ ctx_after c.
Proof.
  induction c as [|c IH p r|c IH l p]; intros t; simpl.
  - rewrite app_nil_r. reflexivity.
  - rewrite IH. simpl. rewrite <- !app_assoc. reflexivity.
  - rewrite IH. simpl. rewrite <- !app_assoc. simpl. reflexivity.
Qed.

Lemma root_of_plug c : forall t, root_of (plug c t) = ctx_root c (root_of t).
Proof.
  induction c as [|c IH p r|c IH l p]; intros t; simpl; [reflexivity| |]; apply IH.
Qed.

Lemma tree_rep_plug h top c : forall t,
  tree_rep h top (plug c t) <->
  tree_rep h (ctx_parent top c) t /\ ctx_rep h top c (root_of t).
Proof.
  induction c as [|c IH p r|c IH l p]; intros t; simpl.
  - tauto.
  - rewrite IH. simpl. tauto.
  - rewrite IH. simpl. tauto.
Qed.

Lemma in_plug t : forall x,
  x ∈ inorder t -> exists c l r, t = plug c (Node l x r).
Proof.
  assert (G : forall t c x, x ∈ inorder t ->
                exists c' l r, plug c t = plug c' (Node l x r)).
  { clear t. induction t as [|l IHl y r IHr]; intros c x Hx; simpl in Hx.
    - set_solver.
    - apply elem_of_app in Hx as [Hx|Hx].
      + destruct (IHl (InLeft c y r) x Hx) as (c' & l' & r' & E). eauto.
      + apply elem_of_cons in Hx as [->|Hx].
        * eauto.
        * destruct (IHr (InRight c l y) x Hx) as (c' & l' & r' & E). eauto. }
  intros x Hx. apply (G t Top x Hx).
Qed.

Lemma links_Some h x par l r :
  links h x = Some (par, l, r) <->
  exists v, h !! x = Some v /\ Level.parent v = par /\ Level.left v = l /\ Level.right v = r.
Proof.
  unfold links. split.
  - destruct (h !! x) as [v|]; simpl; [|discriminate].
    intros E. injection E as <- <- <-. eauto.
  - intros (v & -> & <- & <- & <-). reflexivity.
Qed.

Lemma links_insert h a v x :
  links (<[a := v]> h) x
  = if decide (a = x) then Some (Level.parent v, Level.left v, Level.right v)
    else links h x.
Proof.
  unfold links. destruct (decide (a = x)) as [->|Hne].
  - rewrite lookup_insert_eq. reflexivity.
  - rewrite lookup_insert_ne by exact Hne. reflexivity.
Qed.

Lemma tree_rep_frame h h' t : forall par,
  (forall x, x ∈ inorder t -> links h' x = links h x) ->
  tree_rep h par t -> tree_rep h' par t.
Proof.
  induction t as [|l IHl y r IHr]; intros par Hfr; simpl; [tauto|].
  intros (Hy & Hl & Hr).
  split; [rewrite Hfr by set_solver; exact Hy|].
  split; [apply IHl | apply IHr]; try assumption; intros x Hx; apply Hfr; set_solver.
Qed.

Lemma ctx_rep_frame h h' top c : forall child,
  (forall x, x ∈ ctx_before c ++ ctx_after c -> links h' x = links h x) ->
  ctx_rep h top c child -> ctx_rep h' top c child.
Proof.
  induction c as [|c IH p r|c IH l p]; intros child Hfr; simpl; [tauto| |].
  - intros (Hp & Hr & Hc).
    split; [rewrite Hfr by (simpl; set_solver); exact Hp|].
    split.
    + apply (tree_rep_frame h); [|exact Hr]. intros x Hx. apply Hfr. simpl. set_solver.
    + apply IH; [|exact Hc]. intros x Hx. apply Hfr. simpl. set_solver.
  - intros (Hp & Hl & Hc).
    split; [rewrite Hfr by (simpl; set_solver); exact Hp|].
    split.
    + apply (tree_rep_frame h); [|exact Hl]. intros x Hx. apply Hfr. simpl. set_solver.
    + apply IH; [|exact Hc]. intros x Hx. apply Hfr. simpl. set_solver.
Qed.

Lemma inorder_head l : forall x rest,
  exists tl, inorder l ++ x :: rest = tree_min l x :: tl.
Proof.
  induction l as [|l IHl y r _]; intros x rest; simpl.
  - eauto.
  - rewrite <- app_assoc. simpl. apply IHl.
Qed.

Lemma inorder_last r : forall x pre,
  exists front, pre ++ x :: inorder r = front ++ [tree_max x r].
Proof.
  induction r as [|l _ y r IHr]; intros x pre; simpl.
  - eauto.
  - replace (pre ++ x :: inorder l ++ y :: inorder r)
      with ((pre ++ x :: inorder l) ++ y :: inorder r)
      by (rewrite <- app_assoc; reflexivity).
    apply IHr.
Qed.

(** ** The walks of [min_level], [max_level] and [next_level] *)

Lemma min_level_walk_spec l : forall x r par fuel s,
  tree_rep (levels s) par (Node l x r) ->
  (length (inorder l) < fuel)%nat ->
  min_level_walk fuel x s = Ok (tree_min l x, s).
Proof.
  induction l as [|l IHl y r' _]; intros x r par fuel s (Hx & Hl & _) Hfuel;
    (destruct fuel as [|fuel]; [lia|]);
    apply links_Some in Hx as (v & Hv & _ & Hleft & _);
    cbn [min_level_walk]; rewrite (bind_ok _ _ _ _ _ (load_level_ok _ _ _ Hv)), Hleft; simpl.
  - reflexivity.
  - apply (IHl y r' (Some x)); [exact Hl|].
    simpl in Hfuel. rewrite length_app in Hfuel. simpl in Hfuel. lia.
Qed.

Lemma max_level_walk_spec r : forall x l par fuel s,
  tree_rep (levels s) par (Node l x r) ->
  (length (inorder r) < fuel)%nat ->
  max_level_walk fuel x s = Ok (tree_max x r, s).
Proof.
  induction r as [|l' _ y r IHr]; intros x l par fuel s (Hx & _ & Hr) Hfuel;
    (destruct fuel as [|fuel]; [lia|]);
    apply links_Some in Hx as (v & Hv & _ & _ & Hright);
    cbn [max_level_walk]; rewrite (bind_ok _ _ _ _ _ (load_level_ok _ _ _ Hv)), Hright; simpl.
  - reflexivity.
  - apply (IHr y l' (Some x)); [exact Hr|].
    simpl in Hfuel. rewrite length_app in Hfuel. simpl in Hfuel. lia.
Qed.

Lemma next_level_climb_spec top c : forall t x fuel s,
  top = None ->
  root_of t = Some x ->
  NoDup (inorder (plug c t)) ->
  ctx_rep (levels s) top c (Some x) ->
  (ctx_depth c < fuel)%nat ->
  next_level_climb fuel (ctx_parent top c) x s = Ok (head (ctx_after c), s).
Proof.
  induction c as [|c IH p r|c IH l p]; intros t x fuel s -> Hroot Hnd Hrep Hfuel;
    (destruct fuel as [|fuel]; [simpl in Hfuel; lia|]); simpl in *.
  - reflexivity.
  - destruct Hrep as (Hp & Hr & Hc).
    apply links_Some in Hp as (v & Hv & Hpar & Hleft & Hright).
    rewrite (bind_ok _ _ _ _ _ (load_level_ok _ _ _ Hv)).
    destruct (decide (Some x = Level.right v)) as [E|_]; [|reflexivity].
    exfalso. rewrite Hright in E.
    rewrite inorder_plug in Hnd. simpl in Hnd.
    apply NoDup_app in Hnd as (_ & _ & Hnd).
    apply NoDup_app in Hnd as (Hnd & _ & _).
    destruct t as [|tl y tr]; [discriminate|]. injection Hroot as ->.
    destruct r as [|rl z rr]; [discriminate|]. injection E as ->.
    simpl in Hnd.
    apply NoDup_app in Hnd as (_ & Hnd & _).
    apply (Hnd z); set_solver.
  - destruct Hrep as (Hp & Hl & Hc).
    apply links_Some in Hp as (v & Hv & Hpar & Hleft & Hright).
    rewrite (bind_ok _ _ _ _ _ (load_level_ok _ _ _ Hv)).
    destruct (decide (Some x = Level.right v)) as [_|E]; [|congruence].
    rewrite Hpar.
    apply (IH (Node l p t) p fuel s); [reflexivity|reflexivity|exact Hnd|exact Hc|lia].
Qed.

(** ** More equations for running monadic code *)

Lemma modify_level_ok s l v f :
  levels s !! l = Some v ->
  modify_level l f s = Ok (tt, set_levels (<[l := f v]> (levels s)) s).
Proof.
  intros H. unfold modify_level.
  rewrite (bind_ok _ _ _ _ _ (load_level_ok _ _ _ H)). reflexivity.
Qed.

Lemma modify_order_ok s o v f :
  orders s !! o = Some v ->
  modify_order o f s = Ok (tt, set_orders (<[o := f v]> (orders s)) s).
Proof.
  intros H. unfold modify_order.
  rewrite (bind_ok _ _ _ _ _ (load_order_ok _ _ _ H)). reflexivity.
Qed.

Lemma bind_assoc {A B C} (m : M A) (k1 : A -> M B) (k2 : B -> M C) s :
  bind (bind m k1) k2 s = bind m (fun a => bind (k1 a) k2) s.
Proof. unfold bind. destruct (m s) as [[a s']| |]; reflexivity. Qed.

Lemma tree_surgery_refl s : tree_surgery s s.
Proof. repeat split. Qed.

Lemma tree_surgery_trans s1 s2 s3 :
  tree_surgery s1 s2 -> tree_surgery s2 s3 -> tree_surgery s1 s3.
Proof.
  intros (A1 & A2 & A3 & A4 & A5) (B1 & B2 & B3 & B4 & B5).
  do 4 (split; [congruence|]). intros z. rewrite B5. apply A5.
Qed.

Lemma tree_surgery_store s l v v' :
  levels s !! l = Some v -> level_data v' = level_data v ->
  tree_surgery s (set_levels (<[l := v']> (levels s)) s).
Proof.
  intros Hl Hd. repeat split. intros z. simpl.
  destruct (decide (l = z)) as [<-|Hne].
  - rewrite lookup_insert_eq, Hl. simpl. congruence.
  - rewrite lookup_insert_ne by exact Hne. reflexivity.
Qed.

Lemma tree_surgery_root (s : State) (b : bool) (r : option nat) :
  tree_surgery s (if b then set_bid (BookSide.set_root r (side b s)) s
                  else set_ask (BookSide.set_root r (side b s)) s).
Proof. destruct b; repeat split. Qed.

(** ** [replace_level] *)

Lemma replace_level_spec b top c o new s ov :
  levels s !! o = Some ov ->
  Level.parent ov = ctx_parent top c ->
  (c = Top -> top = None) ->
  ctx_rep (levels s) top c (Some o) ->
  o ∉ ctx_before c ++ ctx_after c ->
  NoDup (ctx_before c ++ ctx_after c) ->
  (forall n, new = Some n ->
     is_Some (levels s !! n) /\ n ∉ ctx_before c ++ ctx_after c) ->
  exists s',
    replace_level b (Some o) new s = Ok (tt, s') /\
    ctx_rep (levels s') top c new /\
    BookSide.root (side b s') = (if c is Top then new else BookSide.root (side b s)) /\
    BookSide.root (side (negb b) s') = BookSide.root (side (negb b) s) /\
    tree_surgery s s' /\
    (forall z, Some z <> new -> Some z <> ctx_parent top c ->
               levels s' !! z = levels s !! z) /\
    (forall n, new = Some n ->
       exists nv, levels s !! n = Some nv /\
                  levels s' !! n = Some (Level.set_parent (ctx_parent top c) nv)).
Proof.
  intros Ho Hpar Htop Hrep Hfresh Hnd Hnew.
  unfold replace_level.
  rewrite (bind_ok _ _ _ _ _ (load_level_ok _ _ _ Ho)).
  destruct c as [|c p r|c l p]; simpl in Hpar, Hrep.
  - (* the root of the side *)
    rewrite Hpar, (Htop eq_refl).
    unfold modify_side, load_side, store_side. cbn [bind].
    set (s1 := if b then set_bid (BookSide.set_root new (side b s)) s
               else set_ask (BookSide.set_root new (side b s)) s).
    assert (Hl1 : levels s1 = levels s) by (subst s1; destruct b; reflexivity).
    assert (Hr1 : BookSide.root (side b s1) = new) by (subst s1; destruct b; reflexivity).
    assert (Hr1' : BookSide.root (side (negb b) s1) = BookSide.root (side (negb b) s))
      by (subst s1; destruct b; reflexivity).
    assert (Hsu1 : tree_surgery s s1) by apply tree_surgery_root.
    destruct new as [n|].
    + destruct (Hnew n eq_refl) as ([nv Hn] & _).
      assert (Ho1 : levels s1 !! o = Some ov) by (rewrite Hl1; exact Ho).
      assert (Hn1 : levels s1 !! n = Some nv) by (rewrite Hl1; exact Hn).
      rewrite (bind_ok _ _ _ _ _ (load_level_ok _ _ _ Ho1)).
      rewrite (modify_level_ok _ _ _ _ Hn1).
      eexists. split; [reflexivity|].
      split; [exact I|].
      split; [destruct b; exact Hr1|].
      split; [destruct b; exact Hr1'|].
      split.
      { eapply tree_surgery_trans; [exact Hsu1|].
        apply (tree_surgery_store s1 n nv); [exact Hn1|reflexivity]. }
      split.
      { intros z Hz _. simpl. rewrite lookup_insert_ne by congruence.
        rewrite Hl1. reflexivity. }
      intros n' E. injection E as <-. exists nv. split; [exact Hn|].
      simpl. rewrite lookup_insert_eq. rewrite Hpar, (Htop eq_refl). reflexivity.
    + eexists. split; [reflexivity|].
      split; [exact I|].
      split; [exact Hr1|].
      split; [exact Hr1'|].
      split; [exact Hsu1|].
      split; [intros z _ _; rewrite Hl1; reflexivity|].
      intros n' E. discriminate E.
  - (* left child of [p] *)
    destruct Hrep as (Hp & Hr & Hc).
    apply links_Some in Hp as (pv & Hpv & Hppar & Hpleft & Hpright).
    rewrite Hpar. cbn beta iota. rewrite bind_assoc.
    rewrite (bind_ok _ _ _ _ _ (load_level_ok _ _ _ Hpv)).
    destruct (decide (Some o = Level.left pv)) as [_|E]; [|congruence].
    cbn [bind store_level].
    set (h1 := <[p := Level.set_left new pv]> (levels s)).
    assert (Hop : o <> p) by (intros ->; apply Hfresh; simpl; set_solver).
    simpl in Hnd.
    assert (Hpfresh : p ∉ ctx_before c ++ inorder r ++ ctx_after c).
    { apply NoDup_app in Hnd as (_ & Hd & Hnd'). apply NoDup_cons in Hnd' as [Hp' _].
      intros Hin. apply elem_of_app in Hin as [Hin|Hin]; [|exact (Hp' Hin)].
      apply (Hd p Hin). set_solver. }
    assert (Hfr1 : forall z, z <> p -> links h1 z = links (levels s) z).
    { intros z Hz. subst h1. rewrite links_insert.
      destruct (decide (p = z)); [congruence|reflexivity]. }
    assert (Hlp1 : links h1 p = Some (ctx_parent top c, new, root_of r)).
    { subst h1. rewrite links_insert. destruct (decide (p = p)); [|congruence].
      simpl. rewrite Hppar, Hpright. reflexivity. }
    destruct new as [n|].
    + destruct (Hnew n eq_refl) as ([nv Hn] & Hnfresh).
      assert (Hnp : n <> p) by (intros ->; apply Hnfresh; simpl; set_solver).
      assert (Ho1 : levels (set_levels h1 s) !! o = Some ov).
      { simpl. subst h1. rewrite lookup_insert_ne by congruence. exact Ho. }
      assert (Hn1 : levels (set_levels h1 s) !! n = Some nv).
      { simpl. subst h1. rewrite lookup_insert_ne by congruence. exact Hn. }
      rewrite (bind_ok _ _ _ _ _ (load_level_ok _ _ _ Ho1)).
      rewrite (modify_level_ok _ _ _ _ Hn1).
      eexists. split; [reflexivity|].
      assert (Hfr2 : forall z, z <> p -> z <> n ->
                links (<[n := Level.set_parent (Level.parent ov) nv]> h1) z
                = links (levels s) z).
      { intros z Hzp Hzn. rewrite links_insert.
        destruct (decide (n = z)); [congruence|]. apply Hfr1, Hzp. }
      split.
      { simpl. split.
        - rewrite links_insert. destruct (decide (n = p)); [congruence|]. exact Hlp1.
        - split.
          + apply (tree_rep_frame (levels s)); [|exact Hr].
            intros z Hz. apply Hfr2; intros ->; [apply Hpfresh|apply Hnfresh]; simpl; set_solver.
          + apply (ctx_rep_frame (levels s)); [|exact Hc].
            intros z Hz. apply Hfr2; intros ->; [apply Hpfresh|apply Hnfresh]; simpl; set_solver. }
      split; [destruct b; reflexivity|].
      split; [destruct b; reflexivity|].
      split.
      { apply (tree_surgery_trans _ (set_levels h1 s)).
        - apply (tree_surgery_store s p pv); [exact Hpv|reflexivity].
        - apply (tree_surgery_store (set_levels h1 s) n nv); [exact Hn1|reflexivity]. }
      split.
      { intros z Hzn Hzp. simpl in Hzp |- *. rewrite lookup_insert_ne by congruence.
        subst h1. rewrite lookup_insert_ne by congruence. reflexivity. }
      intros n' E. injection E as <-. exists nv. split; [exact Hn|].
      simpl. rewrite lookup_insert_eq. rewrite Hpar. reflexivity.
    + eexists. split; [reflexivity|].
      split.
      { simpl. split; [exact Hlp1|]. split.
        - apply (tree_rep_frame (levels s)); [|exact Hr].
          intros z Hz. apply Hfr1; intros ->; apply Hpfresh; set_solver.
        - apply (ctx_rep_frame (levels s)); [|exact Hc].
          intros z Hz. apply Hfr1; intros ->; apply Hpfresh; set_solver. }
      split; [destruct b; reflexivity|].
      split; [destruct b; reflexivity|].
      split; [apply (tree_surgery_store s p pv); [exact Hpv|reflexivity]|].
      split.
      { intros z _ Hzp. simpl in Hzp |- *. subst h1. rewrite lookup_insert_ne by congruence. reflexivity. }
      intros n' E. discriminate E.
  - (* right child of [p] *)
    destruct Hrep as (Hp & Hl & Hc).
    apply links_Some in Hp as (pv & Hpv & Hppar & Hpleft & Hpright).
    rewrite Hpar. cbn beta iota. rewrite bind_assoc.
    rewrite (bind_ok _ _ _ _ _ (load_level_ok _ _ _ Hpv)).
    destruct (decide (Some o = Level.left pv)) as [E|_].
    { exfalso. rewrite Hpleft in E. destruct l as [|ll y lr]; [discriminate|].
      injection E as ->. apply Hfresh. simpl. set_solver. }
    cbn [bind store_level].
    set (h1 := <[p := Level.set_right new pv]> (levels s)).
    assert (Hop : o <> p) by (intros ->; apply Hfresh; simpl; set_solver).
    simpl in Hnd.
    assert (Hpfresh : p ∉ ctx_before c ++ inorder l ++ ctx_after c).
    { rewrite <- !app_assoc in Hnd.
      apply NoDup_app in Hnd as (_ & Hd1 & Hnd').
      apply NoDup_app in Hnd' as (_ & Hd2 & Hnd'').
      apply NoDup_cons in Hnd'' as [Hp' _].
      intros Hin. apply elem_of_app in Hin as [Hin|Hin].
      - apply (Hd1 p Hin). set_solver.
      - apply elem_of_app in Hin as [Hin|Hin]; [|exact (Hp' Hin)].
        apply (Hd2 p Hin). set_solver. }
    assert (Hfr1 : forall z, z <> p -> links h1 z = links (levels s) z).
    { intros z Hz. subst h1. rewrite links_insert.
      destruct (decide (p = z)); [congruence|reflexivity]. }
    assert (Hlp1 : links h1 p = Some (ctx_parent top c, root_of l, new)).
    { subst h1. rewrite links_insert. destruct (decide (p = p)); [|congruence].
      simpl. rewrite Hppar, Hpleft. reflexivity. }
    destruct new as [n|].
    + destruct (Hnew n eq_refl) as ([nv Hn] & Hnfresh).
      assert (Hnp : n <> p) by (intros ->; apply Hnfresh; simpl; set_solver).
      assert (Ho1 : levels (set_levels h1 s) !! o = Some ov).
      { simpl. subst h1. rewrite lookup_insert_ne by congruence. exact Ho. }
      assert (Hn1 : levels (set_levels h1 s) !! n = Some nv).
      { simpl. subst h1. rewrite lookup_insert_ne by congruence. exact Hn. }
      rewrite (bind_ok _ _ _ _ _ (load_level_ok _ _ _ Ho1)).
      rewrite (modify_level_ok _ _ _ _ Hn1).
      eexists. split; [reflexivity|].
      assert (Hfr2 : forall z, z <> p -> z <> n ->
                links (<[n := Level.set_parent (Level.parent ov) nv]> h1) z
                = links (levels s) z).
      { intros z Hzp Hzn. rewrite links_insert.
        destruct (decide (n = z)); [congruence|]. apply Hfr1, Hzp. }
      split.
      { simpl. split.
        - rewrite links_insert. destruct (decide (n = p)); [congruence|]. exact Hlp1.
        - split.
          + apply (tree_rep_frame (levels s)); [|exact Hl].
            intros z Hz. apply Hfr2; intros ->; [apply Hpfresh|apply Hnfresh]; simpl; set_solver.
          + apply (ctx_rep_frame (levels s)); [|exact Hc].
            intros z Hz. apply Hfr2; intros ->; [apply Hpfresh|apply Hnfresh]; simpl; set_solver. }
      split; [destruct b; reflexivity|].
      split; [destruct b; reflexivity|].
      split.
      { apply (tree_surgery_trans _ (set_levels h1 s)).
        - apply (tree_surgery_store s p pv); [exact Hpv|reflexivity].
        - apply (tree_surgery_store (set_levels h1 s) n nv); [exact Hn1|reflexivity]. }
      split.
      { intros z Hzn Hzp. simpl in Hzp |- *. rewrite lookup_insert_ne by congruence.
        subst h1. rewrite lookup_insert_ne by congruence. reflexivity. }
      intros n' E. injection E as <-. exists nv. split; [exact Hn|].
      simpl. rewrite lookup_insert_eq. rewrite Hpar. reflexivity.
    + eexists. split; [reflexivity|].
      split.
      { simpl. split; [exact Hlp1|]. split.
        - apply (tree_rep_frame (levels s)); [|exact Hl].
          intros z Hz. apply Hfr1; intros ->; apply Hpfresh; set_solver.
        - apply (ctx_rep_frame (levels s)); [|exact Hc].
          intros z Hz. apply Hfr1; intros ->; apply Hpfresh; set_solver. }
      split; [destruct b; reflexivity|].
      split; [destruct b; reflexivity|].
      split; [apply (tree_surgery_store s p pv); [exact Hpv|reflexivity]|].
      split.
      { intros z _ Hzp. simpl in Hzp |- *. subst h1. rewrite lookup_insert_ne by congruence. reflexivity. }
      intros n' E. discriminate E.
Qed.

(** ** Removing a level: the shape that is left *)

Ltac nodup_split :=
  repeat match goal with
         | H : NoDup (_ ++ _) |- _ =>
             let H1 := fresh "Hnd" in let H2 := fresh "Hnd" in let H3 := fresh "Hnd" in
             apply NoDup_app in H as (H1 & H2 & H3)
         | H : NoDup (_ :: _) |- _ =>
             let H1 := fresh "Hnd" in let H2 := fresh "Hnd" in
             apply NoDup_cons in H as (H1 & H2)
         end.

Lemma ctx_root_indep c a a' : c <> Top -> ctx_root c a = ctx_root c a'.
Proof. destruct c; [congruence| |]; intros _; reflexivity. Qed.

Lemma min_split_plug l : forall x r c,
  plug (fst (min_split l x r c)) (Node Leaf (tree_min l x) (snd (min_split l x r c)))
  = plug c (Node l x r).
Proof.
  induction l as [|l IHl y r' _]; intros x r c; simpl; [reflexivity|].
  rewrite IHl. reflexivity.
Qed.

Lemma min_split_before l : forall x r c,
  ctx_before (fst (min_split l x r c)) = ctx_before c.
Proof.
  induction l as [|l IHl y r' _]; intros x r c; simpl; [reflexivity|].
  rewrite IHl. reflexivity.
Qed.

Lemma min_split_top l : forall x r c,
  fst (min_split l x r c) = Top -> l = Leaf /\ c = Top.
Proof.
  induction l as [|l IHl y r' _]; intros x r c; simpl; [tauto|].
  intros E. destruct (IHl _ _ _ E) as [_ E']. discriminate E'.
Qed.

Lemma min_split_root l : forall x r c,
  l <> Leaf -> c = Top ->
  ctx_root (fst (min_split l x r c)) None = Some x /\
  fst (min_split l x r c) <> Top.
Proof.
  intros x r c Hl ->.
  split.
  - rewrite <- (root_of_plug _ Leaf).
    pose proof (f_equal root_of (min_split_plug l x r Top)) as E.
    rewrite !root_of_plug in E. simpl in E.
    rewrite root_of_plug.
    rewrite (ctx_root_indep _ (root_of Leaf) (Some (tree_min l x))); [exact E|].
    intros E'. apply min_split_top in E' as [E' _]. contradiction.
  - intros E'. apply min_split_top in E' as [E' _]. contradiction.
Qed.

Lemma inorder_delete_root l r :
  inorder (delete_root l r) = inorder l ++ inorder r.
Proof.
  destruct l as [|ll ly lr]; [reflexivity|].
  destruct r as [|rl y rr]; [simpl; rewrite app_nil_r; reflexivity|].
  cbn [delete_root inorder]. f_equal.
  pose proof (f_equal inorder (min_split_plug rl y rr Top)) as E.
  rewrite !inorder_plug in E. cbn [plug inorder ctx_before ctx_after] in E.
  rewrite min_split_before in E. cbn [ctx_before app] in E.
  rewrite app_nil_r in E. rewrite <- E.
  rewrite inorder_plug, min_split_before. reflexivity.
Qed.

Lemma tree_rep_reparent h h' par par' t :
  tree_rep h par t ->
  NoDup (inorder t) ->
  (forall z, z ∈ inorder t -> Some z <> root_of t -> links h' z = links h z) ->
  (forall n l r, root_of t = Some n -> links h n = Some (par, l, r) ->
                 links h' n = Some (par', l, r)) ->
  tree_rep h' par' t.
Proof.
  destruct t as [|l n r]; simpl; [tauto|].
  intros (Hn & Hl & Hr) Hnd Hfr Hroot.
  nodup_split.
  split; [apply (Hroot n); [reflexivity|exact Hn]|].
  split.
  - apply (tree_rep_frame h); [|exact Hl].
    intros z Hz. apply Hfr; [set_solver|]. intros E. injection E as ->. set_solver.
  - apply (tree_rep_frame h); [|exact Hr].
    intros z Hz. apply Hfr; [set_solver|]. intros E. injection E as ->. set_solver.
Qed.

Lemma tree_rep_root_stored h par t n :
  tree_rep h par t -> root_of t = Some n -> is_Some (h !! n).
Proof.
  destruct t as [|l y r]; simpl; [discriminate|].
  intros (Hy & _) E. injection E as <-.
  apply links_Some in Hy as (v & Hv & _). eauto.
Qed.

Lemma root_of_in t n : root_of t = Some n -> n ∈ inorder t.
Proof. destruct t; simpl; [discriminate|]. intros E. injection E as <-. set_solver. Qed.

Lemma links_lookup h h' z : h' !! z = h !! z -> links h' z = links h z.
Proof. unfold links. intros ->. reflexivity. Qed.

(** The last four statements of [remove_level], from a state where the
    successor [n] already heads the right subtree [r']. *)
Lemma remove_level_finish b s c l ly x n r' xv nv :
  root_of l = Some ly ->
  levels s !! x = Some xv ->
  Level.parent xv = ctx_parent None c ->
  Level.left xv = Some ly ->
  ctx_rep (levels s) None c (Some x) ->
  tree_rep (levels s) (Some x) l ->
  levels s !! n = Some nv ->
  Level.right nv = root_of r' ->
  tree_rep (levels s) (Some n) r' ->
  NoDup (ctx_before c ++ inorder l ++ x :: n :: inorder r' ++ ctx_after c) ->
  BookSide.root (side b s) = ctx_root c (Some x) ->
  exists s',
    (replace_level b (Some x) (Some n) ;;
     let* lv := load_level x in
     modify_level n (Level.set_left (Level.left lv)) ;;
     let* nv := load_level n in
     let* l := deref (Level.left nv) in
     modify_level l (Level.set_parent (Some n))) s = Ok (tt, s') /\
    BookSide.root (side b s') = ctx_root c (Some n) /\
    tree_rep (levels s') None (plug c (Node l n r')) /\
    BookSide.root (side (negb b) s') = BookSide.root (side (negb b) s) /\
    tree_surgery s s' /\
    (forall z, z ∉ ctx_before c ++ inorder l ++ n :: ctx_after c ->
               levels s' !! z = levels s !! z).
Proof.
  intros Hly Hx Hxpar Hxleft Hc Hl Hn Hnright Hr' Hnd Hroot.
  pose proof (root_of_in _ _ Hly) as Hlyin.
  destruct (tree_rep_root_stored _ _ _ _ Hl Hly) as [lyv Hlyv].
  assert (Hnd' := Hnd). nodup_split.
  assert (Hids : NoDup (ctx_before c ++ ctx_after c)).
  { apply NoDup_app. split; [assumption|]. split; [|assumption]. set_solver. }
  destruct (replace_level_spec b None c x (Some n) s xv Hx Hxpar (fun _ => eq_refl) Hc)
    as (s1 & Hrun1 & Hc1 & Hroot1 & Hroot1' & Hsu1 & Hfr1 & Hn1); [set_solver|exact Hids| |].
  { intros n' E. injection E as <-. split; [eauto|set_solver]. }
  destruct (Hn1 n eq_refl) as (nv' & Hnv' & Hn1').
  rewrite Hn in Hnv'. injection Hnv' as <-.
  assert (Hctxp : forall z, z ∉ ctx_before c ++ ctx_after c -> Some z <> ctx_parent None c).
  { intros z Hz E. destruct c as [|c' p r0|c' l0 p]; simpl in E; [discriminate| |];
      injection E as ->; apply Hz; simpl; set_solver. }
  assert (Hx1 : levels s1 !! x = Some xv).
  { rewrite Hfr1; [exact Hx| |apply Hctxp]; [|set_solver].
    intros E. injection E as ->. set_solver. }
  assert (Hly1 : levels s1 !! ly = Some lyv).
  { rewrite Hfr1; [exact Hlyv| |apply Hctxp]; [|set_solver].
    intros E. injection E as ->. set_solver. }
  rewrite (bind_ok _ _ _ _ _ Hrun1).
  rewrite (bind_ok _ _ _ _ _ (load_level_ok _ _ _ Hx1)).
  rewrite (bind_ok _ _ _ _ _ (modify_level_ok _ _ _ _ Hn1')).
  set (nv2 := Level.set_left (Level.left xv) (Level.set_parent (ctx_parent None c) nv)).
  set (s2 := set_levels (<[n := nv2]> (levels s1)) s1).
  assert (Hn2 : levels s2 !! n = Some nv2) by (simpl; apply lookup_insert_eq).
  assert (Hnly : n <> ly) by (intros ->; set_solver).
  assert (Hly2 : levels s2 !! ly = Some lyv).
  { simpl. rewrite lookup_insert_ne by exact Hnly. exact Hly1. }
  rewrite (bind_ok _ _ _ _ _ (load_level_ok _ _ _ Hn2)).
  replace (Level.left nv2) with (Some ly) by (subst nv2; simpl; congruence).
  cbn [deref]. rewrite bind_ret.
  rewrite (modify_level_ok _ _ _ _ Hly2).
  eexists. split; [reflexivity|].
  assert (Hfr3 : forall z, z <> n -> z <> ly -> z ∉ ctx_before c ++ ctx_after c ->
            levels (set_levels (<[ly := Level.set_parent (Some n) lyv]> (levels s2)) s2) !! z
            = levels s !! z).
  { intros z Hzn Hzly Hz. simpl.
    rewrite lookup_insert_ne by congruence. rewrite lookup_insert_ne by congruence.
    apply Hfr1; [congruence|apply Hctxp, Hz]. }
  split.
  { transitivity (BookSide.root (side b s1)); [destruct b; reflexivity|].
    rewrite Hroot1. destruct c; [reflexivity|exact Hroot..]. }
  split.
  { apply tree_rep_plug. split.
    - simpl. split.
      + rewrite links_insert. destruct (decide (ly = n)); [congruence|].
        rewrite links_insert. destruct (decide (n = n)); [|congruence].
        subst nv2. simpl. rewrite Hxleft, Hly, Hnright. reflexivity.
      + split.
        * apply (tree_rep_reparent (levels s) _ (Some x)); [exact Hl|assumption| |].
          -- intros z Hz Hzr. apply links_lookup. apply Hfr3; [| |set_solver].
             ++ intros ->. set_solver.
             ++ intros ->. apply Hzr. congruence.
          -- intros n' l' r'' E Hl'. rewrite Hly in E. injection E as <-.
             simpl. rewrite links_insert. destruct (decide (ly = ly)); [|congruence].
             apply links_Some in Hl' as (v' & Hv' & _ & <- & <-).
             rewrite Hlyv in Hv'. injection Hv' as <-. reflexivity.
        * apply (tree_rep_frame (levels s)); [|exact Hr'].
          intros z Hz. apply links_lookup. apply Hfr3; [| |set_solver]; intros ->; set_solver.
    - apply (ctx_rep_frame (levels s1)); [|exact Hc1].
      intros z Hz. apply links_lookup. simpl.
      rewrite lookup_insert_ne by (intros ->; set_solver).
      rewrite lookup_insert_ne by (intros ->; set_solver). reflexivity. }
  split; [destruct b; exact Hroot1'|].
  split.
  { apply (tree_surgery_trans _ s1); [exact Hsu1|].
    apply (tree_surgery_trans _ s2).
    - apply (tree_surgery_store s1 n _ nv2 Hn1'). reflexivity.
    - apply (tree_surgery_store s2 ly lyv _ Hly2). reflexivity. }
  intros z Hz. apply Hfr3; [intros ->|intros ->|]; set_solver.
Qed.

Lemma next_level_right b s x xv y rl rr par fuel :
  levels s !! x = Some xv ->
  Level.right xv = Some y ->
  tree_rep (levels s) par (Node rl y rr) ->
  (length (inorder rl) < fuel)%nat ->
  next_level fuel b (Some x) s = Ok (Some (tree_min rl y), s).
Proof.
  intros Hx Hright Hr Hfuel. unfold next_level.
  rewrite (bind_ok _ _ _ _ _ (load_level_ok _ _ _ Hx)), Hright.
  unfold min_level, load_side. cbn [bind].
  rewrite (bind_ok _ _ _ _ _ (min_level_walk_spec rl y rr par fuel s Hr Hfuel)).
  reflexivity.
Qed.

(** [remove_level] on a level of a well-formed tree: it returns, and the
    side is then the tree without that level. *)
Lemma remove_level_spec b s c l x r fuel :
  BookSide.root (side b s) = root_of (plug c (Node l x r)) ->
  tree_rep (levels s) None (plug c (Node l x r)) ->
  NoDup (inorder (plug c (Node l x r))) ->
  (length (inorder (plug c (Node l x r))) < fuel)%nat ->
  exists s',
    remove_level fuel b x s = Ok (tt, s') /\
    BookSide.root (side b s') = root_of (plug c (delete_root l r)) /\
    tree_rep (levels s') None (plug c (delete_root l r)) /\
    BookSide.root (side (negb b) s') = BookSide.root (side (negb b) s) /\
    tree_surgery s s' /\
    (forall z, z ∉ ctx_before c ++ inorder l ++ inorder r ++ ctx_after c ->
               levels s' !! z = levels s !! z).
Proof.
  intros Hroot Hrep Hnd Hfuel.
  rewrite root_of_plug in Hroot. simpl in Hroot.
  apply tree_rep_plug in Hrep as [(Hx & Hl & Hr) Hc].
  apply links_Some in Hx as (xv & Hx & Hxpar & Hxleft & Hxright).
  rewrite inorder_plug in Hnd, Hfuel. simpl in Hnd, Hfuel.
  rewrite ?length_app in Hfuel; simpl in Hfuel; rewrite ?length_app in Hfuel; simpl in Hfuel.
  pose proof (Hnd : id (NoDup _)) as Hnd'. nodup_split.
  assert (Hids : NoDup (ctx_before c ++ ctx_after c)).
  { apply NoDup_app. split; [assumption|]. split; [|assumption]. set_solver. }
  assert (HctxR : forall z, z ∈ ctx_before c ++ ctx_after c -> z ∉ inorder r) by set_solver.
  assert (HLR : forall z, z ∈ inorder l -> z ∉ inorder r) by set_solver.
  assert (Hctxp : forall z, z ∉ ctx_before c ++ ctx_after c -> Some z <> ctx_parent None c).
  { intros z Hz E. destruct c as [|c' p r0|c' l0 p]; simpl in E; [discriminate| |];
      injection E as ->; apply Hz; simpl; set_solver. }
  unfold remove_level.
  rewrite (bind_ok _ _ _ _ _ (load_level_ok _ _ _ Hx)).
  destruct l as [|ll ly lr].
  { (* no left child *)
    simpl in Hxleft. rewrite Hxleft, Hxright.
    destruct (replace_level_spec b None c x (root_of r) s xv Hx Hxpar (fun _ => eq_refl) Hc)
      as (s1 & Hrun1 & Hc1 & Hroot1 & Hroot1' & Hsu1 & Hfr1 & Hn1); [set_solver|exact Hids| |].
    { intros n E. split; [exact (tree_rep_root_stored _ _ _ _ Hr E)|].
      apply root_of_in in E. set_solver. }
    exists s1. split; [exact Hrun1|].
    cbn [delete_root].
    split.
    { rewrite root_of_plug, Hroot1. destruct c; [reflexivity|exact Hroot..]. }
    split.
    { apply tree_rep_plug. split; [|exact Hc1].
      apply (tree_rep_reparent (levels s) _ (Some x)); [exact Hr|assumption| |].
      - intros z Hz Hzr. apply links_lookup. apply Hfr1; [exact Hzr|].
        apply Hctxp. set_solver.
      - intros n l' r' E Hl'. destruct (Hn1 n E) as (nv & Hnv & Hnv').
        apply links_Some in Hl' as (v' & Hv' & _ & <- & <-).
        rewrite Hnv in Hv'. injection Hv' as <-.
        unfold links. rewrite Hnv'. reflexivity. }
    split; [exact Hroot1'|].
    split; [exact Hsu1|].
    intros z Hz. apply Hfr1.
    - intros E. symmetry in E. apply root_of_in in E. set_solver.
    - apply Hctxp. set_solver. }
  destruct r as [|rl y rr].
  { (* a left child only *)
    simpl in Hxleft, Hxright. rewrite Hxleft, Hxright.
    destruct (replace_level_spec b None c x (Some ly) s xv Hx Hxpar (fun _ => eq_refl) Hc)
      as (s1 & Hrun1 & Hc1 & Hroot1 & Hroot1' & Hsu1 & Hfr1 & Hn1); [set_solver|exact Hids| |].
    { intros n E. injection E as <-.
      split; [exact (tree_rep_root_stored _ _ (Node ll ly lr) _ Hl eq_refl)|]. set_solver. }
    exists s1. split; [exact Hrun1|].
    cbn [delete_root].
    split.
    { rewrite root_of_plug, Hroot1. destruct c; [reflexivity|exact Hroot..]. }
    split.
    { apply tree_rep_plug. split; [|exact Hc1].
      apply (tree_rep_reparent (levels s) _ (Some x)); [exact Hl|assumption| |].
      - intros z Hz Hzr. apply links_lookup. apply Hfr1; [exact Hzr|].
        apply Hctxp. set_solver.
      - intros n l' r' E Hl'. destruct (Hn1 n E) as (nv & Hnv & Hnv').
        apply links_Some in Hl' as (v' & Hv' & _ & <- & <-).
        rewrite Hnv in Hv'. injection Hv' as <-.
        unfold links. rewrite Hnv'. reflexivity. }
    split; [exact Hroot1'|].
    split; [exact Hsu1|].
    intros z Hz. apply Hfr1.
    - intros E. injection E as ->. set_solver.
    - apply Hctxp. set_solver. }
  (* two children *)
  simpl in Hxleft, Hxright. rewrite Hxleft, Hxright.
  assert (Hf1 : (length (inorder rl) < fuel)%nat).
  { simpl in Hfuel. rewrite ?length_app in Hfuel. simpl in Hfuel.
    rewrite ?length_app in Hfuel. simpl in Hfuel. lia. }
  rewrite (bind_ok _ _ _ _ _ (next_level_right b s x xv y rl rr (Some x) fuel Hx Hxright Hr Hf1)).
  cbn [deref]. rewrite bind_ret.
  pose proof (min_split_plug rl y rr Top) as Hsplit.
  pose proof (min_split_before rl y rr Top) as Hbefore.
  cbn [delete_root].
  destruct (min_split rl y rr Top) as [cn nr] eqn:Hms.
  cbn [fst snd plug ctx_before] in Hsplit, Hbefore |- *.
  set (n := tree_min rl y) in *.
  assert (Hr2 := Hr). rewrite <- Hsplit in Hr2.
  apply (tree_rep_plug _ (Some x)) in Hr2 as [(Hn & _ & Hnr) Hcn].
  apply links_Some in Hn as (nv & Hn & Hnpar & Hnleft & Hnright).
  assert (Hinr : inorder (Node rl y rr) = n :: inorder nr ++ ctx_after cn).
  { rewrite <- Hsplit, inorder_plug, Hbefore. reflexivity. }
  assert (Hinr' : inorder (plug cn nr) = inorder nr ++ ctx_after cn).
  { rewrite inorder_plug, Hbefore. reflexivity. }
  rewrite (bind_ok _ _ _ _ _ (load_level_ok _ _ _ Hn)).
  assert (Hndr : NoDup (n :: inorder nr ++ ctx_after cn)) by (rewrite <- Hinr; assumption).
  assert (Hxr : x ∉ n :: inorder nr ++ ctx_after cn) by (rewrite <- Hinr; assumption).
  assert (Hbig : NoDup (ctx_before c ++ inorder (Node ll ly lr) ++
                        x :: n :: inorder (plug cn nr) ++ ctx_after c)).
  { unfold id in Hnd'. rewrite Hinr'. rewrite Hinr in Hnd'.
    rewrite <- !app_assoc in Hnd'. simpl in Hnd'. rewrite <- !app_assoc in Hnd'.
    simpl. rewrite <- !app_assoc. simpl. exact Hnd'. }
  destruct rl as [|rll ry rlr].
  { (* the successor is the right child *)
    simpl in Hms. injection Hms as <- <-. simpl in Hnpar.
    subst n. simpl in *.
    destruct (decide (Level.parent nv = Some x)) as [_|E]; [|congruence].
    rewrite bind_ret.
    destruct (remove_level_finish b s c (Node ll ly lr) ly x y rr xv nv
                eq_refl Hx Hxpar Hxleft Hc Hl Hn Hnright Hnr Hbig Hroot)
      as (s' & Hrun & Hroot' & Hrep' & Hother & Hsu & Hfr).
    exists s'. split; [exact Hrun|].
    split; [rewrite root_of_plug; exact Hroot'|].
    split; [exact Hrep'|].
    split; [exact Hother|].
    split; [exact Hsu|].
    intros z Hz. apply Hfr. set_solver. }
  (* the successor is deeper in the right subtree *)
  clearbody n.
  rewrite Hinr in HctxR, HLR.
  pose proof Hndr as Hndr0. apply NoDup_cons in Hndr0 as [Hn_out Hnd_rest].
  apply NoDup_app in Hnd_rest as (Hnd_nr & Hnr_after & Hnd_after).
  destruct (min_split_root (Node rll ry rlr) y rr Top ltac:(discriminate) eq_refl)
    as [Hcnroot Hcntop].
  rewrite Hms in Hcnroot, Hcntop. cbn [fst] in Hcnroot, Hcntop.
  assert (Hp : exists p, ctx_parent (Some x) cn = Some p /\ p ∈ ctx_after cn).
  { destruct cn as [|cn' p r0|cn' l0 p]; [congruence| |].
    - exists p. split; [reflexivity|]. simpl. apply elem_of_cons. left. reflexivity.
    - exfalso. simpl in Hbefore. destruct (ctx_before cn'), (inorder l0); discriminate. }
  destruct Hp as (p & Hpeq & Hpin).
  assert (Hidn : NoDup (ctx_before cn ++ ctx_after cn)).
  { rewrite Hbefore. simpl. exact Hnd_after. }
  destruct (decide (Level.parent nv = Some x)) as [E|_].
  { exfalso. rewrite Hnpar, Hpeq in E. injection E as E. apply Hxr. rewrite <- E.
    apply elem_of_cons. right. apply elem_of_app. right. exact Hpin. }
  assert (Hnfresh : n ∉ ctx_before cn ++ ctx_after cn).
  { rewrite Hbefore. simpl. intros Hin. apply Hn_out. apply elem_of_app. right. exact Hin. }
  destruct (replace_level_spec b (Some x) cn n (Level.right nv) s nv Hn Hnpar
              ltac:(congruence) Hcn Hnfresh Hidn)
    as (s1 & Hrun1 & Hc1 & Hroot1 & Hroot1' & Hsu1 & Hfr1 & Hn1).
  { intros m E. rewrite Hnright in E.
    split; [exact (tree_rep_root_stored _ _ _ _ Hnr E)|].
    apply root_of_in in E. rewrite Hbefore. simpl. exact (Hnr_after m E). }
  rewrite Hpeq in Hfr1, Hn1.
  assert (Hpnr : p ∉ inorder nr).
  { intros Hin. exact (Hnr_after p Hin Hpin). }
  assert (Hnp : n <> p).
  { intros E. apply Hn_out. rewrite E. apply elem_of_app. right. exact Hpin. }
  assert (Hxp : x <> p).
  { intros E. apply Hxr. rewrite E. apply elem_of_cons. right. apply elem_of_app. right.
    exact Hpin. }
  assert (Hnnr : n ∉ inorder nr).
  { intros Hin. apply Hn_out. apply elem_of_app. left. exact Hin. }
  assert (Hnr1 : tree_rep (levels s1) (Some p) nr).
  { apply (tree_rep_reparent (levels s) _ (Some n)); [exact Hnr| | |].
    - exact Hnd_nr.
    - intros z Hz Hzr. apply links_lookup. apply Hfr1; [congruence|].
      intros E. injection E as ->. contradiction.
    - intros m l' r' E Hl'. rewrite <- Hnright in E. destruct (Hn1 m E) as (mv & Hmv & Hmv').
      apply links_Some in Hl' as (v' & Hv' & _ & <- & <-).
      rewrite Hmv in Hv'. injection Hv' as <-.
      unfold links. rewrite Hmv'. reflexivity. }
  assert (Hr1 : tree_rep (levels s1) (Some x) (plug cn nr)).
  { apply tree_rep_plug. rewrite Hpeq. split; [exact Hnr1|].
    rewrite <- Hnright. exact Hc1. }
  assert (Hrooty : root_of (plug cn nr) = Some y).
  { rewrite root_of_plug. rewrite (ctx_root_indep cn _ None Hcntop). exact Hcnroot. }
  destruct (tree_rep_root_stored _ _ _ _ Hr1 Hrooty) as [yv1 Hy1].
  assert (Hyin : y ∈ inorder nr ++ ctx_after cn).
  { rewrite <- Hinr'. apply root_of_in. exact Hrooty. }
  assert (Hyn : y <> n).
  { intros E. apply Hn_out. rewrite <- E. exact Hyin. }
  assert (Hxy : x <> y).
  { intros E. apply Hxr. rewrite E. apply elem_of_cons. right. exact Hyin. }
  assert (Hxn : x <> n).
  { intros E. apply Hxr. rewrite E. apply elem_of_cons. left. reflexivity. }
  assert (Hx1 : levels s1 !! x = Some xv).
  { rewrite Hfr1; [exact Hx| |congruence].
    rewrite Hnright. intros E. symmetry in E. apply root_of_in in E.
    apply Hxr. apply elem_of_cons. right. apply elem_of_app. left. exact E. }
  assert (Hn1' : levels s1 !! n = Some nv).
  { rewrite Hfr1; [exact Hn| |congruence].
    rewrite Hnright. intros E. symmetry in E. apply root_of_in in E. contradiction. }
  rewrite bind_assoc, (bind_ok _ _ _ _ _ Hrun1).
  rewrite bind_assoc, (bind_ok _ _ _ _ _ (load_level_ok _ _ _ Hx1)).
  rewrite bind_assoc, (bind_ok _ _ _ _ _ (modify_level_ok _ _ _ _ Hn1')).
  set (nv2 := Level.set_right (Level.right xv) nv).
  set (s2 := set_levels (<[n := nv2]> (levels s1)) s1).
  assert (Hn2 : levels s2 !! n = Some nv2) by (simpl; apply lookup_insert_eq).
  assert (Hy2 : levels s2 !! y = Some yv1).
  { simpl. rewrite lookup_insert_ne by congruence. exact Hy1. }
  rewrite bind_assoc, (bind_ok _ _ _ _ _ (load_level_ok _ _ _ Hn2)).
  replace (Level.right nv2) with (Some y) by (subst nv2; simpl; congruence).
  cbn [deref]. rewrite bind_assoc, bind_ret.
  rewrite (bind_ok _ _ _ _ _ (modify_level_ok _ _ _ _ Hy2)).
  set (s3 := set_levels (<[y := Level.set_parent (Some n) yv1]> (levels s2)) s2).
  assert (Hfr3 : forall z, z <> y -> z <> n -> levels s3 !! z = levels s1 !! z).
  { intros z Hzy Hzn. simpl.
    rewrite lookup_insert_ne by congruence. rewrite lookup_insert_ne by congruence.
    reflexivity. }
  assert (Hout : forall z, z ∉ n :: inorder nr ++ ctx_after cn ->
                           levels s3 !! z = levels s !! z).
  { intros z Hz. rewrite Hfr3.
    - apply Hfr1.
      + rewrite Hnright. intros E. symmetry in E. apply root_of_in in E.
        apply Hz. apply elem_of_cons. right. apply elem_of_app. left. exact E.
      + intros E. injection E as E. apply Hz. rewrite E.
        apply elem_of_cons. right. apply elem_of_app. right. exact Hpin.
    - intros E. apply Hz. rewrite E. apply elem_of_cons. right. exact Hyin.
    - intros E. apply Hz. rewrite E. apply elem_of_cons. left. reflexivity. }
  assert (Hx3 : levels s3 !! x = Some xv) by (rewrite Hout; [exact Hx|exact Hxr]).
  assert (Hn3 : levels s3 !! n = Some nv2).
  { simpl. rewrite lookup_insert_ne by congruence. apply lookup_insert_eq. }
  assert (Hroot3 : BookSide.root (side b s3) = ctx_root c (Some x)).
  { transitivity (BookSide.root (side b s1)); [destruct b; reflexivity|].
    rewrite Hroot1. destruct cn; [congruence|exact Hroot..]. }
  assert (Hndr' : NoDup (inorder (plug cn nr))).
  { rewrite Hinr'. apply NoDup_cons in Hndr as [_ Hndr]. exact Hndr. }
  destruct (remove_level_finish b s3 c (Node ll ly lr) ly x n (plug cn nr) xv nv2
              eq_refl Hx3 Hxpar Hxleft)
    as (s' & Hrun & Hroot' & Hrep' & Hother & Hsu & Hfr); [| | | | |exact Hbig|exact Hroot3|].
  { apply (ctx_rep_frame (levels s)); [|exact Hc].
    intros z Hz. apply links_lookup. apply Hout. exact (HctxR z Hz). }
  { apply (tree_rep_frame (levels s)); [|exact Hl].
    intros z Hz. apply links_lookup. apply Hout. exact (HLR z Hz). }
  { exact Hn3. }
  { subst nv2. simpl. rewrite Hxright, Hrooty. reflexivity. }
  { apply (tree_rep_reparent (levels s1) _ (Some x)); [exact Hr1|exact Hndr'| |].
    - intros z Hz Hzr. apply links_lookup. apply Hfr3; [congruence|].
      intros E. rewrite Hinr', E in Hz. contradiction.
    - intros m l' r' E Hl'. rewrite Hrooty in E. injection E as <-.
      apply links_Some in Hl' as (v' & Hv' & _ & <- & <-).
      rewrite Hy1 in Hv'. injection Hv' as <-.
      unfold links. simpl. rewrite lookup_insert_eq. reflexivity. }
  exists s'. split; [exact Hrun|].
  split; [rewrite root_of_plug; exact Hroot'|].
  split; [exact Hrep'|].
  split.
  { rewrite Hother. transitivity (BookSide.root (side (negb b) s1));
      [destruct b; reflexivity|exact Hroot1']. }
  split.
  { apply (tree_surgery_trans _ s1); [exact Hsu1|].
    apply (tree_surgery_trans _ s2).
    { apply (tree_surgery_store s1 n nv nv2 Hn1'). reflexivity. }
    apply (tree_surgery_trans _ s3); [|exact Hsu].
    apply (tree_surgery_store s2 y yv1 _ Hy2). reflexivity. }
  intros z Hz. rewrite Hinr in Hz. rewrite Hfr.
  - apply Hout. intros Hin. apply Hz.
    apply elem_of_app. right. apply elem_of_app. right. apply elem_of_app. left. exact Hin.
  - intros Hin. apply Hz.
    apply elem_of_app in Hin as [Hin|Hin]; [apply elem_of_app; left; exact Hin|].
    apply elem_of_app in Hin as [Hin|Hin];
      [apply elem_of_app; right; apply elem_of_app; left; exact Hin|].
    apply elem_of_cons in Hin as [Hin|Hin].
    + apply elem_of_app. right. apply elem_of_app. right. apply elem_of_app. left.
      rewrite Hin. apply elem_of_cons. left. reflexivity.
    + apply elem_of_app. right. apply elem_of_app. right. apply elem_of_app. right.
      exact Hin.
Qed.

(** ** Reading a run backwards *)

Lemma bind_inv {A B} (m : M A) (k : A -> M B) s r :
  bind m k s = Ok r -> exists a s1, m s = Ok (a, s1) /\ k a s1 = Ok r.
Proof.
  unfold bind. destruct (m s) as [[a s1]| |]; [|discriminate..]. eauto.
Qed.

Lemma ret_inv {A} (a b : A) s s' : ret a s = Ok (b, s') -> b = a /\ s' = s.
Proof. unfold ret. intros E. injection E as <- <-. auto. Qed.

Lemma deref_inv {A} (p : option A) a s s' :
  deref p s = Ok (a, s') -> p = Some a /\ s' = s.
Proof. destruct p; simpl; [|discriminate]. intros E. injection E as <- <-. auto. Qed.

Lemma load_order_inv o s v s' :
  load_order o s = Ok (v, s') -> s' = s /\ orders s !! o = Some v.
Proof.
  unfold load_order. destruct (orders s !! o); [|discriminate].
  intros E. injection E as <- <-. auto.
Qed.

Lemma load_level_inv l s v s' :
  load_level l s = Ok (v, s') -> s' = s /\ levels s !! l = Some v.
Proof.
  unfold load_level. destruct (levels s !! l); [|discriminate].
  intros E. injection E as <- <-. auto.
Qed.

Lemma load_side_inv b s v s' :
  load_side b s = Ok (v, s') -> s' = s /\ v = side b s.
Proof. unfold load_side. intros E. injection E as <- <-. auto. Qed.

Lemma store_order_inv o v s u s' :
  store_order o v s = Ok (u, s') -> s' = set_orders (<[o := v]> (orders s)) s.
Proof. unfold store_order. intros E. injection E as _ <-. reflexivity. Qed.

Lemma store_level_inv l v s u s' :
  store_level l v s = Ok (u, s') -> s' = set_levels (<[l := v]> (levels s)) s.
Proof. unfold store_level. intros E. injection E as _ <-. reflexivity. Qed.

Lemma store_side_inv b v s u s' :
  store_side b v s = Ok (u, s') -> s' = (if b then set_bid v s else set_ask v s).
Proof. unfold store_side. intros E. injection E as _ <-. destruct b; reflexivity. Qed.

Lemma modify_order_inv o f s u s' :
  modify_order o f s = Ok (u, s') ->
  exists v, orders s !! o = Some v /\ s' = set_orders (<[o := f v]> (orders s)) s.
Proof.
  unfold modify_order. intros H. apply bind_inv in H as (v & s1 & H1 & H2).
  apply load_order_inv in H1 as [-> H1]. apply store_order_inv in H2. eauto.
Qed.

Lemma modify_level_inv l f s u s' :
  modify_level l f s = Ok (u, s') ->
  exists v, levels s !! l = Some v /\ s' = set_levels (<[l := f v]> (levels s)) s.
Proof.
  unfold modify_level. intros H. apply bind_inv in H as (v & s1 & H1 & H2).
  apply load_level_inv in H1 as [-> H1]. apply store_level_inv in H2. eauto.
Qed.

Lemma modify_side_inv b f s u s' :
  modify_side b f s = Ok (u, s') ->
  s' = (if b then set_bid (f (side b s)) s else set_ask (f (side b s)) s).
Proof.
  unfold modify_side. intros H. apply bind_inv in H as (v & s1 & H1 & H2).
  apply load_side_inv in H1 as [-> ->]. apply store_side_inv in H2. exact H2.
Qed.

Lemma print_inv e s u s' :
  print e s = Ok (u, s') -> s' = set_stdout (stdout s ++ [e]) s.
Proof. unfold print. intros E. injection E as _ <-. reflexivity. Qed.

Lemma py_lt_inv a b s r s' :
  py_lt a b s = Ok (r, s') ->
  s' = s /\ exists x y, a = Some x /\ b = Some y /\ r = Qlt_bool x y.
Proof.
  destruct a as [x|], b as [y|]; simpl; try discriminate.
  intros E. apply ret_inv in E as [-> ->]. split; [reflexivity|]. eauto.
Qed.

(** [run_inv H] takes a run [H : m s = Ok r] apart, statement by statement,
    as far as the statements are primitive ones. *)
Ltac run_inv1 H :=
  lazymatch type of H with
  | bind _ _ _ = Ok _ =>
      let a := fresh "a" in let s1 := fresh "s" in
      let H1 := fresh "Hrun" in
      apply bind_inv in H as (a & s1 & H1 & H);
      try run_inv1 H1; try run_inv1 H
  | ret _ _ = Ok _ =>
      let E1 := fresh "E" in let E2 := fresh "E" in
      apply ret_inv in H as [E1 E2]; subst
  | deref _ _ = Ok _ =>
      let E1 := fresh "E" in let E2 := fresh "E" in
      apply deref_inv in H as [E1 E2]; subst
  | raise _ _ = Ok _ => discriminate H
  | timeout _ = Ok _ => discriminate H
  | load_order _ _ = Ok _ =>
      let E := fresh "E" in apply load_order_inv in H as [E H]; subst
  | load_level _ _ = Ok _ =>
      let E := fresh "E" in apply load_level_inv in H as [E H]; subst
  | load_side _ _ = Ok _ =>
      let E := fresh "E" in let E' := fresh "E" in
      apply load_side_inv in H as [E E']; subst
  | store_order _ _ _ = Ok _ => apply store_order_inv in H; subst
  | store_level _ _ _ = Ok _ => apply store_level_inv in H; subst
  | store_side _ _ _ = Ok _ => apply store_side_inv in H; subst
  | modify_order _ _ _ = Ok _ =>
      let v := fresh "v" in let E := fresh "E" in
      apply modify_order_inv in H as (v & H & E); subst
  | modify_level _ _ _ = Ok _ =>
      let v := fresh "v" in let E := fresh "E" in
      apply modify_level_inv in H as (v & H & E); subst
  | modify_side _ _ _ = Ok _ => apply modify_side_inv in H; subst
  | print _ _ = Ok _ => apply print_inv in H; subst
  | print_match _ _ _ = Ok _ => unfold print_match in H; apply print_inv in H; subst
  | (if ?b then _ else _) _ = Ok _ =>
      let E := fresh "Hif" in destruct b eqn:E; try run_inv1 H
  | (match ?x with Some _ => _ | None => _ end) _ = Ok _ =>
      let E := fresh "Hm" in destruct x eqn:E; try run_inv1 H
  | _ => idtac
  end.

Ltac run_inv H := run_inv1 H.

(** ** Steady operations *)

Lemma steady_refl s : steady s s.
Proof. repeat split; eauto. Qed.

Lemma steady_trans s1 s2 s3 : steady s1 s2 -> steady s2 s3 -> steady s1 s3.
Proof.
  intros (A1 & A2 & A3 & A4 & A5) (B1 & B2 & B3 & B4 & B5).
  do 3 (split; [congruence|]).
  split; [intros z; rewrite B4; apply A4|].
  intros o v Hv. destruct (A5 o v Hv) as (v' & Hv' & E).
  destruct (B5 o v' Hv') as (v'' & Hv'' & E'). exists v''. split; [exact Hv''|congruence].
Qed.

Lemma steady_store_order s o v v' :
  orders s !! o = Some v -> Order.is_buy v' = Order.is_buy v ->
  steady s (set_orders (<[o := v']> (orders s)) s).
Proof.
  intros Ho Hb. do 4 (split; [reflexivity|]).
  intros o' w Hw. simpl. destruct (decide (o = o')) as [<-|Hne].
  - exists v'. rewrite lookup_insert_eq. split; [reflexivity|congruence].
  - exists w. rewrite lookup_insert_ne by exact Hne. auto.
Qed.

Lemma steady_store_level s l v v' :
  levels s !! l = Some v -> tree_view v' = tree_view v ->
  steady s (set_levels (<[l := v']> (levels s)) s).
Proof.
  intros Hl Hv. do 3 (split; [reflexivity|]).
  split; [|intros o w Hw; eauto].
  intros z. simpl. destruct (decide (l = z)) as [<-|Hne].
  - rewrite lookup_insert_eq, Hl. simpl. congruence.
  - rewrite lookup_insert_ne by exact Hne. reflexivity.
Qed.

(** [steady_chain] proves [steady s E] for a state [E] written as a chain
    of stores over [s], each store finding its premises among the
    hypotheses. *)
Ltac steady_chain :=
  lazymatch goal with
  | |- steady ?s ?s => apply steady_refl
  | |- steady ?s (set_orders (<[?o := ?v']> (orders ?e)) ?e) =>
      apply (steady_trans s e); [steady_chain|];
      eapply steady_store_order; [eassumption|reflexivity]
  | |- steady ?s (set_levels (<[?l := ?v']> (levels ?e)) ?e) =>
      apply (steady_trans s e); [steady_chain|];
      eapply steady_store_level; [eassumption|reflexivity]
  | _ => eassumption
  end.

Lemma enqueue_order_steady self limit_order s u s' :
  enqueue_order self limit_order s = Ok (u, s') -> steady s s'.
Proof.
  intros H. unfold enqueue_order in H. run_inv H; steady_chain.
Qed.

Lemma dequeue_order_steady self s o s' :
  dequeue_order self s = Ok (o, s') -> steady s s'.
Proof.
  intros H. unfold dequeue_order in H. run_inv H; steady_chain.
Qed.

(** ** Search trees: what the walks return *)

Lemma price_lt_irrefl h x : ~ price_lt h x x.
Proof.
  intros (vx & vy & p & q & Hx & Hy & Hp & Hq & Hlt).
  rewrite Hx in Hy. injection Hy as <-. rewrite Hp in Hq. injection Hq as <-.
  exact (Qlt_irrefl _ Hlt).
Qed.

Lemma sorted_NoDup h xs : StronglySorted (price_lt h) xs -> NoDup xs.
Proof.
  induction 1 as [|x xs Hs IH Hall]; constructor; [|exact IH].
  intros Hin. rewrite Forall_forall in Hall.
  exact (price_lt_irrefl h x (Hall x Hin)).
Qed.

Lemma side_tree_NoDup s b t : side_tree s b t -> NoDup (inorder t).
Proof. intros (_ & _ & _ & Hs). exact (sorted_NoDup _ _ Hs). Qed.

Lemma ctx_depth_le c : (ctx_depth c <= length (ctx_before c ++ ctx_after c))%nat.
Proof.
  induction c as [|c IH p r|c IH l p]; simpl; [lia| |];
    rewrite ?length_app in *; simpl; rewrite ?length_app; simpl; lia.
Qed.

(** The successor of [x] in a tree laid out around it. *)
Lemma next_level_spec b s c l x r fuel :
  tree_rep (levels s) None (plug c (Node l x r)) ->
  NoDup (inorder (plug c (Node l x r))) ->
  (length (inorder (plug c (Node l x r))) < fuel)%nat ->
  next_level fuel b (Some x) s = Ok (head (inorder r ++ ctx_after c), s).
Proof.
  intros Hrep Hnd Hfuel.
  pose proof Hrep as Hrep'. apply tree_rep_plug in Hrep' as [Hx Hc].
  rewrite inorder_plug in Hfuel. simpl in Hfuel.
  repeat (rewrite length_app in Hfuel; simpl in Hfuel).
  destruct r as [|rl y rr].
  - simpl in Hx. destruct Hx as (Hlx & _ & _).
    apply links_Some in Hlx as (xv & Hxv & Hpar & _ & Hright).
    unfold next_level.
    rewrite (bind_ok _ _ _ _ _ (load_level_ok _ _ _ Hxv)), Hright, Hpar.
    simpl.
    apply (next_level_climb_spec None c (Node l x Leaf) x fuel s);
      [reflexivity|reflexivity|exact Hnd|exact Hc|].
    pose proof (ctx_depth_le c) as Hd. rewrite length_app in Hd. lia.
  - simpl in Hx. destruct Hx as (Hlx & _ & Hr).
    apply links_Some in Hlx as (xv & Hxv & _ & _ & Hright).
    destruct (inorder_head rl y (inorder rr ++ ctx_after c)) as (tl & Htl).
    replace (inorder (Node rl y rr) ++ ctx_after c)
      with (inorder rl ++ y :: inorder rr ++ ctx_after c)
      by (simpl; rewrite <- app_assoc; reflexivity).
    rewrite Htl. simpl.
    apply (next_level_right b s x xv y rl rr (Some x) fuel Hxv Hright Hr).
    simpl in Hfuel. rewrite length_app in Hfuel. lia.
Qed.

Lemma lookup_after_middle {A} (pre post : list A) x :
  (pre ++ x :: post) !! S (length pre) = head post.
Proof.
  rewrite lookup_app_r by lia.
  replace (S (length pre) - length pre)%nat with 1%nat by lia.
  destruct post; reflexivity.
Qed.

Lemma min_level_first fuel b s t :
  BookSide.root (side b s) = root_of t ->
  tree_rep (levels s) None t ->
  (length (inorder t) < fuel)%nat ->
  min_level fuel b None s = Ok (head (inorder t), s).
Proof.
  intros Hroot Hrep Hfuel.
  unfold min_level, load_side. cbn [bind]. rewrite Hroot.
  destruct t as [|l x r]; [reflexivity|]. cbn [root_of].
  simpl in Hfuel. rewrite length_app in Hfuel.
  rewrite (bind_ok _ _ _ _ _ (min_level_walk_spec l x r None fuel s Hrep ltac:(lia))).
  destruct (inorder_head l x (inorder r)) as (tl & Htl).
  simpl. rewrite Htl. reflexivity.
Qed.

(** X1.  [min_level()] answers the first level of the side in price order,
    which is priced strictly below every other level of the side; on a side
    without levels it answers [None]. *)
Theorem min_level_lowest fuel b s t :
  side_tree s b t ->
  (length (inorder t) < fuel)%nat ->
  min_level fuel b None s = Ok (head (inorder t), s) /\
  forall m y, head (inorder t) = Some m -> y ∈ inorder t -> y <> m ->
              price_lt (levels s) m y.
Proof.
  intros (Hroot & Hrep & _ & Hsorted) Hfuel.
  split; [exact (min_level_first fuel b s t Hroot Hrep Hfuel)|].
  intros m y Hm Hy Hne.
  destruct (inorder t) as [|m' rest]; [discriminate|].
  injection Hm as ->.
  apply StronglySorted_inv in Hsorted as [_ Hall].
  rewrite Forall_forall in Hall. apply Hall. set_solver.
Qed.

Lemma sorted_last h pre x :
  StronglySorted (price_lt h) (pre ++ [x]) -> forall y, y ∈ pre -> price_lt h y x.
Proof.
  induction pre as [|a pre IH]; intros Hs y Hy; [set_solver|].
  simpl in Hs. apply StronglySorted_inv in Hs as [Hs Hall].
  apply elem_of_cons in Hy as [->|Hy].
  - rewrite Forall_forall in Hall. apply Hall. set_solver.
  - apply IH; assumption.
Qed.

(** X2.  [max_level()] answers the last level of the side in price order,
    which is priced strictly above every other level of the side; on a side
    without levels it answers [None]. *)
Theorem max_level_highest fuel b s t :
  side_tree s b t ->
  (length (inorder t) < fuel)%nat ->
  max_level fuel b None s = Ok (last (inorder t), s) /\
  forall m y, last (inorder t) = Some m -> y ∈ inorder t -> y <> m ->
              price_lt (levels s) y m.
Proof.
  intros (Hroot & Hrep & _ & Hsorted) Hfuel. split.
  - unfold max_level, load_side. cbn [bind]. rewrite Hroot.
    destruct t as [|l x r]; [reflexivity|]. cbn [root_of].
    simpl in Hfuel. rewrite length_app in Hfuel. simpl in Hfuel.
    rewrite (bind_ok _ _ _ _ _ (max_level_walk_spec r x l None fuel s Hrep ltac:(lia))).
    destruct (inorder_last r x (inorder l)) as (front & Hfront).
    simpl. rewrite Hfront, last_snoc. reflexivity.
  - intros m y Hm Hy Hne.
    destruct (inorder t) as [|a rest _] using rev_ind; [discriminate|].
    rewrite last_snoc in Hm. injection Hm as ->.
    apply (sorted_last _ _ _ Hsorted). set_solver.
Qed.

Lemma next_level_lookup fuel b s t i x :
  side_tree s b t ->
  inorder t !! i = Some x ->
  (length (inorder t) < fuel)%nat ->
  next_level fuel b (Some x) s = Ok (inorder t !! S i, s).
Proof.
  intros Ht Hi Hfuel.
  pose proof (side_tree_NoDup _ _ _ Ht) as Hnd.
  destruct Ht as (_ & Hrep & _ & _).
  destruct (in_plug t x) as (c & l & r & ->);
    [apply list_elem_of_lookup; exists i; exact Hi|].
  rewrite (next_level_spec b s c l x r fuel Hrep Hnd Hfuel).
  assert (E : inorder (plug c (Node l x r))
              = (ctx_before c ++ inorder l) ++ x :: (inorder r ++ ctx_after c)).
  { rewrite inorder_plug. simpl. rewrite <- !app_assoc. reflexivity. }
  rewrite E in Hi, Hnd |- *.
  assert (i = length (ctx_before c ++ inorder l)) as ->.
  { apply (NoDup_lookup _ _ _ x Hnd Hi). apply list_lookup_middle. reflexivity. }
  rewrite lookup_after_middle. reflexivity.
Qed.

Lemma visit_from_spec b s t fuel : forall n post pre,
  side_tree s b t ->
  inorder t = pre ++ post ->
  (length (inorder t) < fuel)%nat ->
  (length post < n)%nat ->
  visit_from fuel n b (head post) s = Ok (post, s).
Proof.
  induction n as [|n IH]; intros post pre Ht Hin Hfuel Hn; [lia|].
  destruct post as [|x post]; [reflexivity|].
  cbn [visit_from head].
  assert (Hx : inorder t !! length pre = Some x).
  { rewrite Hin. apply list_lookup_middle. reflexivity. }
  rewrite (bind_ok _ _ _ _ _ (next_level_lookup fuel b s t _ x Ht Hx Hfuel)).
  assert (Hnext : inorder t !! S (length pre) = head post).
  { rewrite Hin. apply lookup_after_middle. }
  rewrite Hnext.
  rewrite (bind_ok _ _ _ _ _ (IH post (pre ++ [x]) Ht
             ltac:(rewrite Hin, <- app_assoc; reflexivity) Hfuel
             ltac:(simpl in Hn; lia))).
  reflexivity.
Qed.

(** X3.  [next_level(level)] on a level of the side answers the level that
    follows it in price order, and [None] on the last one. *)
Theorem next_level_successor fuel b s t i x :
  side_tree s b t ->
  inorder t !! i = Some x ->
  (length (inorder t) < fuel)%nat ->
  next_level fuel b (Some x) s = Ok (inorder t !! S i, s).
Proof. apply next_level_lookup. Qed.

(** X4.  [min_level()] followed by [next_level] until it answers [None] visits
    every level of the side exactly once, in strictly increasing price order,
    and changes nothing. *)
Theorem visit_side_in_price_order fuel b s t :
  side_tree s b t ->
  (length (inorder t) < fuel)%nat ->
  visit_side fuel b s = Ok (inorder t, s) /\
  StronglySorted (price_lt (levels s)) (inorder t).
Proof.
  intros Ht Hfuel. split; [|apply Ht].
  unfold visit_side.
  rewrite (bind_ok _ _ _ _ _
             (min_level_first fuel b s t (proj1 Ht) (proj1 (proj2 Ht)) Hfuel)).
  apply (visit_from_spec b s t fuel fuel (inorder t) []); auto.
Qed.

(** ** Search trees: removing a level *)

Lemma middle_inj {A} (pre pre' post post' : list A) x :
  NoDup (pre ++ x :: post) ->
  pre ++ x :: post = pre' ++ x :: post' -> pre = pre' /\ post = post'.
Proof.
  intros Hnd E.
  assert (Hl : length pre = length pre').
  { apply (NoDup_lookup _ _ _ x Hnd).
    - apply list_lookup_middle. reflexivity.
    - rewrite E. apply list_lookup_middle. reflexivity. }
  apply app_inj_1 in E as [-> E]; [|exact Hl].
  injection E as ->. auto.
Qed.

Lemma sorted_remove_middle {A} (R : A -> A -> Prop) pre x post :
  StronglySorted R (pre ++ x :: post) -> StronglySorted R (pre ++ post).
Proof.
  induction pre as [|a pre IH]; simpl; intros Hs.
  - apply StronglySorted_inv in Hs as [Hs _]. exact Hs.
  - apply StronglySorted_inv in Hs as [Hs Hall]. constructor; [apply IH, Hs|].
    rewrite Forall_forall in Hall |- *. intros y Hy. apply Hall. set_solver.
Qed.

Lemma tree_surgery_level s s' z v :
  tree_surgery s s' -> levels s !! z = Some v ->
  exists v', levels s' !! z = Some v' /\ level_data v' = level_data v.
Proof.
  intros (_ & _ & _ & _ & H) Hv. specialize (H z). rewrite Hv in H.
  destruct (levels s' !! z) as [v'|]; [|discriminate].
  exists v'. split; [reflexivity|]. simpl in H. congruence.
Qed.

Lemma tree_surgery_level_of s s' b z :
  tree_surgery s s' -> level_of (levels s) b z -> level_of (levels s') b z.
Proof.
  intros Hs (v & p & Hv & Hp & Hb).
  destruct (tree_surgery_level s s' z v Hs Hv) as (v' & Hv' & E).
  exists v', p. unfold level_data in E. split; [exact Hv'|]. split; congruence.
Qed.

Lemma tree_surgery_price_lt s s' x y :
  tree_surgery s s' -> price_lt (levels s) x y -> price_lt (levels s') x y.
Proof.
  intros Hs (vx & vy & p & q & Hx & Hy & Hp & Hq & Hlt).
  destruct (tree_surgery_level s s' x vx Hs Hx) as (vx' & Hx' & Ex).
  destruct (tree_surgery_level s s' y vy Hs Hy) as (vy' & Hy' & Ey).
  exists vx', vy', p, q. unfold level_data in Ex, Ey.
  repeat split; try assumption; congruence.
Qed.

Lemma sorted_mono {A} (R R' : A -> A -> Prop) xs :
  (forall x y, R x y -> R' x y) -> StronglySorted R xs -> StronglySorted R' xs.
Proof.
  intros HR. induction 1 as [|x xs Hs IH Hall]; constructor; [exact IH|].
  eapply Forall_impl; [exact Hall|]. intros y. apply HR.
Qed.

Lemma remove_level_side_tree fuel b s t pre x post :
  side_tree s b t ->
  inorder t = pre ++ x :: post ->
  (length (inorder t) < fuel)%nat ->
  exists s' t',
    remove_level fuel b x s = Ok (tt, s') /\
    side_tree s' b t' /\
    inorder t' = pre ++ post /\
    tree_surgery s s' /\
    levels s' !! x = levels s !! x /\
    (forall t2, side_tree s (negb b) t2 -> side_tree s' (negb b) t2).
Proof.
  intros Ht Hin Hfuel.
  pose proof (side_tree_NoDup _ _ _ Ht) as Hnd.
  destruct Ht as (Hroot & Hrep & Hof & Hsorted).
  destruct (in_plug t x) as (c & l & r & ->); [rewrite Hin; set_solver|].
  assert (E : inorder (plug c (Node l x r))
              = (ctx_before c ++ inorder l) ++ x :: (inorder r ++ ctx_after c)).
  { rewrite inorder_plug. simpl. rewrite <- !app_assoc. reflexivity. }
  assert (Hpp : pre = ctx_before c ++ inorder l /\ post = inorder r ++ ctx_after c).
  { apply (middle_inj _ _ _ _ x); [rewrite <- Hin; exact Hnd|].
    rewrite <- Hin. exact E. }
  destruct Hpp as [-> ->].
  destruct (remove_level_spec b s c l x r fuel Hroot Hrep Hnd Hfuel)
    as (s' & Hrun & Hroot' & Hrep' & Hother & Hsurg & Hframe).
  assert (E' : inorder (plug c (delete_root l r))
               = (ctx_before c ++ inorder l) ++ inorder r ++ ctx_after c).
  { rewrite inorder_plug, inorder_delete_root, <- !app_assoc. reflexivity. }
  assert (Hx_out : x ∉ ctx_before c ++ inorder l ++ inorder r ++ ctx_after c).
  { rewrite Hin in Hnd. rewrite app_assoc.
    apply NoDup_app in Hnd as (_ & Hd & Hnd). apply NoDup_cons in Hnd as [Hx _].
    intros Hx'. apply elem_of_app in Hx' as [Hx'|Hx']; [|exact (Hx Hx')].
    apply (Hd x Hx'). left. }
  exists s', (plug c (delete_root l r)).
  split; [exact Hrun|]. split; [|split; [exact E'|split; [exact Hsurg|split]]].
  - split; [exact Hroot'|]. split; [exact Hrep'|]. rewrite E'. split.
    + rewrite Hin in Hof. rewrite Forall_forall in Hof |- *.
      intros y Hy. apply (tree_surgery_level_of s s' b y Hsurg). apply Hof.
      set_solver.
    + apply (sorted_mono (price_lt (levels s))).
      * intros a a'. apply tree_surgery_price_lt, Hsurg.
      * rewrite Hin in Hsorted. exact (sorted_remove_middle _ _ _ _ Hsorted).
  - apply Hframe, Hx_out.
  - intros t2 (Hroot2 & Hrep2 & Hof2 & Hsorted2).
    split; [rewrite Hother; exact Hroot2|].
    split; [|split].
    + apply (tree_rep_frame (levels s)); [|exact Hrep2].
      intros z Hz. apply links_lookup, Hframe.
      rewrite Forall_forall in Hof, Hof2.
      destruct (Hof2 z Hz) as (v & _ & Hv & _ & Hb).
      intros Hz'.
      destruct (Hof z) as (v' & _ & Hv' & _ & Hb').
      { rewrite E. set_solver. }
      rewrite Hv in Hv'. injection Hv' as <-. rewrite Hb in Hb'.
      destruct b; discriminate.
    + rewrite Forall_forall in Hof2 |- *. intros y Hy.
      apply (tree_surgery_level_of s s' _ y Hsurg), Hof2, Hy.
    + apply (sorted_mono (price_lt (levels s))); [|exact Hsorted2].
      intros a a'. apply tree_surgery_price_lt, Hsurg.
Qed.

(** X5.  [remove_level(level)] on a level of the side returns and leaves the
    side a search tree over the same levels without that one, in the same
    price order; it only rewires tree links: the removed level's own record
    (its links included), every queue, quantity, price and the output are as
    before, and the other side's tree is untouched. *)
Theorem remove_level_deletes fuel b s t pre x post :
  side_tree s b t ->
  inorder t = pre ++ x :: post ->
  (length (inorder t) < fuel)%nat ->
  exists s' t',
    remove_level fuel b x s = Ok (tt, s') /\
    side_tree s' b t' /\
    inorder t' = pre ++ post /\
    tree_surgery s s' /\
    levels s' !! x = levels s !! x /\
    (forall t2, side_tree s (negb b) t2 -> side_tree s' (negb b) t2).
Proof. apply remove_level_side_tree. Qed.

(** ** The walks and the removal on the book with five ask levels *)

(** Proves [side_tree s b t] for a closed state and tree. *)
Ltac concrete_side_tree :=
  split; [reflexivity|];
  split; [simpl; repeat split; reflexivity|];
  split;
  [ repeat constructor; do 2 eexists; split; try reflexivity; split; reflexivity
  | repeat constructor;
    do 4 eexists; (split; [reflexivity|]); (split; [reflexivity|]);
    (split; [reflexivity|]); (split; [reflexivity|]); reflexivity ].

Lemma five_asks_run : start_trading 10 five_asks = Ok (tt, five_asks_state).
Proof. vm_compute. reflexivity. Qed.

Lemma five_asks_side_tree : side_tree five_asks_state false five_asks_tree.
Proof. concrete_side_tree. Qed.

Lemma min_level_lowest_witness :
  min_level 10 false None five_asks_state = Ok (Some 1%nat, five_asks_state) /\
  forall m y, Some 1%nat = Some m -> y ∈ [1; 3; 0; 4; 2]%nat -> y <> m ->
              price_lt (levels five_asks_state) m y.
Proof.
  apply (min_level_lowest 10 false five_asks_state five_asks_tree).
  - concrete_side_tree.
  - simpl. lia.
Defined.

Lemma max_level_highest_witness :
  max_level 10 false None five_asks_state = Ok (Some 2%nat, five_asks_state) /\
  forall m y, Some 2%nat = Some m -> y ∈ [1; 3; 0; 4; 2]%nat -> y <> m ->
              price_lt (levels five_asks_state) y m.
Proof.
  apply (max_level_highest 10 false five_asks_state five_asks_tree).
  - concrete_side_tree.
  - simpl. lia.
Defined.

Lemma next_level_successor_witness :
  next_level 10 false (Some 3%nat) five_asks_state = Ok (Some 0%nat, five_asks_state).
Proof.
  apply (next_level_successor 10 false five_asks_state five_asks_tree 1 3).
  - concrete_side_tree.
  - reflexivity.
  - simpl. lia.
Defined.

Lemma visit_side_in_price_order_witness :
  visit_side 10 false five_asks_state = Ok ([1; 3; 0; 4; 2]%nat, five_asks_state) /\
  StronglySorted (price_lt (levels five_asks_state)) [1; 3; 0; 4; 2]%nat.
Proof.
  apply (visit_side_in_price_order 10 false five_asks_state five_asks_tree).
  - concrete_side_tree.
  - simpl. lia.
Defined.

Lemma remove_level_deletes_witness :
  exists s' t',
    remove_level 10 false 0 five_asks_state = Ok (tt, s') /\
    side_tree s' false t' /\
    inorder t' = [1; 3]%nat ++ [4; 2]%nat /\
    tree_surgery five_asks_state s' /\
    levels s' !! 0%nat = levels five_asks_state !! 0%nat /\
    (forall t2, side_tree five_asks_state (negb false) t2 -> side_tree s' (negb false) t2).
Proof.
  apply (remove_level_deletes 10 false five_asks_state five_asks_tree [1; 3]%nat 0
           [4; 2]%nat).
  - concrete_side_tree.
  - reflexivity.
  - simpl. lia.
Defined.

(** ** Running monadic code forwards *)

Lemma levels_with_side b v s : levels (with_side b v s) = levels s.
Proof. destruct b; reflexivity. Qed.

Lemma orders_with_side b v s : orders (with_side b v s) = orders s.
Proof. destruct b; reflexivity. Qed.

Lemma stdout_with_side b v s : stdout (with_side b v s) = stdout s.
Proof. destruct b; reflexivity. Qed.

Lemma side_with_side b v s : side b (with_side b v s) = v.
Proof. destruct b; reflexivity. Qed.

Lemma side_with_side_other b v s : side (negb b) (with_side b v s) = side (negb b) s.
Proof. destruct b; reflexivity. Qed.

Lemma side_set_levels b h s : side b (set_levels h s) = side b s.
Proof. destruct b; reflexivity. Qed.

Lemma side_set_orders b h s : side b (set_orders h s) = side b s.
Proof. destruct b; reflexivity. Qed.

Lemma side_set_stdout b o s : side b (set_stdout o s) = side b s.
Proof. destruct b; reflexivity. Qed.

Ltac store_simpl :=
  repeat first
    [ progress cbn [orders levels bid ask stdout set_orders set_levels set_bid
                    set_ask set_stdout]
    | rewrite levels_with_side
    | rewrite orders_with_side
    | rewrite stdout_with_side
    | rewrite side_with_side
    | rewrite side_with_side_other
    | rewrite side_set_levels
    | rewrite side_set_orders
    | rewrite side_set_stdout ].

(** Proves [h !! k = Some ?v] for [h] a chain of inserts over a store whose
    entries are among the hypotheses. *)
Ltac lookup_solve :=
  store_simpl;
  repeat first
    [ rewrite lookup_insert_eq
    | rewrite lookup_insert_ne
        by first [assumption | congruence | (intros ?; subst; contradiction)] ];
  first [eassumption | reflexivity].

Lemma bind_load_side {B} b (k : BookSide.t -> M B) s :
  bind (load_side b) k s = k (side b s) s.
Proof. reflexivity. Qed.

Lemma bind_store_level {B} l v (k : unit -> M B) s :
  bind (store_level l v) k s = k tt (set_levels (<[l := v]> (levels s)) s).
Proof. reflexivity. Qed.

Lemma bind_store_order {B} o v (k : unit -> M B) s :
  bind (store_order o v) k s = k tt (set_orders (<[o := v]> (orders s)) s).
Proof. reflexivity. Qed.

Lemma bind_store_side {B} b v (k : unit -> M B) s :
  bind (store_side b v) k s = k tt (with_side b v s).
Proof. reflexivity. Qed.

Lemma bind_deref {A B} (x : A) (k : A -> M B) s : bind (deref (Some x)) k s = k x s.
Proof. reflexivity. Qed.

Lemma bind_print {B} e (k : unit -> M B) s :
  bind (print e) k s = k tt (set_stdout (stdout s ++ [e]) s).
Proof. reflexivity. Qed.

(** One statement of a run [bind m k s = _], when [m] is a primitive whose
    outcome the hypotheses settle. *)
Ltac fwd1 :=
  lazymatch goal with
  | |- bind (bind _ _) _ _ = _ => rewrite bind_assoc
  | |- bind (ret _) _ _ = _ => rewrite bind_ret
  | |- bind (load_level ?l) ?k ?s = _ =>
      let H := fresh in
      eassert (H : load_level l s = Ok (_, s)) by (apply load_level_ok; lookup_solve);
      rewrite (bind_ok _ k _ _ _ H); clear H
  | |- bind (load_order ?o) ?k ?s = _ =>
      let H := fresh in
      eassert (H : load_order o s = Ok (_, s)) by (apply load_order_ok; lookup_solve);
      rewrite (bind_ok _ k _ _ _ H); clear H
  | |- bind (load_side _) _ _ = _ => rewrite bind_load_side
  | |- bind (store_level _ _) _ _ = _ => rewrite bind_store_level
  | |- bind (store_order _ _) _ _ = _ => rewrite bind_store_order
  | |- bind (store_side _ _) _ _ = _ => rewrite bind_store_side
  | |- bind (modify_level ?l ?f) ?k ?s = _ =>
      let H := fresh in
      eassert (H : modify_level l f s = Ok (tt, _)) by (apply modify_level_ok; lookup_solve);
      rewrite (bind_ok _ k _ _ _ H); clear H
  | |- bind (modify_order ?o ?f) ?k ?s = _ =>
      let H := fresh in
      eassert (H : modify_order o f s = Ok (tt, _)) by (apply modify_order_ok; lookup_solve);
      rewrite (bind_ok _ k _ _ _ H); clear H
  | |- bind (deref (Some _)) _ _ = _ => rewrite bind_deref
  | |- bind (print _) _ _ = _ => rewrite bind_print
  end; cbn beta.

Ltac fwd := repeat fwd1.

(** The last statement of a run. *)
Ltac fwd_end :=
  first
    [ reflexivity
    | apply modify_level_ok; lookup_solve
    | apply modify_order_ok; lookup_solve
    | apply load_level_ok; lookup_solve
    | apply load_order_ok; lookup_solve ].

(** ** Queues *)

Lemma queue_ext h h' q : forall p,
  (forall o, o ∈ q -> Order.next <$> h' !! o = Order.next <$> h !! o) ->
  queue h p q -> queue h' p q.
Proof.
  induction q as [|c q IH]; intros p Hext; simpl; [auto|].
  intros (-> & v & Hv & Hq). split; [reflexivity|].
  pose proof (Hext c ltac:(set_solver)) as Hc. rewrite Hv in Hc.
  destruct (h' !! c) as [v'|]; [|discriminate].
  simpl in Hc. injection Hc as Hc.
  exists v'. split; [reflexivity|]. rewrite Hc.
  apply IH; [|exact Hq]. intros o Ho. apply Hext. set_solver.
Qed.

Lemma queue_inj h q1 : forall p q2, queue h p q1 -> queue h p q2 -> q1 = q2.
Proof.
  induction q1 as [|c q1 IH]; intros p [|c2 q2]; simpl.
  - reflexivity.
  - intros -> (E & _). discriminate.
  - intros (-> & _) E. discriminate.
  - intros (-> & v & Hv & H1) (E & v2 & Hv2 & H2).
    injection E as <-. rewrite Hv in Hv2. injection Hv2 as <-.
    f_equal. exact (IH _ _ H1 H2).
Qed.

Lemma queue_suffix h q1 : forall p q2,
  queue h p (q1 ++ q2) -> exists p', queue h p' q2.
Proof.
  induction q1 as [|c q1 IH]; intros p q2; simpl; [eauto|].
  intros (_ & v & _ & Hq). exact (IH _ _ Hq).
Qed.

Lemma queue_not_in_tail h c q p : queue h p (c :: q) -> c ∉ q.
Proof.
  intros Hq Hin.
  apply list_elem_of_split in Hin as (q1 & q2 & ->).
  pose proof Hq as Hq'.
  change (c :: q1 ++ c :: q2) with ((c :: q1) ++ c :: q2) in Hq'.
  apply queue_suffix in Hq' as (p' & Hq').
  assert (p' = p) as ->.
  { destruct Hq as [-> _]. destruct Hq' as [-> _]. reflexivity. }
  pose proof (queue_inj _ _ _ _ Hq Hq') as E.
  apply (f_equal length) in E. simpl in E. rewrite length_app in E. simpl in E. lia.
Qed.

Lemma queue_NoDup h q : forall p, queue h p q -> NoDup q.
Proof.
  induction q as [|c q IH]; intros p Hq; constructor.
  - exact (queue_not_in_tail _ _ _ _ Hq).
  - destruct Hq as (_ & v & _ & Hq). exact (IH _ Hq).
Qed.

Lemma queue_stored h q p o : queue h p q -> o ∈ q -> is_Some (h !! o).
Proof.
  revert p. induction q as [|c q IH]; intros p Hq Ho; [set_solver|].
  destruct Hq as (_ & v & Hv & Hq).
  apply elem_of_cons in Ho as [->|Ho]; [eauto|exact (IH _ Hq Ho)].
Qed.

Lemma queue_snoc h q : forall p t tv o ov,
  queue h p q -> last q = Some t -> h !! t = Some tv -> h !! o = Some ov ->
  Order.next ov = None -> o ∉ q ->
  queue (<[t := Order.set_next (Some o) tv]> h) p (q ++ [o]).
Proof.
  induction q as [|c q IH]; intros p t tv o ov Hq Hlast Ht Ho Hnext Hout;
    [discriminate|].
  pose proof (queue_not_in_tail _ _ _ _ Hq) as Hc.
  destruct Hq as (-> & v & Hv & Hq). simpl. split; [reflexivity|].
  destruct q as [|c' q].
  - simpl in Hlast. injection Hlast as <-. rewrite Ht in Hv. injection Hv as <-.
    simpl in Hq. exists (Order.set_next (Some o) tv).
    rewrite lookup_insert_eq. split; [reflexivity|]. simpl.
    split; [reflexivity|]. exists ov.
    rewrite lookup_insert_ne by set_solver. auto.
  - assert (Hlast' : last (c' :: q) = Some t) by exact Hlast.
    assert (Hne : t <> c).
    { intros ->. apply Hc. apply last_Some_elem_of in Hlast'. exact Hlast'. }
    exists v. rewrite lookup_insert_ne by exact Hne. split; [exact Hv|].
    apply (IH _ t tv o ov Hq Hlast' Ht Ho Hnext). set_solver.
Qed.

Lemma relinked_refl s : relinked s s.
Proof. repeat split. Qed.

Lemma relinked_trans s1 s2 s3 : relinked s1 s2 -> relinked s2 s3 -> relinked s1 s3.
Proof.
  intros (A1 & A2 & A3 & A4 & A5) (B1 & B2 & B3 & B4 & B5).
  do 3 (split; [congruence|]).
  split; [intros z; rewrite B4; apply A4|intros z; rewrite B5; apply A5].
Qed.

Lemma relinked_store_order s o v v' :
  orders s !! o = Some v -> order_data v' = order_data v ->
  relinked s (set_orders (<[o := v']> (orders s)) s).
Proof.
  intros Ho Hd. do 4 (split; [reflexivity|]).
  intros z. simpl. destruct (decide (o = z)) as [<-|Hne].
  - rewrite lookup_insert_eq, Ho. simpl. congruence.
  - rewrite lookup_insert_ne by exact Hne. reflexivity.
Qed.

Lemma relinked_store_level s l v v' :
  levels s !! l = Some v -> tree_view v' = tree_view v ->
  relinked s (set_levels (<[l := v']> (levels s)) s).
Proof.
  intros Hl Hv. do 3 (split; [reflexivity|]).
  split; [|reflexivity].
  intros z. simpl. destruct (decide (l = z)) as [<-|Hne].
  - rewrite lookup_insert_eq, Hl. simpl. congruence.
  - rewrite lookup_insert_ne by exact Hne. reflexivity.
Qed.

(** [relinked_chain] proves [relinked s E] for a state [E] written as a
    chain of stores over [s], each store finding its premises among the
    hypotheses. *)
Ltac relinked_chain :=
  lazymatch goal with
  | |- relinked ?s ?s => apply relinked_refl
  | |- relinked ?s (set_orders (<[?o := ?v']> (orders ?e)) ?e) =>
      apply (relinked_trans s e); [relinked_chain|];
      eapply relinked_store_order; [first [eassumption|lookup_solve]|reflexivity]
  | |- relinked ?s (set_levels (<[?l := ?v']> (levels ?e)) ?e) =>
      apply (relinked_trans s e); [relinked_chain|];
      eapply relinked_store_level; [first [eassumption|lookup_solve]|reflexivity]
  | _ => eassumption
  end.

Lemma enqueue_order_spec s l lv q o ov :
  levels s !! l = Some lv ->
  orders s !! o = Some ov ->
  Order.next ov = None ->
  queue (orders s) (Level.head lv) q ->
  o ∉ q ->
  Level.tail lv = last q ->
  exists s' lv',
    enqueue_order l o s = Ok (tt, s') /\
    levels s' !! l = Some lv' /\
    queue (orders s') (Level.head lv') (q ++ [o]) /\
    Level.tail lv' = Some o /\
    Level.total_qty lv' = Level.total_qty lv + Order.qty ov /\
    relinked s s' /\
    (forall z, z <> l -> levels s' !! z = levels s !! z).
Proof.
  intros Hlv Ho Hnext Hq Hout Htail.
  destruct q as [|c q].
  - simpl in Hq, Htail.
    eexists _, _. split.
    { unfold enqueue_order. fwd. cbn [Level.head Level.set_total_qty]. rewrite Hq.
      fwd. fwd_end. }
    split; [lookup_solve|].
    split.
    { simpl. split; [reflexivity|]. eexists. rewrite lookup_insert_eq.
      split; [reflexivity|]. exact Hnext. }
    split; [reflexivity|]. split; [reflexivity|].
    split; [relinked_chain|].
    intros z Hz. store_simpl. rewrite !lookup_insert_ne by congruence. reflexivity.
  - pose proof Hq as (Hhead & cv & Hcv & _).
    destruct (last (c :: q)) as [t|] eqn:Hlast;
      [|apply last_None in Hlast; discriminate].
    assert (Ht_in : t ∈ c :: q) by (apply last_Some_elem_of; exact Hlast).
    destruct (queue_stored _ _ _ t Hq Ht_in) as [tv Htv].
    assert (Hto : t <> o) by (intros ->; exact (Hout Ht_in)).
    eexists _, _. split.
    { unfold enqueue_order. fwd. cbn [Level.head Level.set_total_qty]. rewrite Hhead.
      cbn [Level.tail Level.set_total_qty]. rewrite Htail.
      fwd. fwd_end. }
    split; [lookup_solve|].
    split.
    { store_simpl. cbn [Level.head Level.set_tail Level.set_total_qty].
      apply (queue_ext (<[t := Order.set_next (Some o) tv]> (orders s))).
      - intros z Hz. destruct (decide (z = o)) as [->|Hzo].
        + rewrite lookup_insert_eq, lookup_insert_ne, Ho by congruence. reflexivity.
        + rewrite lookup_insert_ne by congruence. reflexivity.
      - apply (queue_snoc _ _ _ t tv o ov Hq Hlast Htv Ho Hnext Hout). }
    split; [reflexivity|]. split; [reflexivity|].
    split; [relinked_chain|].
    intros z Hz. store_simpl. rewrite !lookup_insert_ne by congruence. reflexivity.
Qed.

Lemma dequeue_order_spec s l lv c q :
  levels s !! l = Some lv ->
  queue (orders s) (Level.head lv) (c :: q) ->
  exists s' lv' cv,
    dequeue_order l s = Ok (c, s') /\
    orders s !! c = Some cv /\
    levels s' !! l = Some lv' /\
    queue (orders s') (Level.head lv') q /\
    Level.total_qty lv' = Level.total_qty lv - Order.qty cv /\
    Level.tail lv' = (if decide (Some c = Level.tail lv) then None else Level.tail lv) /\
    relinked s s' /\
    (forall z, z <> l -> levels s' !! z = levels s !! z) /\
    (forall z, Order.next <$> orders s' !! z = Order.next <$> orders s !! z) /\
    Level.head lv' = Order.next cv /\
    (forall z, z ∉ q -> orders s' !! z = orders s !! z).
Proof.
  intros Hlv Hq.
  pose proof (queue_not_in_tail _ _ _ _ Hq) as Hc.
  destruct Hq as (Hhead & cv & Hcv & Hq).
  unfold dequeue_order.
  destruct q as [|c' q].
  - simpl in Hq.
    destruct (decide (Some c = Level.tail lv)) as [Ht|Ht].
    + eexists _, _, cv. split.
      { fwd. cbn zeta. rewrite Hhead. fwd. rewrite Hq. fwd.
        cbn [Level.tail Level.set_total_qty Level.set_head].
        rewrite decide_True by exact Ht. fwd. reflexivity. }
      split; [exact Hcv|]. split; [lookup_solve|].
      split; [simpl; first [reflexivity|exact Hq]|]. split; [reflexivity|]. split; [reflexivity|].
      split; [relinked_chain|].
      split; [intros z Hz; store_simpl; rewrite !lookup_insert_ne by congruence;
              reflexivity|].
      split; [reflexivity|]. split; [simpl; symmetry; exact Hq|]. reflexivity.
    + eexists _, _, cv. split.
      { fwd. cbn zeta. rewrite Hhead. fwd. rewrite Hq. fwd.
        cbn [Level.tail Level.set_total_qty Level.set_head].
        rewrite decide_False by exact Ht. fwd. reflexivity. }
      split; [exact Hcv|]. split; [lookup_solve|].
      split; [simpl; first [reflexivity|exact Hq]|]. split; [reflexivity|]. split; [reflexivity|].
      split; [relinked_chain|].
      split; [intros z Hz; store_simpl; rewrite !lookup_insert_ne by congruence;
              reflexivity|].
      split; [reflexivity|]. split; [simpl; symmetry; exact Hq|]. reflexivity.
  - pose proof Hq as (Hnext & cv' & Hcv' & Hq').
    assert (Hne : c' <> c) by set_solver.
    assert (Hqq : queue (<[c' := Order.set_prev None cv']> (orders s))
                    (Some c') (c' :: q)).
    { apply (queue_ext (orders s)); [|rewrite <- Hnext; exact Hq].
      intros z _. destruct (decide (c' = z)) as [<-|Hz].
      - rewrite lookup_insert_eq, Hcv'. reflexivity.
      - rewrite lookup_insert_ne by exact Hz. reflexivity. }
    assert (Hnx : forall z, Order.next <$> <[c' := Order.set_prev None cv']> (orders s) !! z
                            = Order.next <$> orders s !! z).
    { intros z. destruct (decide (c' = z)) as [<-|Hz].
      - rewrite lookup_insert_eq, Hcv'. reflexivity.
      - rewrite lookup_insert_ne by exact Hz. reflexivity. }
    destruct (decide (Some c = Level.tail lv)) as [Ht|Ht].
    + eexists _, _, cv. split.
      { fwd. cbn zeta. rewrite Hhead. fwd. rewrite Hnext. fwd.
        cbn [Level.tail Level.set_total_qty Level.set_head].
        rewrite decide_True by exact Ht. fwd. reflexivity. }
      split; [exact Hcv|]. split; [lookup_solve|].
      split; [exact Hqq|]. split; [reflexivity|]. split; [reflexivity|].
      split; [relinked_chain|].
      split; [intros z Hz; store_simpl; rewrite !lookup_insert_ne by congruence;
              reflexivity|].
      split; [exact Hnx|]. split; [simpl; symmetry; exact Hnext|].
      intros z Hz. store_simpl. rewrite lookup_insert_ne by set_solver. reflexivity.
    + eexists _, _, cv. split.
      { fwd. cbn zeta. rewrite Hhead. fwd. rewrite Hnext. fwd.
        cbn [Level.tail Level.set_total_qty Level.set_head].
        rewrite decide_False by exact Ht. fwd. reflexivity. }
      split; [exact Hcv|]. split; [lookup_solve|].
      split; [exact Hqq|]. split; [reflexivity|]. split; [reflexivity|].
      split; [relinked_chain|].
      split; [intros z Hz; store_simpl; rewrite !lookup_insert_ne by congruence;
              reflexivity|].
      split; [exact Hnx|]. split; [simpl; symmetry; exact Hnext|].
      intros z Hz. store_simpl. rewrite lookup_insert_ne by set_solver. reflexivity.
Qed.


Lemma remove_order_scan_spec c q1 : forall fuel p aux q2 s,
  queue (orders s) p (q1 ++ c :: q2) ->
  c ∉ q1 ->
  (length q1 < fuel)%nat ->
  remove_order_scan fuel c p aux s
  = Ok (match last q1 with Some a => Some a | None => aux end, s).
Proof.
  induction q1 as [|x q1 IH]; intros fuel p aux q2 s Hq Hc Hfuel;
    (destruct fuel as [|fuel]; [simpl in Hfuel; lia|]); cbn [remove_order_scan].
  - destruct Hq as [-> _]. rewrite decide_True by reflexivity. reflexivity.
  - destruct Hq as (-> & xv & Hxv & Hq).
    rewrite decide_False by (intros E; injection E as ->; set_solver).
    fwd. rewrite (IH fuel _ (Some x) q2 s Hq); [|set_solver|simpl in Hfuel; lia].
    destruct q1 as [|y q1]; [reflexivity|].
    change (last (x :: y :: q1)) with (last (y :: q1)).
    destruct (last (y :: q1)) eqn:E; [reflexivity|].
    apply last_None in E. discriminate.
Qed.

Lemma remove_order_scan_missing c q : forall fuel p aux s,
  queue (orders s) p q ->
  c ∉ q ->
  (length q < fuel)%nat ->
  remove_order_scan fuel c p aux s = Raise AttributeError.
Proof.
  induction q as [|x q IH]; intros fuel p aux s Hq Hc Hfuel;
    (destruct fuel as [|fuel]; [simpl in Hfuel; lia|]); cbn [remove_order_scan].
  - simpl in Hq. subst p. rewrite decide_False by discriminate. reflexivity.
  - destruct Hq as (-> & xv & Hxv & Hq).
    rewrite decide_False by (intros E; injection E as ->; set_solver).
    fwd. apply (IH fuel _ _ s Hq); [set_solver|simpl in Hfuel; lia].
Qed.

Lemma queue_unlink h q1 : forall p a av c cv q2,
  queue h p (q1 ++ a :: c :: q2) ->
  h !! a = Some av -> h !! c = Some cv ->
  queue (<[a := Order.set_next (Order.next cv) av]> h) p (q1 ++ a :: q2).
Proof.
  induction q1 as [|x q1 IH]; intros p a av c cv q2 Hq Ha Hc.
  - pose proof (queue_NoDup _ _ _ Hq) as Hnd.
    simpl in Hq. destruct Hq as (-> & av' & Hav' & _ & cv' & Hcv' & Hq).
    rewrite Ha in Hav'. injection Hav' as <-.
    rewrite Hc in Hcv'. injection Hcv' as <-.
    simpl. split; [reflexivity|]. eexists. rewrite lookup_insert_eq.
    split; [reflexivity|]. simpl.
    apply (queue_ext h); [|exact Hq].
    intros z Hz. rewrite lookup_insert_ne; [reflexivity|].
    intros <-. simpl in Hnd. apply NoDup_cons in Hnd as [Hnd _]. set_solver.
  - pose proof (queue_NoDup _ _ _ Hq) as Hnd.
    simpl in Hq |- *. destruct Hq as (-> & xv & Hxv & Hq).
    split; [reflexivity|]. exists xv.
    rewrite lookup_insert_ne.
    + split; [exact Hxv|]. exact (IH _ a av c cv q2 Hq Ha Hc).
    + intros <-. simpl in Hnd. apply NoDup_cons in Hnd as [Hnd _]. set_solver.
Qed.

Lemma remove_order_spec fuel s l lv q1 a c q2 :
  levels s !! l = Some lv ->
  queue (orders s) (Level.head lv) (q1 ++ a :: c :: q2) ->
  (length (q1 ++ a :: c :: q2) < fuel)%nat ->
  exists s' lv' cv,
    remove_order fuel l c s = Ok (tt, s') /\
    orders s !! c = Some cv /\
    levels s' !! l = Some lv' /\
    queue (orders s') (Level.head lv') (q1 ++ a :: q2) /\
    Level.total_qty lv' = Level.total_qty lv - Order.qty cv /\
    Level.tail lv' = Level.tail lv /\
    orders s' !! c = Some cv /\
    relinked s s' /\
    (forall z, z <> l -> levels s' !! z = levels s !! z).
Proof.
  intros Hlv Hq Hfuel.
  pose proof (queue_NoDup _ _ _ Hq) as Hnd.
  assert (Hac : a <> c).
  { apply NoDup_app in Hnd as (_ & _ & Hnd). apply NoDup_cons in Hnd as [Hnd _].
    set_solver. }
  assert (Hc1 : c ∉ q1 ++ [a]).
  { intros Hin. apply elem_of_app in Hin as [Hin|Hin]; [|set_solver].
    apply NoDup_app in Hnd as (_ & Hd & _). apply (Hd c Hin). set_solver. }
  destruct (queue_stored _ _ _ a Hq ltac:(set_solver)) as [av Hav].
  destruct (queue_stored _ _ _ c Hq ltac:(set_solver)) as [cv Hcv].
  assert (Hhead : Some c <> Level.head lv).
  { intros E. rewrite <- E in Hq.
    destruct q1 as [|x q1]; simpl in Hq; destruct Hq as [E' _];
      injection E' as E'; subst; set_solver. }
  assert (Hscan : forall s1, orders s1 = orders s ->
            remove_order_scan fuel c (Level.head lv) None s1 = Ok (Some a, s1)).
  { intros s1 Hs1.
    rewrite (remove_order_scan_spec c (q1 ++ [a]) fuel (Level.head lv) None q2 s1).
    - rewrite last_snoc. reflexivity.
    - rewrite Hs1, <- app_assoc. exact Hq.
    - exact Hc1.
    - rewrite !length_app in *. simpl in *. lia. }
  assert (Hq' : queue (<[a := Order.set_next (Order.next cv) av]> (orders s))
                  (Level.head lv) (q1 ++ a :: q2))
    by exact (queue_unlink _ _ _ a av c cv q2 Hq Hav Hcv).
  unfold remove_order.
  destruct (Order.next cv) as [n|] eqn:Hnext.
  - assert (Hn : n ∈ q2).
    { apply queue_suffix in Hq as (p' & Hq). destruct Hq as (_ & av' & _ & Hq).
      destruct Hq as (_ & cv' & Hcv' & Hq). rewrite Hcv in Hcv'. injection Hcv' as <-.
      rewrite Hnext in Hq. destruct q2; simpl in Hq; [discriminate|].
      destruct Hq as [E _]. injection E as ->. set_solver. }
    assert (Hnc : n <> c).
    { intros ->. apply NoDup_app in Hnd as (_ & _ & Hnd).
      apply NoDup_cons in Hnd as [_ Hnd]. apply NoDup_cons in Hnd as [Hnd _].
      exact (Hnd Hn). }
    assert (Hna : n <> a).
    { intros ->. apply NoDup_app in Hnd as (_ & _ & Hnd).
      apply NoDup_cons in Hnd as [Hnd _]. set_solver. }
    destruct (queue_stored _ _ _ n Hq' ltac:(set_solver)) as [nv Hnv].
    rewrite lookup_insert_ne in Hnv by congruence.
    eexists _, _, cv. split.
    { fwd. rewrite decide_False by exact Hhead. fwd.
      cbn [Level.head Level.set_total_qty].
      match goal with |- bind _ _ ?s1 = _ =>
        rewrite (bind_ok _ _ _ _ _ (Hscan s1 eq_refl)) end.
      fwd. rewrite Hnext. fwd_end. }
    split; [exact Hcv|]. split; [lookup_solve|].
    split.
    { store_simpl. cbn [Level.head Level.set_total_qty].
      apply (queue_ext (<[a := Order.set_next (Some n) av]> (orders s))); [|exact Hq'].
      intros z _. destruct (decide (n = z)) as [<-|Hz].
      - rewrite lookup_insert_eq, lookup_insert_ne, Hnv by congruence. reflexivity.
      - rewrite lookup_insert_ne by exact Hz. reflexivity. }
    split; [reflexivity|]. split; [reflexivity|].
    split; [lookup_solve|].
    split; [relinked_chain|].
    intros z Hz. store_simpl. rewrite !lookup_insert_ne by congruence. reflexivity.
  - eexists _, _, cv. split.
    { fwd. rewrite decide_False by exact Hhead. fwd.
      cbn [Level.head Level.set_total_qty].
      match goal with |- bind _ _ ?s1 = _ =>
        rewrite (bind_ok _ _ _ _ _ (Hscan s1 eq_refl)) end.
      fwd. rewrite Hnext. fwd. reflexivity. }
    split; [exact Hcv|]. split; [lookup_solve|].
    split; [exact Hq'|].
    split; [reflexivity|]. split; [reflexivity|].
    split; [lookup_solve|].
    split; [relinked_chain|].
    intros z Hz. store_simpl. rewrite !lookup_insert_ne by congruence. reflexivity.
Qed.


(** ** Queue operations: what they leave alone *)

Lemma remove_order_scan_pure c : forall fuel p aux s r s',
  remove_order_scan fuel c p aux s = Ok (r, s') -> s' = s.
Proof.
  induction fuel as [|fuel IH]; intros p aux s r s' H; [discriminate|].
  cbn [remove_order_scan] in H.
  destruct (decide (p = Some c)); [apply ret_inv in H as [_ ->]; reflexivity|].
  run_inv H. exact (IH _ _ _ _ _ H).
Qed.

Lemma insert_order_scan_pure o : forall fuel p aux s r s',
  insert_order_scan fuel o p aux s = Ok (r, s') -> s' = s.
Proof.
  induction fuel as [|fuel IH]; intros p aux s r s' H; [discriminate|].
  cbn [insert_order_scan] in H.
  run_inv H; [exact (IH _ _ _ _ _ H)|reflexivity].
Qed.

Lemma enqueue_order_relinked l o s u s' :
  enqueue_order l o s = Ok (u, s') -> relinked s s'.
Proof.
  intros H. unfold enqueue_order in H. run_inv H; relinked_chain.
Qed.

Lemma dequeue_order_relinked l s o s' :
  dequeue_order l s = Ok (o, s') -> relinked s s'.
Proof.
  intros H. unfold dequeue_order in H. run_inv H; relinked_chain.
Qed.

Lemma insert_order_relinked fuel l o s u s' :
  insert_order fuel l o s = Ok (u, s') -> relinked s s'.
Proof.
  intros H. unfold insert_order in H. run_inv H.
  - exact (enqueue_order_relinked _ _ _ _ _ H).
  - match goal with
    | Hs : insert_order_scan _ _ _ _ _ = Ok _ |- _ =>
        apply insert_order_scan_pure in Hs; subst
    end.
    relinked_chain.
Qed.

Lemma remove_order_relinked fuel l o s u s' :
  remove_order fuel l o s = Ok (u, s') -> relinked s s'.
Proof.
  intros H. unfold remove_order in H.
  apply bind_inv in H as (lv & s1 & Hlv & H).
  apply load_level_inv in Hlv as [-> Hlv].
  destruct (decide (Some o = Level.head lv)).
  - run_inv H.
    match goal with
    | Hd : dequeue_order _ _ = Ok _ |- _ => exact (dequeue_order_relinked _ _ _ _ Hd)
    end.
  - run_inv H;
      match goal with
      | Hs : remove_order_scan _ _ _ _ _ = Ok _ |- _ =>
          apply remove_order_scan_pure in Hs; subst
      end;
      relinked_chain.
Qed.

(** ** Queue operations: the theorems *)

(** X6.  [enqueue_order] on a level whose queue is well linked and whose
    [tail] is its last order, called with an order that has no [next] link
    and is not in that queue, appends the order at the end: the queue read
    from [head] is the old one followed by the order, [tail] is the order,
    the level's [total_qty] grows by the order's quantity, and nothing but
    queue links and that total changes. *)
Theorem enqueue_order_appends s l lv q o ov :
  levels s !! l = Some lv ->
  orders s !! o = Some ov ->
  Order.next ov = None ->
  queue (orders s) (Level.head lv) q ->
  o ∉ q ->
  Level.tail lv = last q ->
  exists s' lv',
    enqueue_order l o s = Ok (tt, s') /\
    levels s' !! l = Some lv' /\
    queue (orders s') (Level.head lv') (q ++ [o]) /\
    Level.tail lv' = Some o /\
    Level.total_qty lv' = Level.total_qty lv + Order.qty ov /\
    relinked s s' /\
    (forall z, z <> l -> levels s' !! z = levels s !! z).
Proof. apply enqueue_order_spec. Qed.

(** Proves [queue h p q] for a closed store and list. *)
Ltac concrete_queue :=
  cbn [queue];
  repeat (split; [reflexivity|]; eexists; split; [vm_compute; reflexivity|]);
  reflexivity.

Lemma enqueue_order_appends_witness :
  exists s' lv',
    enqueue_order 0 6 five_asks_new = Ok (tt, s') /\
    levels s' !! 0%nat = Some lv' /\
    queue (orders s') (Level.head lv') [0; 5; 6]%nat /\
    Level.tail lv' = Some 6%nat /\
    Level.total_qty lv' = 16.
Proof.
  destruct (enqueue_order_appends five_asks_new 0
              (Level.mk (Some 10%Q) false 12 (Some 0%nat) (Some 5%nat) (Some 2%nat) (Some 1%nat) None)
              [0; 5]%nat 6 (Order.mk true false (Some 10%Q) 4 7 None None))
    as (s' & lv' & H1 & H2 & H3 & H4 & H5 & _).
  - vm_compute. reflexivity.
  - vm_compute. reflexivity.
  - reflexivity.
  - concrete_queue.
  - apply (bool_decide_unpack _). vm_compute. exact I.
  - reflexivity.
  - exists s', lv'.
    split; [exact H1|]. split; [exact H2|]. split; [exact H3|]. split; [exact H4|].
    rewrite H5. reflexivity.
Defined.

(** X7.  [dequeue_order] on a level with a well-linked, non-empty queue
    returns the head order and leaves the rest of the queue in place; the
    level's [total_qty] drops by that order's quantity, [tail] is cleared
    exactly when the order was the tail, and nothing but queue links and that
    total changes. *)
Theorem dequeue_order_pops s l lv c q :
  levels s !! l = Some lv ->
  queue (orders s) (Level.head lv) (c :: q) ->
  exists s' lv' cv,
    dequeue_order l s = Ok (c, s') /\
    orders s !! c = Some cv /\
    levels s' !! l = Some lv' /\
    queue (orders s') (Level.head lv') q /\
    Level.total_qty lv' = Level.total_qty lv - Order.qty cv /\
    Level.tail lv' = (if decide (Some c = Level.tail lv) then None else Level.tail lv) /\
    relinked s s' /\
    (forall z, z <> l -> levels s' !! z = levels s !! z) /\
    (forall z, Order.next <$> orders s' !! z = Order.next <$> orders s !! z) /\
    Level.head lv' = Order.next cv /\
    (forall z, z ∉ q -> orders s' !! z = orders s !! z).
Proof. apply dequeue_order_spec. Qed.

Lemma dequeue_order_pops_witness :
  exists s' lv',
    dequeue_order 0 five_asks_state = Ok (0%nat, s') /\
    levels s' !! 0%nat = Some lv' /\
    queue (orders s') (Level.head lv') [5%nat] /\
    Level.total_qty lv' = 7 /\
    Level.tail lv' = Some 5%nat.
Proof.
  destruct (dequeue_order_pops five_asks_state 0
              (Level.mk (Some 10%Q) false 12 (Some 0%nat) (Some 5%nat) (Some 2%nat) (Some 1%nat) None)
              0 [5%nat])
    as (s' & lv' & cv & H1 & H2 & H3 & H4 & H5 & H6 & _).
  - vm_compute. reflexivity.
  - concrete_queue.
  - exists s', lv'. vm_compute in H2. injection H2 as <-.
    split; [exact H1|]. split; [exact H3|]. split; [exact H4|].
    split; [rewrite H5; reflexivity|rewrite H6; reflexivity].
Defined.

(** X8.  [dequeue_order] on a level whose queue is empty raises
    [AttributeError]: it reads the quantity of the missing head. *)
Theorem dequeue_order_empty_raises s l lv :
  levels s !! l = Some lv -> Level.head lv = None ->
  dequeue_order l s = Raise AttributeError.
Proof.
  intros Hlv Hhead. unfold dequeue_order. fwd. cbn zeta. rewrite Hhead. fwd.
  reflexivity.
Qed.

Lemma dequeue_order_empty_raises_witness :
  dequeue_order 0 scenario5_state = Raise AttributeError.
Proof.
  eapply (dequeue_order_empty_raises scenario5_state 0).
  - vm_compute. reflexivity.
  - reflexivity.
Defined.

(** X9.  [remove_order] on an order that is in the queue behind the head
    unlinks it: the queue read from [head] is the old one without the order,
    and the level's [total_qty] drops by the order's quantity. The level's
    [tail] is never updated, also when the removed order was the tail, and the
    removed order keeps its own links. *)
Theorem remove_order_unlinks fuel s l lv q1 a c q2 :
  levels s !! l = Some lv ->
  queue (orders s) (Level.head lv) (q1 ++ a :: c :: q2) ->
  (length (q1 ++ a :: c :: q2) < fuel)%nat ->
  exists s' lv' cv,
    remove_order fuel l c s = Ok (tt, s') /\
    orders s !! c = Some cv /\
    levels s' !! l = Some lv' /\
    queue (orders s') (Level.head lv') (q1 ++ a :: q2) /\
    Level.total_qty lv' = Level.total_qty lv - Order.qty cv /\
    Level.tail lv' = Level.tail lv /\
    orders s' !! c = Some cv /\
    relinked s s' /\
    (forall z, z <> l -> levels s' !! z = levels s !! z).
Proof. apply remove_order_spec. Qed.

Lemma remove_order_unlinks_witness :
  exists s' lv',
    remove_order 10 0 5 five_asks_state = Ok (tt, s') /\
    levels s' !! 0%nat = Some lv' /\
    queue (orders s') (Level.head lv') [0%nat] /\
    Level.total_qty lv' = 5 /\
    Level.tail lv' = Some 5%nat.
Proof.
  destruct (remove_order_unlinks 10 five_asks_state 0
              (Level.mk (Some 10%Q) false 12 (Some 0%nat) (Some 5%nat) (Some 2%nat) (Some 1%nat) None)
              [] 0 5 [])
    as (s' & lv' & cv & H1 & H2 & H3 & H4 & H5 & H6 & _).
  - vm_compute. reflexivity.
  - concrete_queue.
  - simpl. lia.
  - exists s', lv'. vm_compute in H2. injection H2 as <-.
    split; [exact H1|]. split; [exact H3|]. split; [exact H4|].
    split; [rewrite H5; reflexivity|rewrite H6; reflexivity].
Defined.

(** X10.  [remove_order] on a stored order that is not in the level's queue
    raises [AttributeError]: the scan runs off the end of the queue. *)
Theorem remove_order_missing_raises fuel s l lv q c cv :
  levels s !! l = Some lv ->
  orders s !! c = Some cv ->
  queue (orders s) (Level.head lv) q ->
  c ∉ q ->
  (length q < fuel)%nat ->
  remove_order fuel l c s = Raise AttributeError.
Proof.
  intros Hlv Hcv Hq Hc Hfuel. unfold remove_order.
  assert (Hhead : Some c <> Level.head lv).
  { intros E. rewrite <- E in Hq. destruct q; simpl in Hq; [discriminate|].
    destruct Hq as [E' _]. injection E' as ->. set_solver. }
  fwd. rewrite decide_False by exact Hhead. fwd.
  cbn [Level.head Level.set_total_qty].
  match goal with |- bind _ _ ?s1 = _ =>
    assert (E : remove_order_scan fuel c (Level.head lv) None s1 = Raise AttributeError)
      by (apply (remove_order_scan_missing c q); [exact Hq|exact Hc|exact Hfuel])
  end.
  unfold bind at 1. rewrite E. reflexivity.
Qed.

Lemma remove_order_missing_raises_witness :
  remove_order 10 0 1 five_asks_state = Raise AttributeError.
Proof.
  apply (remove_order_missing_raises 10 five_asks_state 0
           (Level.mk (Some 10%Q) false 12 (Some 0%nat) (Some 5%nat) (Some 2%nat) (Some 1%nat) None)
           [0; 5]%nat 1 (Order.mk true false (Some 8%Q) 3 2 None None)).
  - vm_compute. reflexivity.
  - vm_compute. reflexivity.
  - concrete_queue.
  - apply (bool_decide_unpack _). vm_compute. exact I.
  - simpl. lia.
Defined.

(** X11.  Whenever one of the four queue methods of a level returns, it has
    changed nothing but queue links ([head], [tail], [next], [prev]) and
    levels' [total_qty]: no output, no side, no tree link, no price, and no
    order's type, side, price, quantity or timestamp. *)
Theorem queue_methods_only_relink :
  (forall l o s u s', enqueue_order l o s = Ok (u, s') -> relinked s s') /\
  (forall l s o s', dequeue_order l s = Ok (o, s') -> relinked s s') /\
  (forall fuel l o s u s', insert_order fuel l o s = Ok (u, s') -> relinked s s') /\
  (forall fuel l o s u s', remove_order fuel l o s = Ok (u, s') -> relinked s s').
Proof.
  split; [exact enqueue_order_relinked|].
  split; [exact dequeue_order_relinked|].
  split; [exact insert_order_relinked|exact remove_order_relinked].
Qed.

(** ** Search trees: registering an order *)

Lemma Qlt_bool_true x y : Qlt_bool x y = true <-> (x < y)%Q.
Proof.
  unfold Qlt_bool. rewrite negb_true_iff. split.
  - intros H. apply Qnot_le_lt. intros Hle. apply Qle_bool_iff in Hle. congruence.
  - intros H. destruct (Qle_bool y x) eqn:E; [|reflexivity].
    apply Qle_bool_iff in E. exfalso. exact (Qlt_not_le _ _ H E).
Qed.

Lemma Qlt_bool_false x y : Qlt_bool x y = false <-> (y <= x)%Q.
Proof.
  unfold Qlt_bool. rewrite negb_false_iff. apply Qle_bool_iff.
Qed.

Lemma sorted_middle {A} (R : A -> A -> Prop) pre x post :
  StronglySorted R (pre ++ x :: post) ->
  Forall (fun y => R y x) pre /\ Forall (R x) post.
Proof.
  induction pre as [|a pre IH]; simpl; intros Hs.
  - apply StronglySorted_inv in Hs as [_ Hall]. auto.
  - apply StronglySorted_inv in Hs as [Hs Hall].
    destruct (IH Hs) as [H1 H2]. split; [|exact H2].
    constructor; [|exact H1].
    rewrite Forall_forall in Hall. apply Hall. set_solver.
Qed.

Lemma sorted_insert_middle {A} (R : A -> A -> Prop) pre x post :
  StronglySorted R (pre ++ post) ->
  Forall (fun y => R y x) pre -> Forall (R x) post ->
  StronglySorted R (pre ++ x :: post).
Proof.
  induction pre as [|a pre IH]; simpl; intros Hs Hpre Hpost.
  - constructor; assumption.
  - apply StronglySorted_inv in Hs as [Hs Hall].
    apply Forall_cons in Hpre as [Ha Hpre].
    constructor; [apply IH; assumption|].
    apply Forall_app. apply Forall_app in Hall as [H1 H2].
    split; [exact H1|]. constructor; assumption.
Qed.

Lemma register_order_search_spec s o ov p b t0 :
  orders s !! o = Some ov ->
  Order.price ov = Some p ->
  Forall (level_of (levels s) b) (inorder t0) ->
  StronglySorted (price_lt (levels s)) (inorder t0) ->
  forall sub c fuel,
    plug c sub = t0 ->
    tree_rep (levels s) (ctx_parent None c) sub ->
    Forall (priced_below (levels s) p) (ctx_before c) ->
    Forall (priced_above (levels s) p) (ctx_after c) ->
    (length (inorder sub) < fuel)%nat ->
    exists c' sub' res,
      plug c' sub' = t0 /\
      register_order_search fuel o (root_of sub) (ctx_parent None c) s = Ok (res, s) /\
      match sub' with
      | Leaf =>
          res = ctx_parent None c' /\
          Forall (priced_below (levels s) p) (ctx_before c') /\
          Forall (priced_above (levels s) p) (ctx_after c')
      | Node l x r => res = Some x /\ priced_at (levels s) p x
      end.
Proof.
  intros Ho Hp Hof Hsorted.
  induction sub as [|l IHl x r IHr]; intros c fuel Hplug Hrep Hbefore Hafter Hfuel;
    (destruct fuel as [|fuel]; [simpl in Hfuel; lia|]).
  - exists c, Leaf, (ctx_parent None c). split; [exact Hplug|]. simpl. auto.
  - assert (E : inorder t0
                = (ctx_before c ++ inorder l) ++ x :: (inorder r ++ ctx_after c)).
    { rewrite <- Hplug, inorder_plug. simpl. rewrite <- !app_assoc. reflexivity. }
    destruct Hrep as (Hx & Hl & Hr).
    apply links_Some in Hx as (xv & Hxv & Hpar & Hleft & Hright).
    assert (Hxof : level_of (levels s) b x).
    { rewrite Forall_forall in Hof. apply Hof. rewrite E. set_solver. }
    destruct Hxof as (xv' & qx & Hxv' & Hqx & _).
    rewrite Hxv in Hxv'. injection Hxv' as <-.
    rewrite E in Hsorted. apply sorted_middle in Hsorted as [Hlow Hhigh].
    simpl in Hfuel. rewrite length_app in Hfuel. simpl in Hfuel.
    assert (Hstep : forall aux,
              register_order_search (S fuel) o (Some x) aux s
              = if Qlt_bool p qx
                then register_order_search fuel o (root_of l) (Some x) s
                else if Qlt_bool qx p
                     then register_order_search fuel o (root_of r) (Some x) s
                     else Ok (Some x, s)).
    { intros aux. cbn [register_order_search]. fwd.
      rewrite Hqx, Hp. unfold py_gt, py_lt. rewrite bind_ret.
      destruct (Qlt_bool p qx); [rewrite Hleft; reflexivity|].
      rewrite bind_ret. destruct (Qlt_bool qx p); [rewrite Hright|]; reflexivity. }
    cbn [root_of].
    destruct (Qlt_bool p qx) eqn:Hgt.
    + pose proof Hgt as Hgt'. apply Qlt_bool_true in Hgt.
      destruct (IHl (InLeft c x r) fuel) as (c' & sub' & res & H1 & H2 & H3);
        [exact Hplug|exact Hl|exact Hbefore| |lia|
         exists c', sub', res; split; [exact H1|]; split; [|exact H3];
         rewrite Hstep; exact H2].
      simpl. constructor; [exists xv, qx; auto|].
      apply Forall_app. split; [|exact Hafter].
      apply Forall_app in Hhigh as [Hhigh _].
      eapply Forall_impl; [exact Hhigh|].
      intros y (vx & vy & p' & q' & Hvx & Hvy & Hp' & Hq' & Hlt).
      rewrite Hxv in Hvx. injection Hvx as <-. rewrite Hqx in Hp'. injection Hp' as <-.
      exists vy, q'. split; [exact Hvy|]. split; [exact Hq'|].
      exact (Qlt_trans _ _ _ Hgt Hlt).
    + destruct (Qlt_bool qx p) eqn:Hlt.
      * pose proof Hlt as Hlt'. apply Qlt_bool_true in Hlt.
        destruct (IHr (InRight c l x) fuel) as (c' & sub' & res & H1 & H2 & H3);
          [exact Hplug|exact Hr| |exact Hafter|lia|
           exists c', sub', res; split; [exact H1|]; split; [|exact H3];
           rewrite Hstep; exact H2].
        simpl. apply Forall_app. split; [exact Hbefore|].
        apply Forall_app. split; [|constructor; [exists xv, qx; auto|constructor]].
        apply Forall_app in Hlow as [_ Hlow].
        eapply Forall_impl; [exact Hlow|].
        intros y (vy & vx & p' & q' & Hvy & Hvx & Hp' & Hq' & Hlt2).
        rewrite Hxv in Hvx. injection Hvx as <-. rewrite Hqx in Hq'. injection Hq' as <-.
        exists vy, p'. split; [exact Hvy|]. split; [exact Hp'|].
        exact (Qlt_trans _ _ _ Hlt2 Hlt).
      * exists c, (Node l x r), (Some x). split; [exact Hplug|].
        split; [rewrite Hstep; reflexivity|].
        apply Qlt_bool_false in Hgt, Hlt.
        split; [reflexivity|]. exists xv, qx. split; [exact Hxv|].
        split; [exact Hqx|]. apply Qle_antisym; assumption.
Qed.

Lemma fresh_level s : levels s !! fresh (dom (levels s)) = None.
Proof. apply not_elem_of_dom. apply is_fresh. Qed.

Lemma Level_init_ok s o ov :
  orders s !! o = Some ov ->
  Level_init o s
  = Ok (fresh (dom (levels s)),
        set_levels (<[fresh (dom (levels s)) :=
                       Level.mk (Order.price ov) (Order.is_buy ov) (Order.qty ov)
                                (Some o) (Some o) None None None]> (levels s)) s).
Proof. intros Ho. unfold Level_init. fwd. reflexivity. Qed.


Lemma plug_Leaf_not_Top c t : plug c Leaf = t -> t <> Leaf -> c <> Top.
Proof. intros E Ht ->. simpl in E. congruence. Qed.

(** The store after a new level [l] was hung below [a]. *)
Lemma register_order_new_rep h t b c a av l lv0 child_left :
  tree_rep h None t ->
  Forall (level_of h b) (inorder t) ->
  NoDup (inorder t) ->
  h !! l = None ->
  h !! a = Some av ->
  Level.parent lv0 = None -> Level.left lv0 = None -> Level.right lv0 = None ->
  let h' := <[l := Level.set_parent (Some a) lv0]>
              (<[a := (if child_left : bool then Level.set_left (Some l) av
                       else Level.set_right (Some l) av)]> (<[l := lv0]> h)) in
  forall cc, (if child_left then exists r, cc = InLeft c a r /\ plug cc Leaf = t
              else exists l', cc = InRight c l' a /\ plug cc Leaf = t) ->
  tree_rep h' None (plug cc (Node Leaf l Leaf)).
Proof.
  intros Hrep Hof Hnd Hl Ha Hp0 Hl0 Hr0 h' cc Hcc.
  assert (Hstored : forall z, z ∈ inorder t -> z <> l).
  { intros z Hz ->. rewrite Forall_forall in Hof.
    destruct (Hof l Hz) as (v & _ & Hv & _). congruence. }
  apply tree_rep_plug. destruct child_left.
  - destruct Hcc as (r & -> & Hplug). subst t.
    apply tree_rep_plug in Hrep as [_ Hctx]. simpl in Hctx.
    destruct Hctx as (Hla & Hr & Hc).
    apply links_Some in Hla as (av' & Hav' & Hpar & Hleft & Hright).
    rewrite Ha in Hav'. injection Hav' as <-.
    rewrite inorder_plug in Hnd, Hstored. simpl in Hnd, Hstored.
    assert (Hal : a <> l) by (apply Hstored; set_solver).
    assert (Hfr : forall z, z ∈ ctx_before c ++ inorder r ++ ctx_after c ->
                            links h' z = links h z).
    { intros z Hz.
      assert (Hzl : l <> z) by (intros <-; apply (Hstored l); set_solver).
      assert (Hza : a <> z).
      { intros <-. apply NoDup_app in Hnd as (_ & Hd & Hnd).
        apply NoDup_cons in Hnd as [Hnd _].
        apply elem_of_app in Hz as [Hz|Hz]; [apply (Hd a Hz); set_solver|].
        apply Hnd. set_solver. }
      unfold h'. rewrite links_insert, decide_False by exact Hzl.
      rewrite links_insert, decide_False by exact Hza.
      rewrite links_insert, decide_False by exact Hzl. reflexivity. }
    split.
    + simpl. split; [|auto]. unfold h'. rewrite links_insert, decide_True by reflexivity.
      simpl. rewrite Hl0, Hr0. reflexivity.
    + simpl. split; [|split].
      * unfold h'. rewrite !links_insert.
        rewrite decide_False by congruence. rewrite decide_True by reflexivity.
        simpl. rewrite Hpar, Hright. reflexivity.
      * apply (tree_rep_frame h); [|exact Hr]. intros z Hz. apply Hfr. set_solver.
      * apply (ctx_rep_frame h); [|exact Hc]. intros z Hz. apply Hfr. set_solver.
  - destruct Hcc as (l' & -> & Hplug). subst t.
    apply tree_rep_plug in Hrep as [_ Hctx]. simpl in Hctx.
    destruct Hctx as (Hla & Hr & Hc).
    apply links_Some in Hla as (av' & Hav' & Hpar & Hleft & Hright).
    rewrite Ha in Hav'. injection Hav' as <-.
    rewrite inorder_plug in Hnd, Hstored. simpl in Hnd, Hstored.
    rewrite <- !app_assoc in Hnd, Hstored. simpl in Hnd, Hstored.
    assert (Hal : a <> l) by (apply Hstored; set_solver).
    assert (Hfr : forall z, z ∈ ctx_before c ++ inorder l' ++ ctx_after c ->
                            links h' z = links h z).
    { intros z Hz.
      assert (Hzl : l <> z) by (intros <-; apply (Hstored l); set_solver).
      assert (Hza : a <> z).
      { intros <-. rewrite app_assoc in Hnd.
        apply NoDup_app in Hnd as (_ & Hd & Hnd).
        apply NoDup_cons in Hnd as [Hnd _].
        apply elem_of_app in Hz as [Hz|Hz]; [apply (Hd a); set_solver|].
        apply elem_of_app in Hz as [Hz|Hz]; [apply (Hd a); set_solver|].
        apply Hnd. exact Hz. }
      unfold h'. rewrite links_insert, decide_False by exact Hzl.
      rewrite links_insert, decide_False by exact Hza.
      rewrite links_insert, decide_False by exact Hzl. reflexivity. }
    split.
    + simpl. split; [|auto]. unfold h'. rewrite links_insert, decide_True by reflexivity.
      simpl. rewrite Hl0, Hr0. reflexivity.
    + simpl. split; [|split].
      * unfold h'. rewrite !links_insert.
        rewrite decide_False by congruence. rewrite decide_True by reflexivity.
        simpl. rewrite Hpar, Hleft. reflexivity.
      * apply (tree_rep_frame h); [|exact Hr]. intros z Hz. apply Hfr. set_solver.
      * apply (ctx_rep_frame h); [|exact Hc]. intros z Hz. apply Hfr. set_solver.
Qed.

Lemma modify_side_ok b f s :
  modify_side b f s = Ok (tt, with_side b (f (side b s)) s).
Proof. reflexivity. Qed.


(** The statement [Level(limit_order)] of a run. *)
Ltac fwd_init :=
  lazymatch goal with
  | |- bind (Level_init ?o) ?k ?s = _ =>
      let H := fresh in
      eassert (H : orders s !! o = Some _) by lookup_solve;
      rewrite (bind_ok _ k _ _ _ (Level_init_ok s o _ H)); clear H; cbn beta
  end.

Lemma level_data_lookup (h h' : gmap nat Level.t) (z : nat) v :
  level_data <$> h' !! z = level_data <$> h !! z ->
  h !! z = Some v ->
  exists v', h' !! z = Some v' /\ level_data v' = level_data v.
Proof.
  intros E Hv. rewrite Hv in E. destruct (h' !! z) as [v'|]; [|discriminate].
  exists v'. split; [reflexivity|]. simpl in E. congruence.
Qed.

Lemma new_store_facts (h : gmap nat Level.t) (a : nat) av av' (l : nat) lv1 lv0 :
  h !! l = None -> h !! a = Some av -> level_data av' = level_data av ->
  let h3 := <[l := lv1]> (<[a := av']> (<[l := lv0]> h)) in
  (forall z, z <> l -> level_data <$> h3 !! z = level_data <$> h !! z) /\
  (forall z, z <> l -> z <> a -> h3 !! z = h !! z) /\
  h3 !! l = Some lv1.
Proof.
  intros Hl Ha Hd h3. unfold h3. split; [|split].
  - intros z Hz. rewrite lookup_insert_ne by congruence.
    destruct (decide (a = z)) as [<-|Hza].
    + rewrite lookup_insert_eq, Ha. simpl. congruence.
    + rewrite !lookup_insert_ne by congruence. reflexivity.
  - intros z Hz Hza. rewrite !lookup_insert_ne by congruence. reflexivity.
  - apply lookup_insert_eq.
Qed.

Lemma register_order_new_spec fuel b s t o ov p ts :
  side_tree s b t ->
  orders s !! o = Some ov ->
  Order.price ov = Some p ->
  Order.is_buy ov = b ->
  (forall y, y ∈ inorder t -> ~ priced_at (levels s) p y) ->
  (length (inorder t) < fuel)%nat ->
  exists s' t' l pre post lv',
    register_order fuel b o ts s = Ok (tt, s') /\
    side_tree s' b t' /\
    inorder t = pre ++ post /\
    inorder t' = pre ++ l :: post /\
    levels s !! l = None /\
    levels s' !! l = Some lv' /\
    level_data lv' = (Some p, b, Order.qty ov, Some o, Some o) /\
    BookSide.total_qty (side b s') = BookSide.total_qty (side b s) + Order.qty ov /\
    side (negb b) s' = side (negb b) s /\
    orders s' = orders s /\
    stdout s' = stdout s /\
    (forall z, z <> l -> level_data <$> levels s' !! z = level_data <$> levels s !! z) /\
    (forall z, z <> l -> z ∉ inorder t -> levels s' !! z = levels s !! z).
Proof.
  intros Ht Ho Hp Hb Hnone Hfuel.
  pose proof (side_tree_NoDup _ _ _ Ht) as Hnd.
  destruct Ht as (Hroot & Hrep & Hof & Hsorted).
  pose proof (fresh_level s) as Hfresh.
  set (l := fresh (dom (levels s))) in *.
  assert (Hstored : forall z, z ∈ inorder t -> z <> l).
  { intros z Hz ->. rewrite Forall_forall in Hof.
    destruct (Hof l Hz) as (v & _ & Hv & _). congruence. }
  unfold register_order.
  destruct t as [|tl x tr].
  - simpl in Hroot.
    eexists _, (Node Leaf l Leaf), l, [], [], _. split.
    { fwd. store_simpl. cbn [BookSide.root BookSide.set_total_qty]. rewrite Hroot.
      fwd_init. apply modify_side_ok. }
    store_simpl. fold l. rewrite Hp, Hb.
    split.
    { split; [store_simpl; reflexivity|]. store_simpl.
      split; [simpl; unfold links; rewrite lookup_insert_eq; auto|].
      split.
      - repeat constructor. eexists _, p. rewrite lookup_insert_eq. auto.
      - repeat constructor. }
    split; [reflexivity|]. split; [reflexivity|]. split; [exact Hfresh|].
    split; [apply lookup_insert_eq|]. split; [reflexivity|].
    split; [reflexivity|]. split; [reflexivity|]. split; [reflexivity|].
    split; [reflexivity|].
    split; intros z Hz; rewrite lookup_insert_ne by congruence; reflexivity.
  - set (s1 := with_side b (BookSide.set_total_qty
                              (BookSide.total_qty (side b s) + Order.qty ov) (side b s)) s).
    assert (Hl1 : levels s1 = levels s) by apply levels_with_side.
    assert (Ho1 : orders s1 = orders s) by apply orders_with_side.
    destruct (register_order_search_spec s1 o ov p b (Node tl x tr)
                ltac:(rewrite Ho1; exact Ho) Hp ltac:(rewrite Hl1; exact Hof)
                ltac:(rewrite Hl1; exact Hsorted)
                (Node tl x tr) Top fuel eq_refl ltac:(rewrite Hl1; exact Hrep)
                ltac:(constructor) ltac:(constructor) Hfuel)
      as (c' & sub' & res & Hplug & Hsearch & Hres).
    rewrite Hl1 in Hres. clear Hl1 Ho1. subst s1.
    destruct sub' as [|fl fx fr].
    2:{ exfalso. destruct Hres as [_ Hat]. apply (Hnone fx); [|exact Hat].
        rewrite <- Hplug, inorder_plug. simpl. set_solver. }
    destruct Hres as (-> & Hbefore & Hafter).
    assert (Hin : inorder (Node tl x tr) = ctx_before c' ++ ctx_after c').
    { rewrite <- Hplug, inorder_plug. reflexivity. }
    assert (Hfinal : forall h' lv',
              (forall z, z <> l -> level_data <$> h' !! z = level_data <$> levels s !! z) ->
              h' !! l = Some lv' -> Level.price lv' = Some p -> Level.is_bid lv' = b ->
              Forall (level_of h' b) (ctx_before c' ++ l :: ctx_after c') /\
              StronglySorted (price_lt h') (ctx_before c' ++ l :: ctx_after c')).
    { intros h' lv' Hh' Hlv' Hpr Hbid.
      assert (Hkeep : forall z v, levels s !! z = Some v ->
                exists v', h' !! z = Some v' /\ Level.price v' = Level.price v /\
                           Level.is_bid v' = Level.is_bid v).
      { intros z v Hv.
        assert (Hzl : z <> l) by (intros ->; congruence).
        destruct (level_data_lookup _ _ z v (Hh' z Hzl) Hv) as (v' & Hv' & E).
        exists v'. unfold level_data in E. split; [exact Hv'|]. split; congruence. }
      assert (Hof' : forall z, level_of (levels s) b z -> level_of h' b z).
      { intros z (v & q & Hv & Hq & Hbz).
        destruct (Hkeep z v Hv) as (v' & Hv' & E1 & E2).
        exists v', q. split; [exact Hv'|]. split; congruence. }
      assert (Hold : forall y y', price_lt (levels s) y y' -> price_lt h' y y').
      { intros y y' (vy & vy' & py & py' & H1 & H2 & H3 & H4 & H5).
        destruct (Hkeep y vy H1) as (wy & Hwy & E1 & _).
        destruct (Hkeep y' vy' H2) as (wy' & Hwy' & E1' & _).
        exists wy, wy', py, py'. repeat split; try assumption; congruence. }
      split.
      - rewrite Hin in Hof. apply Forall_app in Hof as [Hof1 Hof2].
        apply Forall_app. split; [eapply Forall_impl; [exact Hof1|exact Hof']|].
        constructor; [exists lv', p; auto|eapply Forall_impl; [exact Hof2|exact Hof']].
      - apply sorted_insert_middle.
        + apply (sorted_mono (price_lt (levels s))); [exact Hold|].
          rewrite Hin in Hsorted. exact Hsorted.
        + eapply Forall_impl; [exact Hbefore|].
          intros y (vy & qy & Hvy & Hqy & Hlt).
          destruct (Hkeep y vy Hvy) as (wy & Hwy & E1 & _).
          exists wy, lv', qy, p. repeat split; try assumption; congruence.
        + eapply Forall_impl; [exact Hafter|].
          intros y (vy & qy & Hvy & Hqy & Hlt).
          destruct (Hkeep y vy Hvy) as (wy & Hwy & E1 & _).
          exists lv', wy, p, qy. repeat split; try assumption; congruence. }
    assert (Hc' : c' <> Top) by (apply (plug_Leaf_not_Top _ _ Hplug); discriminate).
    set (lv0 := Level.mk (Some p) b (Order.qty ov) (Some o) (Some o) None None None).
    destruct c' as [|c a r|c l' a]; [congruence| |].
    + assert (Ha_in : a ∈ inorder (Node tl x tr)).
      { rewrite Hin. simpl. set_solver. }
      assert (Hal : a <> l) by exact (Hstored a Ha_in).
      pose proof Hafter as Ha_above. simpl in Ha_above.
      apply Forall_cons in Ha_above as [(av & qa & Hav & Hqa & Hlt) _].
      destruct (new_store_facts (levels s) a av (Level.set_left (Some l) av) l
                  (Level.set_parent (Some a) lv0) lv0 Hfresh Hav eq_refl)
        as (Hdata & Hframe & Hnew).
      eexists _, (plug (InLeft c a r) (Node Leaf l Leaf)), l,
        (ctx_before (InLeft c a r)), (ctx_after (InLeft c a r)), _. split.
      { fwd. store_simpl. cbn [BookSide.root BookSide.set_total_qty]. rewrite Hroot.
        cbn [root_of ctx_parent] in Hsearch |- *.
        rewrite (bind_ok _ _ _ _ _ Hsearch). fwd.
        rewrite Hqa, Hp. cbn [py_eq].
        replace (Qeq_bool qa p) with false.
        2:{ symmetry. apply not_true_is_false. intros E. apply Qeq_bool_iff in E.
            rewrite E in Hlt. exact (Qlt_irrefl _ Hlt). }
        unfold py_gt, py_lt. rewrite bind_ret.
        replace (Qlt_bool p qa) with true by (symmetry; apply Qlt_bool_true; exact Hlt).
        fwd. fwd_init. store_simpl. fold l. fwd. fwd_end. }
      store_simpl. rewrite Hp, Hb. fold lv0.
      destruct (Hfinal _ _ Hdata Hnew eq_refl eq_refl) as [Hof3 Hsorted3].
      split.
      { split; [store_simpl; cbn [BookSide.root BookSide.set_total_qty];
                rewrite root_of_plug, Hroot, <- Hplug, root_of_plug; reflexivity|].
        store_simpl. split.
        - apply (register_order_new_rep (levels s) (Node tl x tr) b c a av l lv0 true);
            try assumption; try reflexivity.
          exists r. auto.
        - rewrite inorder_plug. cbn [inorder app]. split; assumption. }
      split; [exact Hin|]. split; [rewrite inorder_plug; reflexivity|].
      split; [exact Hfresh|]. split; [exact Hnew|]. split; [reflexivity|].
      split; [reflexivity|]. split; [reflexivity|]. split; [reflexivity|].
      split; [reflexivity|]. split; [exact Hdata|].
      intros z Hz Hzt. apply Hframe; [exact Hz|]. intros ->. exact (Hzt Ha_in).
    + assert (Ha_in : a ∈ inorder (Node tl x tr)).
      { rewrite Hin. simpl. set_solver. }
      assert (Hal : a <> l) by exact (Hstored a Ha_in).
      pose proof Hbefore as Ha_below. simpl in Ha_below.
      rewrite app_assoc in Ha_below.
      apply Forall_app in Ha_below as [_ Ha_below].
      apply Forall_cons in Ha_below as [(av & qa & Hav & Hqa & Hlt) _].
      destruct (new_store_facts (levels s) a av (Level.set_right (Some l) av) l
                  (Level.set_parent (Some a) lv0) lv0 Hfresh Hav eq_refl)
        as (Hdata & Hframe & Hnew).
      eexists _, (plug (InRight c l' a) (Node Leaf l Leaf)), l,
        (ctx_before (InRight c l' a)), (ctx_after (InRight c l' a)), _. split.
      { fwd. store_simpl. cbn [BookSide.root BookSide.set_total_qty]. rewrite Hroot.
        cbn [root_of ctx_parent] in Hsearch |- *.
        rewrite (bind_ok _ _ _ _ _ Hsearch). fwd.
        rewrite Hqa, Hp. cbn [py_eq].
        replace (Qeq_bool qa p) with false.
        2:{ symmetry. apply not_true_is_false. intros E. apply Qeq_bool_iff in E.
            rewrite E in Hlt. exact (Qlt_irrefl _ Hlt). }
        unfold py_gt, py_lt. rewrite bind_ret.
        replace (Qlt_bool p qa) with false
          by (symmetry; apply Qlt_bool_false; apply Qlt_le_weak; exact Hlt).
        fwd. fwd_init. store_simpl. fold l. fwd. fwd_end. }
      store_simpl. rewrite Hp, Hb. fold lv0.
      destruct (Hfinal _ _ Hdata Hnew eq_refl eq_refl) as [Hof3 Hsorted3].
      split.
      { split; [store_simpl; cbn [BookSide.root BookSide.set_total_qty];
                rewrite root_of_plug, Hroot, <- Hplug, root_of_plug; reflexivity|].
        store_simpl. split.
        - apply (register_order_new_rep (levels s) (Node tl x tr) b c a av l lv0 false);
            try assumption; try reflexivity.
          exists l'. auto.
        - rewrite inorder_plug. cbn [inorder app]. split; assumption. }
      split; [exact Hin|]. split; [rewrite inorder_plug; reflexivity|].
      split; [exact Hfresh|]. split; [exact Hnew|]. split; [reflexivity|].
      split; [reflexivity|]. split; [reflexivity|]. split; [reflexivity|].
      split; [reflexivity|]. split; [exact Hdata|].
      intros z Hz Hzt. apply Hframe; [exact Hz|]. intros ->. exact (Hzt Ha_in).
Qed.

Lemma sorted_price_unique h p xs x y :
  StronglySorted (price_lt h) xs ->
  x ∈ xs -> y ∈ xs -> priced_at h p x -> priced_at h p y -> x = y.
Proof.
  intros Hs Hx Hy (vx & qx & Hvx & Hqx & Ex) (vy & qy & Hvy & Hqy & Ey).
  assert (Hno : forall a a', price_lt h a a' -> priced_at h p a -> priced_at h p a' -> False).
  { intros a a' (va & va' & pa & pa' & H1 & H2 & H3 & H4 & Hlt)
      (wa & ra & H5 & H6 & E1) (wa' & ra' & H7 & H8 & E2).
    rewrite H1 in H5. injection H5 as <-. rewrite H3 in H6. injection H6 as <-.
    rewrite H2 in H7. injection H7 as <-. rewrite H4 in H8. injection H8 as <-.
    rewrite E1, E2 in Hlt. exact (Qlt_irrefl _ Hlt). }
  assert (Px : priced_at h p x) by (exists vx, qx; auto).
  assert (Py : priced_at h p y) by (exists vy, qy; auto).
  clear - Hs Hx Hy Hno Px Py.
  induction Hs as [|a xs Hs IH Hall]; [set_solver|].
  rewrite Forall_forall in Hall.
  apply elem_of_cons in Hx as [->|Hx]; apply elem_of_cons in Hy as [->|Hy].
  - reflexivity.
  - exfalso. exact (Hno a y (Hall y Hy) Px Py).
  - exfalso. exact (Hno a x (Hall x Hx) Py Px).
  - exact (IH Hx Hy).
Qed.

Lemma side_tree_ext s s' b t :
  BookSide.root (side b s') = BookSide.root (side b s) ->
  (forall z, tree_view <$> levels s' !! z = tree_view <$> levels s !! z) ->
  side_tree s b t -> side_tree s' b t.
Proof.
  intros Hroot Hview (Hr & Hrep & Hof & Hsorted).
  assert (Hkeep : forall z v, levels s !! z = Some v ->
            exists v', levels s' !! z = Some v' /\ tree_view v' = tree_view v).
  { intros z v Hv. specialize (Hview z). rewrite Hv in Hview.
    destruct (levels s' !! z) as [v'|]; [|discriminate].
    exists v'. split; [reflexivity|]. simpl in Hview. congruence. }
  split; [congruence|]. split; [|split].
  - apply (tree_rep_frame (levels s)); [|exact Hrep].
    intros z _. unfold links. specialize (Hview z).
    destruct (levels s' !! z) as [v'|], (levels s !! z) as [v|];
      simpl in *; try congruence.
    unfold tree_view in Hview. congruence.
  - eapply Forall_impl; [exact Hof|].
    intros z (v & p & Hv & Hp & Hb).
    destruct (Hkeep z v Hv) as (v' & Hv' & E). unfold tree_view in E.
    exists v', p. split; [exact Hv'|]. split; congruence.
  - apply (sorted_mono (price_lt (levels s))); [|exact Hsorted].
    intros y y' (vy & vy' & py & py' & H1 & H2 & H3 & H4 & H5).
    destruct (Hkeep y vy H1) as (wy & Hwy & E1).
    destruct (Hkeep y' vy' H2) as (wy' & Hwy' & E1').
    unfold tree_view in E1, E1'.
    exists wy, wy', py, py'. repeat split; try assumption; congruence.
Qed.


(** X12.  [register_order] with an order whose price is a finite number that
    no level of the side has: the call returns, a new level is created whose
    [head] and [tail] are that order, and the side is again a search tree,
    over the old levels and the new one at its place in the price order.
    The new level's queue is just that order when the order has no [next]
    link.  The side's [total_qty] grows by the order's quantity; orders,
    output, the other side and every old level's queue, price and quantity
    are as before. *)
Theorem register_order_inserts_level fuel b s t o ov p ts :
  side_tree s b t ->
  orders s !! o = Some ov ->
  Order.price ov = Some p ->
  Order.is_buy ov = b ->
  (forall y, y ∈ inorder t -> ~ priced_at (levels s) p y) ->
  (length (inorder t) < fuel)%nat ->
  exists s' t' l pre post lv',
    register_order fuel b o ts s = Ok (tt, s') /\
    side_tree s' b t' /\
    inorder t = pre ++ post /\
    inorder t' = pre ++ l :: post /\
    levels s !! l = None /\
    levels s' !! l = Some lv' /\
    level_data lv' = (Some p, b, Order.qty ov, Some o, Some o) /\
    (Order.next ov = None -> queue (orders s') (Level.head lv') [o]) /\
    BookSide.total_qty (side b s') = BookSide.total_qty (side b s) + Order.qty ov /\
    side (negb b) s' = side (negb b) s /\
    orders s' = orders s /\
    stdout s' = stdout s /\
    (forall z, z <> l -> level_data <$> levels s' !! z = level_data <$> levels s !! z) /\
    (forall z, z <> l -> z ∉ inorder t -> levels s' !! z = levels s !! z).
Proof.
  intros Ht Ho Hp Hb Hnone Hfuel.
  destruct (register_order_new_spec fuel b s t o ov p ts Ht Ho Hp Hb Hnone Hfuel)
    as (s' & t' & l & pre & post & lv' & Hrun & Ht' & Hin & Hin' & Hl & Hl' & Hdata &
        Htot & Hside & Hord & Hout & Hframe & Hkeep).
  exists s', t', l, pre, post, lv'.
  repeat (split; [assumption|]).
  split; [|auto 10].
  intros Hnext. unfold level_data in Hdata.
  injection Hdata as _ _ _ Hhead _. rewrite Hhead, Hord.
  split; [reflexivity|]. exists ov. split; [exact Ho|]. exact Hnext.
Qed.

Lemma register_order_inserts_level_witness :
  exists s' t' l pre post lv',
    register_order 10 false 6 false five_asks_between = Ok (tt, s') /\
    side_tree s' false t' /\
    [1; 3; 0; 4; 2]%nat = pre ++ post /\
    inorder t' = pre ++ l :: post /\
    levels s' !! l = Some lv' /\
    queue (orders s') (Level.head lv') [6%nat] /\
    BookSide.total_qty (side false s') = 26.
Proof.
  destruct (register_order_inserts_level 10 false five_asks_between five_asks_tree 6
              (Order.mk true false (Some (19 # 2)%Q) 4 7 None None) (19 # 2)%Q false)
    as (s' & t' & l & pre & post & lv' & H1 & H2 & H3 & H4 & _ & H6 & _ & H7 & H5 & _).
  - concrete_side_tree.
  - vm_compute. reflexivity.
  - reflexivity.
  - reflexivity.
  - intros y Hy (v & q & Hv & Hq & E).
    repeat (apply elem_of_cons in Hy as [->|Hy]);
      try (vm_compute in Hv; injection Hv as <-; injection Hq as <-;
           vm_compute in E; discriminate E).
    inversion Hy.
  - simpl. lia.
  - exists s', t', l, pre, post, lv'. split; [exact H1|]. split; [exact H2|].
    split; [exact H3|]. split; [exact H4|]. split; [exact H6|].
    split; [exact (H7 eq_refl)|]. rewrite H5. reflexivity.
Defined.

(** X13.  [register_order] (without the [timestamp] flag) with an order priced
    like a level of the side, whose queue is well linked with [tail] its last
    order: the call returns, the order is appended to that level's queue, the
    tree is the same, the level's and the side's [total_qty] grow by the
    order's quantity, and no other level, no order data and no output changes. *)
Theorem register_order_joins_level fuel b s t o ov p x xv q :
  side_tree s b t ->
  orders s !! o = Some ov ->
  Order.price ov = Some p ->
  x ∈ inorder t ->
  levels s !! x = Some xv ->
  priced_at (levels s) p x ->
  Order.next ov = None ->
  queue (orders s) (Level.head xv) q ->
  o ∉ q ->
  Level.tail xv = last q ->
  (length (inorder t) < fuel)%nat ->
  exists s' xv',
    register_order fuel b o false s = Ok (tt, s') /\
    side_tree s' b t /\
    levels s' !! x = Some xv' /\
    queue (orders s') (Level.head xv') (q ++ [o]) /\
    Level.tail xv' = Some o /\
    Level.total_qty xv' = Level.total_qty xv + Order.qty ov /\
    BookSide.total_qty (side b s') = BookSide.total_qty (side b s) + Order.qty ov /\
    side (negb b) s' = side (negb b) s /\
    stdout s' = stdout s /\
    (forall z, z <> x -> levels s' !! z = levels s !! z) /\
    (forall z, order_data <$> orders s' !! z = order_data <$> orders s !! z).
Proof.
  intros Ht Ho Hp Hx Hxv Hat Hnext Hq Hout Htail Hfuel.
  pose proof Ht as (Hroot & Hrep & Hof & Hsorted).
  set (s1 := with_side b (BookSide.set_total_qty
                            (BookSide.total_qty (side b s) + Order.qty ov) (side b s)) s).
  assert (Hl1 : levels s1 = levels s) by apply levels_with_side.
  assert (Ho1 : orders s1 = orders s) by apply orders_with_side.
  destruct t as [|tl y tr]; [set_solver|].
  destruct (register_order_search_spec s1 o ov p b (Node tl y tr)
              ltac:(rewrite Ho1; exact Ho) Hp ltac:(rewrite Hl1; exact Hof)
              ltac:(rewrite Hl1; exact Hsorted)
              (Node tl y tr) Top fuel eq_refl ltac:(rewrite Hl1; exact Hrep)
              ltac:(constructor) ltac:(constructor) Hfuel)
    as (c' & sub' & res & Hplug & Hsearch & Hres).
  rewrite Hl1 in Hres.
  destruct sub' as [|fl fx fr].
  { exfalso. destruct Hres as (_ & Hbefore & Hafter).
    rewrite <- Hplug, inorder_plug in Hx. simpl in Hx.
    destruct Hat as (v & qx & Hv & Hqx & E).
    rewrite Forall_forall in Hbefore, Hafter.
    apply elem_of_app in Hx as [Hx|Hx].
    - destruct (Hbefore x Hx) as (v' & q' & Hv' & Hq' & Hlt).
      rewrite Hv in Hv'. injection Hv' as <-. rewrite Hqx in Hq'. injection Hq' as <-.
      rewrite E in Hlt. exact (Qlt_irrefl _ Hlt).
    - destruct (Hafter x Hx) as (v' & q' & Hv' & Hq' & Hlt).
      rewrite Hv in Hv'. injection Hv' as <-. rewrite Hqx in Hq'. injection Hq' as <-.
      rewrite E in Hlt. exact (Qlt_irrefl _ Hlt). }
  destruct Hres as (-> & Hfat).
  assert (fx = x) as ->.
  { apply (sorted_price_unique (levels s) p (inorder (Node tl y tr))); try assumption.
    rewrite <- Hplug, inorder_plug. simpl. set_solver. }
  destruct Hat as (v & qx & Hv & Hqx & E).
  rewrite Hxv in Hv. injection Hv as <-.
  destruct (enqueue_order_spec s1 x xv q o ov
              ltac:(rewrite Hl1; exact Hxv) ltac:(rewrite Ho1; exact Ho) Hnext
              ltac:(rewrite Ho1; exact Hq) Hout Htail)
    as (s' & xv' & Hrun & Hxv' & Hq' & Htail' & Htot & Hrel & Hframe).
  destruct Hrel as (Hstd & Hbid & Hask & Hview & Hdata).
  assert (Hside : forall b', side b' s' = side b' s1).
  { intros [|]; simpl; assumption. }
  clear Hl1 Ho1. subst s1.
  exists s', xv'. split.
  { unfold register_order. fwd. store_simpl.
    cbn [BookSide.root BookSide.set_total_qty]. rewrite Hroot. cbn [root_of] in Hsearch |- *.
    rewrite (bind_ok _ _ _ _ _ Hsearch). fwd.
    rewrite Hqx, Hp. cbn [py_eq].
    replace (Qeq_bool qx p) with true by (symmetry; apply Qeq_bool_iff; exact E).
    exact Hrun. }
  split.
  { apply (side_tree_ext s); [|intros z; rewrite Hview, levels_with_side; reflexivity
                              |exact Ht].
    rewrite Hside, side_with_side. reflexivity. }
  split; [exact Hxv'|]. split; [exact Hq'|]. split; [exact Htail'|].
  split; [exact Htot|].
  split; [rewrite Hside, side_with_side; reflexivity|].
  split; [rewrite Hside, side_with_side_other; reflexivity|].
  split; [rewrite Hstd, stdout_with_side; reflexivity|].
  split; [intros z Hz; rewrite (Hframe z Hz), levels_with_side; reflexivity|].
  intros z. rewrite Hdata, orders_with_side. reflexivity.
Qed.

Lemma register_order_joins_level_witness :
  exists s' xv',
    register_order 10 false 6 false five_asks_new = Ok (tt, s') /\
    side_tree s' false five_asks_tree /\
    levels s' !! 0%nat = Some xv' /\
    queue (orders s') (Level.head xv') [0; 5; 6]%nat /\
    Level.total_qty xv' = 16 /\
    BookSide.total_qty (side false s') = 26.
Proof.
  destruct (register_order_joins_level 10 false five_asks_new five_asks_tree 6
              (Order.mk true false (Some 10%Q) 4 7 None None) 10%Q 0
              (Level.mk (Some 10%Q) false 12 (Some 0%nat) (Some 5%nat) (Some 2%nat)
                        (Some 1%nat) None)
              [0; 5]%nat)
    as (s' & xv' & H1 & H2 & H3 & H4 & _ & H5 & H6 & _).
  - concrete_side_tree.
  - vm_compute. reflexivity.
  - reflexivity.
  - apply (bool_decide_unpack _). vm_compute. exact I.
  - vm_compute. reflexivity.
  - eexists _, _. split; [vm_compute; reflexivity|]. split; reflexivity.
  - reflexivity.
  - concrete_queue.
  - apply (bool_decide_unpack _). vm_compute. exact I.
  - reflexivity.
  - simpl. lia.
  - exists s', xv'. split; [exact H1|]. split; [exact H2|]. split; [exact H3|].
    split; [exact H4|]. split; [rewrite H5; reflexivity|rewrite H6; reflexivity].
Defined.

(** ** What the tree operations leave alone *)

Lemma min_level_walk_pure : forall fuel l s r s',
  min_level_walk fuel l s = Ok (r, s') -> s' = s.
Proof.
  induction fuel as [|fuel IH]; intros l s r s' H; [discriminate|].
  cbn [min_level_walk] in H. run_inv H; [exact (IH _ _ _ _ H)|reflexivity].
Qed.

Lemma max_level_walk_pure : forall fuel l s r s',
  max_level_walk fuel l s = Ok (r, s') -> s' = s.
Proof.
  induction fuel as [|fuel IH]; intros l s r s' H; [discriminate|].
  cbn [max_level_walk] in H. run_inv H; [exact (IH _ _ _ _ H)|reflexivity].
Qed.

Lemma next_level_climb_pure : forall fuel p x s r s',
  next_level_climb fuel p x s = Ok (r, s') -> s' = s.
Proof.
  induction fuel as [|fuel IH]; intros p x s r s' H; [discriminate|].
  cbn [next_level_climb] in H. destruct p as [n|]; [|run_inv H; reflexivity].
  run_inv H; [exact (IH _ _ _ _ _ H)|reflexivity].
Qed.

Lemma min_level_pure fuel b start s r s' :
  min_level fuel b start s = Ok (r, s') -> s' = s.
Proof.
  unfold min_level. intros H. run_inv H.
  - match goal with
    | Hw : min_level_walk _ _ _ = Ok _ |- _ => exact (min_level_walk_pure _ _ _ _ _ Hw)
    end.
  - reflexivity.
Qed.

Lemma max_level_pure fuel b start s r s' :
  max_level fuel b start s = Ok (r, s') -> s' = s.
Proof.
  unfold max_level. intros H. run_inv H.
  - match goal with
    | Hw : max_level_walk _ _ _ = Ok _ |- _ => exact (max_level_walk_pure _ _ _ _ _ Hw)
    end.
  - reflexivity.
Qed.

Lemma next_level_pure fuel b x s r s' :
  next_level fuel b x s = Ok (r, s') -> s' = s.
Proof.
  unfold next_level. intros H. destruct x as [x|]; [|run_inv H; reflexivity].
  run_inv H.
  - exact (min_level_pure _ _ _ _ _ _ H).
  - exact (next_level_climb_pure _ _ _ _ _ _ H).
Qed.

(** [surgery_chain] proves [tree_surgery s E] for a state [E] written as a
    chain of level stores and root updates over [s]. *)
Ltac surgery_chain :=
  lazymatch goal with
  | |- tree_surgery ?s ?s => apply tree_surgery_refl
  | |- tree_surgery ?s (set_levels (<[?l := ?v']> (levels ?e)) ?e) =>
      apply (tree_surgery_trans s e); [surgery_chain|];
      eapply tree_surgery_store; [first [eassumption|lookup_solve]|reflexivity]
  | |- tree_surgery ?s (if ?b then set_bid (BookSide.set_root ?r (side ?b ?e)) ?e
                        else set_ask (BookSide.set_root ?r (side ?b ?e)) ?e) =>
      apply (tree_surgery_trans s e); [surgery_chain|]; apply tree_surgery_root
  | _ => eassumption
  end.

Lemma replace_level_surgery b old new s u s' :
  replace_level b old new s = Ok (u, s') -> tree_surgery s s'.
Proof.
  unfold replace_level. intros H. destruct old as [o|]; [|run_inv H; surgery_chain].
  run_inv H; surgery_chain.
Qed.

Ltac surgery_link :=
  lazymatch goal with
  | |- tree_surgery ?s ?s => apply tree_surgery_refl
  | |- tree_surgery ?s (set_levels (<[?l := ?v']> (levels ?e)) ?e) =>
      apply (tree_surgery_trans s e); [surgery_link|];
      eapply tree_surgery_store; [first [eassumption|lookup_solve]|reflexivity]
  | |- tree_surgery ?s (if ?b then set_bid (BookSide.set_root ?r (side ?b ?e)) ?e
                        else set_ask (BookSide.set_root ?r (side ?b ?e)) ?e) =>
      apply (tree_surgery_trans s e); [surgery_link|]; apply tree_surgery_root
  | |- tree_surgery ?s ?e =>
      first
        [ eassumption
        | match goal with
          | H : tree_surgery ?m e |- _ =>
              apply (tree_surgery_trans s m); [surgery_link|exact H]
          end ]
  end.

Lemma remove_level_surgery fuel b x s u s' :
  remove_level fuel b x s = Ok (u, s') -> tree_surgery s s'.
Proof.
  unfold remove_level. intros H. run_inv H;
    repeat match goal with
      | Hn : next_level _ _ _ _ = Ok _ |- _ => apply next_level_pure in Hn; subst
      | Hr : replace_level _ _ _ _ = Ok _ |- _ => apply replace_level_surgery in Hr
      end;
    surgery_link.
Qed.

(** ** [trade_at_level]: one line of output *)

Ltac steady_link :=
  lazymatch goal with
  | |- steady ?s ?s => apply steady_refl
  | |- steady ?s (set_orders (<[?o := ?v']> (orders ?e)) ?e) =>
      apply (steady_trans s e); [steady_link|];
      eapply steady_store_order; [first [eassumption|lookup_solve]|reflexivity]
  | |- steady ?s (set_levels (<[?l := ?v']> (levels ?e)) ?e) =>
      apply (steady_trans s e); [steady_link|];
      eapply steady_store_level; [first [eassumption|lookup_solve]|reflexivity]
  | |- steady ?s ?e =>
      first
        [ eassumption
        | match goal with
          | H : steady ?m e |- _ =>
              apply (steady_trans s m); [steady_link|exact H]
          end ]
  end.

Lemma trade_at_level_loop_steady m l : forall fuel c acc s r s',
  trade_at_level_loop fuel m l c acc s = Ok (r, s') -> steady s s'.
Proof.
  induction fuel as [|fuel IH]; intros c acc s r s' H; [discriminate|].
  cbn [trade_at_level_loop] in H.
  destruct c as [c|]; [|run_inv H; apply steady_refl].
  run_inv H;
    repeat match goal with
      | Hd : dequeue_order _ _ = Ok _ |- _ => apply dequeue_order_steady in Hd
      | Hl : trade_at_level_loop _ _ _ _ _ _ = Ok _ |- _ => apply IH in Hl
      end;
    steady_link.
Qed.

Lemma steady_price s s' z v :
  steady s s' -> levels s !! z = Some v ->
  exists v', levels s' !! z = Some v' /\ tree_view v' = tree_view v.
Proof.
  intros (_ & _ & _ & H & _) Hv. specialize (H z). rewrite Hv in H.
  destruct (levels s' !! z) as [v'|]; [|discriminate].
  exists v'. split; [reflexivity|]. simpl in H. congruence.
Qed.

Lemma trade_at_level_output fuel m l s r s' :
  trade_at_level fuel m l s = Ok (r, s') ->
  r = m /\
  exists lv q, levels s !! l = Some lv /\
               stdout s' = stdout s ++ [Trade (Level.price lv) q].
Proof.
  unfold trade_at_level. intros H.
  apply bind_inv in H as (lv & s0 & Hlv & H). apply load_level_inv in Hlv as [-> Hlv].
  apply bind_inv in H as (q & s1 & Hloop & H).
  apply trade_at_level_loop_steady in Hloop.
  apply bind_inv in H as (lv1 & s1' & Hlv1 & H). apply load_level_inv in Hlv1 as [-> Hlv1].
  apply bind_inv in H as (u & s2 & Hmid & H).
  assert (Hkeep : stdout s2 = stdout s1 /\
                  forall z, Level.price <$> levels s2 !! z = Level.price <$> levels s1 !! z).
  { destruct (Level.is_bid lv1); run_inv Hmid;
      try (match goal with
           | Hr : remove_level _ _ _ _ = Ok _ |- _ =>
               apply remove_level_surgery in Hr;
               destruct Hr as (_ & Hr1 & _ & _ & Hr2)
           end;
           split; [rewrite Hr1; reflexivity|];
           intros z; specialize (Hr2 z); simpl in Hr2;
           destruct (levels s2 !! z), (levels _ !! z);
           simpl in *; unfold level_data in Hr2; congruence);
      split; reflexivity. }
  destruct Hkeep as [Hout Hprice].
  apply bind_inv in H as (lv2 & s2' & Hlv2 & H). apply load_level_inv in Hlv2 as [-> Hlv2].
  run_inv H. split; [reflexivity|].
  destruct (steady_price _ _ l lv Hloop Hlv) as (lv1' & Hlv1' & Hview).
  exists lv, q. split; [exact Hlv|]. simpl.
  destruct Hloop as (Hstd & _). rewrite Hout, Hstd.
  specialize (Hprice l). rewrite Hlv2, Hlv1' in Hprice. simpl in Hprice.
  unfold tree_view in Hview. assert (E : Level.price lv2 = Level.price lv) by congruence.
  rewrite E. reflexivity.
Qed.

(** ** [trade_at_level]: the walk along the queue *)

Lemma queue_head h p q : queue h p q -> p = head q.
Proof. destruct q; simpl; [auto|]. intros [-> _]. reflexivity. Qed.

Lemma relinked_steady s s' : relinked s s' -> steady s s'.
Proof.
  intros (H1 & H2 & H3 & H4 & H5). do 4 (split; [assumption|]).
  intros o v Hv. specialize (H5 o). rewrite Hv in H5.
  destruct (orders s' !! o) as [v'|]; [|discriminate].
  exists v'. split; [reflexivity|]. simpl in H5. unfold order_data in H5. congruence.
Qed.

Lemma relinked_order s s' o v :
  relinked s s' -> orders s !! o = Some v ->
  exists v', orders s' !! o = Some v' /\ order_data v' = order_data v.
Proof.
  intros (_ & _ & _ & _ & H) Hv. specialize (H o). rewrite Hv in H.
  destruct (orders s' !! o) as [v'|]; [|discriminate].
  exists v'. split; [reflexivity|]. simpl in H. congruence.
Qed.

Lemma qty_in_relinked s s' c : relinked s s' -> qty_in (orders s') c = qty_in (orders s) c.
Proof.
  intros (_ & _ & _ & _ & H). specialize (H c). unfold qty_in.
  destruct (orders s' !! c) as [v'|], (orders s !! c) as [v|]; simpl in *;
    try congruence.
  unfold order_data in H. congruence.
Qed.

(** Once the incoming order wants nothing more, the loop stops. *)
Lemma trade_at_level_loop_done fuel m l c acc s mo :
  orders s !! m = Some mo -> Order.qty mo <= 0 ->
  trade_at_level_loop (S fuel) m l c acc s = Ok (acc, s).
Proof.
  intros Hm Hq. cbn [trade_at_level_loop]. destruct c as [c|]; [|reflexivity].
  fwd. replace (0 <? Order.qty mo) with false by (symmetry; apply Z.ltb_ge; exact Hq).
  reflexivity.
Qed.

Lemma trade_at_level_loop_spec m l : forall q fuel s acc lv mo,
  orders s !! m = Some mo ->
  levels s !! l = Some lv ->
  queue (orders s) (Level.head lv) q ->
  m ∉ q ->
  (length q < fuel)%nat ->
  exists s' lv' mo',
    trade_at_level_loop fuel m l (Level.head lv) acc s
    = Ok (acc + traded (fill_queue (Order.qty mo) (qty_in (orders s) <$> q)), s') /\
    steady s s' /\
    orders s' !! m = Some mo' /\
    Order.qty mo' = remaining (fill_queue (Order.qty mo) (qty_in (orders s) <$> q)) /\
    levels s' !! l = Some lv' /\
    Level.total_qty lv'
    = Level.total_qty lv - traded (fill_queue (Order.qty mo) (qty_in (orders s) <$> q)) /\
    queue (orders s') (Level.head lv')
      (drop (consumed (fill_queue (Order.qty mo) (qty_in (orders s) <$> q))) q) /\
    (forall z, z <> l -> levels s' !! z = levels s !! z) /\
    (forall i c, q !! i = Some c ->
       qty_in (orders s') c
       = qty_in (orders s) c
         - (if decide (i = consumed (fill_queue (Order.qty mo) (qty_in (orders s) <$> q)))
            then reduced_by (fill_queue (Order.qty mo) (qty_in (orders s) <$> q))
            else 0)) /\
    (forall z, z <> m -> z ∉ q -> orders s' !! z = orders s !! z).
Proof.
  induction q as [|c q IH]; intros fuel s acc lv mo Hm Hlv Hq Hmq Hfuel;
    (destruct fuel as [|fuel]; [simpl in Hfuel; lia|]).
  - simpl in Hq. rewrite Hq. exists s, lv, mo. cbn [fmap list_fmap fill_queue traded
      remaining consumed reduced_by drop].
    split; [cbn [trade_at_level_loop]; rewrite Z.add_0_r; reflexivity|].
    split; [apply steady_refl|]. split; [exact Hm|]. split; [reflexivity|].
    split; [exact Hlv|]. split; [lia|]. split; [simpl; exact Hq|].
    split; [reflexivity|]. split; [intros i c Hi; discriminate|reflexivity].
  - pose proof (queue_NoDup _ _ _ Hq) as Hnd.
    pose proof Hq as (Hhead & cv & Hcv & Hq').
    assert (Hcm : c <> m) by set_solver.
    assert (Hc_q : c ∉ q) by (apply NoDup_cons in Hnd as [Hnd _]; exact Hnd).
    assert (Hqc : qty_in (orders s) c = Order.qty cv).
    { unfold qty_in. rewrite Hcv. reflexivity. }
    cbn [fmap list_fmap fill_queue]. fold (fmap (M := list) (qty_in (orders s)) q).
    rewrite Hqc.
    destruct (0 <? Order.qty mo) eqn:Hpos.
    2:{ exists s, lv, mo. cbn [traded remaining consumed reduced_by drop].
        split.
        { rewrite Z.add_0_r. apply (trade_at_level_loop_done _ _ _ _ _ _ mo Hm).
          apply Z.ltb_ge. exact Hpos. }
        split; [apply steady_refl|]. split; [exact Hm|]. split; [reflexivity|].
        split; [exact Hlv|]. split; [lia|]. split; [exact Hq|].
        split; [reflexivity|].
        split; [|reflexivity].
        intros i c' Hi. destruct (decide (i = 0%nat)); lia. }
    destruct (Order.qty cv <=? Order.qty mo) eqn:Hle.
    + destruct (dequeue_order_spec s l lv c q Hlv Hq)
        as (s1 & lv1 & cv' & Hdq & Hcv' & Hlv1 & Hq1 & Htot1 & _ & Hrel & Hfr1 & Hnx1 &
            Hhead1 & Hofr1).
      rewrite Hcv in Hcv'. injection Hcv' as <-.
      destruct (relinked_order _ _ c cv Hrel Hcv) as (cv1 & Hcv1 & Ecv).
      destruct (relinked_order _ _ m mo Hrel Hm) as (mo1 & Hmo1 & Emo).
      assert (Eqc : Order.qty cv1 = Order.qty cv) by (unfold order_data in Ecv; congruence).
      assert (Eqm : Order.qty mo1 = Order.qty mo) by (unfold order_data in Emo; congruence).
      assert (Enx : Order.next cv1 = Order.next cv).
      { specialize (Hnx1 c). rewrite Hcv1, Hcv in Hnx1. simpl in Hnx1. congruence. }
      set (mo2 := Order.set_qty (Order.qty mo1 - Order.qty cv1) mo1).
      set (s2 := set_orders (<[m := mo2]> (orders s1)) s1).
      assert (Hq2 : queue (orders s2) (Level.head lv1) q).
      { apply (queue_ext (orders s1)); [|exact Hq1].
        intros z Hz. unfold s2. store_simpl.
        rewrite lookup_insert_ne by set_solver. reflexivity. }
      assert (Hqty2 : forall z, z <> m -> qty_in (orders s2) z = qty_in (orders s) z).
      { intros z Hz. rewrite <- (qty_in_relinked s s1 z Hrel). unfold qty_in, s2.
        store_simpl. rewrite lookup_insert_ne by congruence. reflexivity. }
      assert (Hns : qty_in (orders s2) <$> q = qty_in (orders s) <$> q).
      { apply list_fmap_ext. intros i z Hz. apply Hqty2.
        intros ->. apply Hmq. right. apply list_elem_of_lookup. eauto. }
      destruct (IH fuel s2 (acc + Order.qty cv1) lv1 mo2)
        as (s' & lv' & mo' & Hrun & Hst & Hmo' & Hrem & Hlv' & Htot & Hqf & Hfr & Hqty & Hofr).
      { unfold s2. store_simpl. apply lookup_insert_eq. }
      { exact Hlv1. }
      { exact Hq2. }
      { set_solver. }
      { simpl in Hfuel. lia. }
      rewrite Hns in Hrun, Hrem, Htot, Hqf, Hqty.
      assert (Hq2m : Order.qty mo2 = Order.qty mo - Order.qty cv).
      { unfold mo2. simpl. lia. }
      rewrite Hq2m in Hrun, Hrem, Htot, Hqf, Hqty.
      exists s', lv', mo'. cbn [traded remaining consumed reduced_by drop].
      split.
      { cbn [trade_at_level_loop]. rewrite Hhead. fwd. rewrite Hpos.
        fwd. rewrite Hle. rewrite !bind_assoc.
        rewrite (bind_ok _ _ _ _ _ Hdq). fwd. fold mo2. fold s2.
        rewrite Enx, <- Hhead1, Hrun. rewrite Eqc. f_equal. f_equal. lia. }
      split.
      { apply (steady_trans s s1); [apply relinked_steady, Hrel|].
        apply (steady_trans s1 s2); [|exact Hst].
        unfold s2. eapply steady_store_order; [exact Hmo1|reflexivity]. }
      split; [exact Hmo'|]. split; [exact Hrem|]. split; [exact Hlv'|].
      split; [lia|]. split; [exact Hqf|].
      split; [intros z Hz; rewrite (Hfr z Hz); exact (Hfr1 z Hz)|].
      split.
      * intros [|i] c' Hi.
        -- simpl in Hi. injection Hi as <-.
           rewrite decide_False by lia.
           unfold qty_in at 1. rewrite (Hofr c Hcm Hc_q). fold (qty_in (orders s2) c).
           rewrite (Hqty2 c Hcm). lia.
        -- simpl in Hi. rewrite (Hqty i c' Hi).
           assert (Hc'm : c' <> m).
           { intros ->. apply Hmq. right. apply list_elem_of_lookup. eauto. }
           rewrite (Hqty2 c' Hc'm).
           destruct (decide (i = consumed (fill_queue (Order.qty mo - Order.qty cv)
                                             (qty_in (orders s) <$> q))));
             [rewrite decide_True by lia|rewrite decide_False by lia]; reflexivity.
      * intros z Hzm Hz. rewrite (Hofr z Hzm ltac:(set_solver)).
        unfold s2. store_simpl. rewrite lookup_insert_ne by congruence.
        apply Hofr1. set_solver.
    + destruct fuel as [|fuel]; [simpl in Hfuel; lia|].
      eexists _, _, _. cbn [traded remaining consumed reduced_by drop].
      split.
      { cbn [trade_at_level_loop]. rewrite Hhead. fwd. rewrite Hpos.
        fwd. rewrite Hle. fwd.
        cbn [Order.next Order.set_qty].
        eapply trade_at_level_loop_done; [lookup_solve|simpl; lia]. }
      split; [steady_link|].
      split; [lookup_solve|]. split; [reflexivity|].
      split; [lookup_solve|]. split; [reflexivity|].
      split.
      { store_simpl. cbn [Level.head Level.set_total_qty].
        apply (queue_ext (orders s)); [|exact Hq].
        intros z Hz. destruct (decide (z = m)) as [->|Hzm]; [contradiction|].
        rewrite lookup_insert_ne by congruence.
        destruct (decide (z = c)) as [->|Hzc].
        - rewrite lookup_insert_eq, Hcv. reflexivity.
        - rewrite lookup_insert_ne by congruence. reflexivity. }
      split; [intros z Hz; store_simpl; rewrite lookup_insert_ne by congruence;
              reflexivity|].
      split.
      * intros [|i] c' Hi.
        -- simpl in Hi. injection Hi as <-. rewrite decide_True by reflexivity.
           unfold qty_in. store_simpl.
           rewrite lookup_insert_ne, lookup_insert_eq, Hcv by congruence. reflexivity.
        -- simpl in Hi. rewrite decide_False by lia.
           assert (Hc'q : c' ∈ q) by (apply list_elem_of_lookup; eauto).
           unfold qty_in. store_simpl.
           rewrite !lookup_insert_ne by set_solver. lia.
      * intros z Hzm Hz. store_simpl. rewrite !lookup_insert_ne by set_solver.
        reflexivity.
Qed.


Lemma steady_side s s' b : steady s s' -> side b s' = side b s.
Proof. intros (_ & H1 & H2 & _). destruct b; simpl; assumption. Qed.

Lemma steady_side_tree s s' b t : steady s s' -> side_tree s b t -> side_tree s' b t.
Proof.
  intros Hst. apply side_tree_ext.
  - rewrite (steady_side _ _ _ Hst). reflexivity.
  - apply Hst.
Qed.

Lemma tree_surgery_total s s' b :
  tree_surgery s s' -> BookSide.total_qty (side b s') = BookSide.total_qty (side b s).
Proof.
  intros (_ & _ & H1 & H2 & _). unfold side_data in H1, H2.
  destruct b; simpl; congruence.
Qed.

Lemma trade_at_level_spec fuel s m mo l lv q t pre post :
  orders s !! m = Some mo ->
  levels s !! l = Some lv ->
  queue (orders s) (Level.head lv) q ->
  m ∉ q ->
  side_tree s (Level.is_bid lv) t ->
  inorder t = pre ++ l :: post ->
  (length q < fuel)%nat ->
  (length (inorder t) < fuel)%nat ->
  exists s' lv' mo' t',
    trade_at_level fuel m l s = Ok (m, s') /\
    stdout s'
    = stdout s ++ [Trade (Level.price lv)
                     (traded (fill_queue (Order.qty mo) (qty_in (orders s) <$> q)))] /\
    orders s' !! m = Some mo' /\
    Order.qty mo' = remaining (fill_queue (Order.qty mo) (qty_in (orders s) <$> q)) /\
    levels s' !! l = Some lv' /\
    Level.total_qty lv'
    = Level.total_qty lv - traded (fill_queue (Order.qty mo) (qty_in (orders s) <$> q)) /\
    queue (orders s') (Level.head lv')
      (drop (consumed (fill_queue (Order.qty mo) (qty_in (orders s) <$> q))) q) /\
    (forall i c, q !! i = Some c ->
       qty_in (orders s') c
       = qty_in (orders s) c
         - (if decide (i = consumed (fill_queue (Order.qty mo) (qty_in (orders s) <$> q)))
            then reduced_by (fill_queue (Order.qty mo) (qty_in (orders s) <$> q))
            else 0)) /\
    (forall z, z <> m -> z ∉ q -> orders s' !! z = orders s !! z) /\
    BookSide.total_qty (side (Level.is_bid lv) s')
    = BookSide.total_qty (side (Level.is_bid lv) s)
      - traded (fill_queue (Order.qty mo) (qty_in (orders s) <$> q)) /\
    side_tree s' (Level.is_bid lv) t' /\
    inorder t'
    = (if Level.total_qty lv
          - traded (fill_queue (Order.qty mo) (qty_in (orders s) <$> q)) =? 0
       then pre ++ post else pre ++ l :: post).
Proof.
  intros Hm Hlv Hq Hmq Ht Hin Hfq Hft.
  destruct (trade_at_level_loop_spec m l q fuel s 0 lv mo Hm Hlv Hq Hmq Hfq)
    as (s1 & lv1 & mo1 & Hloop & Hst & Hmo1 & Hrem & Hlv1 & Htot & Hq1 & Hfr & Hqty & Hofr).
  rewrite Z.add_0_l in Hloop.
  set (f := fill_queue (Order.qty mo) (qty_in (orders s) <$> q)) in *.
  set (b := Level.is_bid lv) in *.
  destruct (steady_price _ _ l lv Hst Hlv) as (lv1' & Hlv1' & Hview).
  rewrite Hlv1 in Hlv1'. injection Hlv1' as <-.
  assert (Hb1 : Level.is_bid lv1 = b) by (unfold b, tree_view in *; congruence).
  assert (Hp1 : Level.price lv1 = Level.price lv) by (unfold tree_view in Hview; congruence).
  pose proof (steady_side_tree _ _ _ _ Hst Ht) as Ht1.
  set (sd := BookSide.set_total_qty (BookSide.total_qty (side b s1) - traded f) (side b s1)).
  set (s2 := with_side b sd s1).
  assert (Hl2 : levels s2 = levels s1) by apply levels_with_side.
  assert (Ho2 : orders s2 = orders s1) by apply orders_with_side.
  assert (Ht2 : side_tree s2 b t).
  { apply (side_tree_ext s1); [|rewrite Hl2; reflexivity|exact Ht1].
    unfold s2. rewrite side_with_side. reflexivity. }
  assert (Hstart : forall k : Z -> M nat,
            bind (trade_at_level_loop fuel m l (Level.head lv) 0)
              (fun qty_traded =>
                 let* lv := load_level l in
                 (if Level.is_bid lv
                  then let* sd := load_side true in
                       store_side true (BookSide.set_total_qty
                                          (BookSide.total_qty sd - qty_traded) sd) ;;
                       let* lv := load_level l in
                       if Level.total_qty lv =? 0 then remove_level fuel true l else ret tt
                  else let* sd := load_side false in
                       store_side false (BookSide.set_total_qty
                                           (BookSide.total_qty sd - qty_traded) sd) ;;
                       let* lv := load_level l in
                       if Level.total_qty lv =? 0 then remove_level fuel false l else ret tt) ;;
                 k qty_traded) s
            = bind (if Level.total_qty lv1 =? 0 then remove_level fuel b l else ret tt)
                (fun _ => k (traded f)) s2).
  { intros k. rewrite (bind_ok _ _ _ _ _ Hloop). fwd. rewrite Hb1.
    destruct b; fwd; reflexivity. }
  assert (Hside2 : BookSide.total_qty (side b s2)
                   = BookSide.total_qty (side b s) - traded f).
  { unfold s2. rewrite side_with_side. unfold sd. simpl.
    rewrite (steady_side _ _ b Hst). reflexivity. }
  assert (Hstd2 : stdout s2 = stdout s).
  { unfold s2. rewrite stdout_with_side. apply Hst. }
  rewrite Htot in Hstart.
  destruct (Level.total_qty lv - traded f =? 0) eqn:Hzero.
  - destruct (remove_level_side_tree fuel b s2 t pre l post Ht2 Hin Hft)
      as (s3 & t' & Hrun3 & Ht3 & Hin3 & Hsurg & Hlsame & _).
    pose proof (tree_surgery_total _ _ b Hsurg) as Htot3.
    destruct Hsurg as (Ho3 & Hstd3 & Hbid3 & Hask3 & Hdata3).
    assert (Hlv3 : levels s3 !! l = Some lv1) by (rewrite Hlsame, Hl2; exact Hlv1).
    exists (set_stdout (stdout s3 ++ [Trade (Level.price lv1) (traded f)]) s3),
      lv1, mo1, t'.
    split.
    { unfold trade_at_level. fwd. rewrite Hstart.
      rewrite (bind_ok _ _ _ _ _ Hrun3). fwd. reflexivity. }
    store_simpl.
    split; [rewrite Hstd3, Hstd2, Hp1; reflexivity|].
    split; [rewrite Ho3, Ho2; exact Hmo1|]. split; [exact Hrem|].
    split; [exact Hlv3|]. split; [exact Htot|].
    split; [rewrite Ho3, Ho2; exact Hq1|].
    split; [rewrite Ho3, Ho2; exact Hqty|].
    split; [rewrite Ho3, Ho2; exact Hofr|].
    split.
    { rewrite <- Hside2. exact Htot3. }
    split; [|exact Hin3].
    apply (side_tree_ext s3); [|reflexivity|exact Ht3].
    rewrite side_set_stdout. reflexivity.
  - assert (Hlv2 : levels s2 !! l = Some lv1) by (rewrite Hl2; exact Hlv1).
    exists (set_stdout (stdout s2 ++ [Trade (Level.price lv1) (traded f)]) s2),
      lv1, mo1, t.
    split.
    { unfold trade_at_level. fwd. rewrite Hstart. rewrite bind_ret. fwd. reflexivity. }
    store_simpl.
    split; [rewrite Hstd2, Hp1; reflexivity|].
    split; [rewrite Ho2; exact Hmo1|]. split; [exact Hrem|].
    split; [rewrite Hl2; exact Hlv1|]. split; [exact Htot|].
    split; [rewrite Ho2; exact Hq1|].
    split; [rewrite Ho2; exact Hqty|].
    split; [rewrite Ho2; exact Hofr|].
    split; [exact Hside2|].
    split; [|exact Hin].
    apply (side_tree_ext s2); [|reflexivity|exact Ht2].
    rewrite side_set_stdout. reflexivity.
Qed.

(** ** [trade_at_level]: the theorems *)

(** X14.  Whenever [trade_at_level] returns, it returns the order it was given
    and has printed exactly one line: a trade at the price of the level. *)
Theorem trade_at_level_prints_once fuel m l s r s' :
  trade_at_level fuel m l s = Ok (r, s') ->
  r = m /\
  exists lv q, levels s !! l = Some lv /\
               stdout s' = stdout s ++ [Trade (Level.price lv) q].
Proof. apply trade_at_level_output. Qed.

Lemma trade_at_level_prints_once_witness :
  6%nat = 6%nat /\
  exists lv q, levels five_asks_market !! 1%nat = Some lv /\
               stdout five_asks_market_traded
               = stdout five_asks_market ++ [Trade (Level.price lv) q].
Proof.
  apply (trade_at_level_prints_once 10 6 1 five_asks_market 6 five_asks_market_traded).
  vm_compute. reflexivity.
Defined.

(** X15.  [trade_at_level] with a stored order on a level of a search-tree
    side whose queue is well linked returns the order after walking the queue
    from the head as [fill_queue] tells: every resting order it meets with at
    most the order's remaining quantity is dequeued whole, the first larger
    one is reduced in place by what remained, and the order keeps what is
    left. The traded total is taken off the level's and the side's
    [total_qty], the level leaves the tree exactly when its [total_qty] is
    then 0, and one trade is printed, at the level's price for the traded
    total. *)
Theorem trade_at_level_fills fuel s m mo l lv q t pre post :
  orders s !! m = Some mo ->
  levels s !! l = Some lv ->
  queue (orders s) (Level.head lv) q ->
  m ∉ q ->
  side_tree s (Level.is_bid lv) t ->
  inorder t = pre ++ l :: post ->
  (length q < fuel)%nat ->
  (length (inorder t) < fuel)%nat ->
  exists s' lv' mo' t',
    trade_at_level fuel m l s = Ok (m, s') /\
    stdout s'
    = stdout s ++ [Trade (Level.price lv)
                     (traded (fill_queue (Order.qty mo) (qty_in (orders s) <$> q)))] /\
    orders s' !! m = Some mo' /\
    Order.qty mo' = remaining (fill_queue (Order.qty mo) (qty_in (orders s) <$> q)) /\
    levels s' !! l = Some lv' /\
    Level.total_qty lv'
    = Level.total_qty lv - traded (fill_queue (Order.qty mo) (qty_in (orders s) <$> q)) /\
    queue (orders s') (Level.head lv')
      (drop (consumed (fill_queue (Order.qty mo) (qty_in (orders s) <$> q))) q) /\
    (forall i c, q !! i = Some c ->
       qty_in (orders s') c
       = qty_in (orders s) c
         - (if decide (i = consumed (fill_queue (Order.qty mo) (qty_in (orders s) <$> q)))
            then reduced_by (fill_queue (Order.qty mo) (qty_in (orders s) <$> q))
            else 0)) /\
    (forall z, z <> m -> z ∉ q -> orders s' !! z = orders s !! z) /\
    BookSide.total_qty (side (Level.is_bid lv) s')
    = BookSide.total_qty (side (Level.is_bid lv) s)
      - traded (fill_queue (Order.qty mo) (qty_in (orders s) <$> q)) /\
    side_tree s' (Level.is_bid lv) t' /\
    inorder t'
    = (if Level.total_qty lv
          - traded (fill_queue (Order.qty mo) (qty_in (orders s) <$> q)) =? 0
       then pre ++ post else pre ++ l :: post).
Proof. apply trade_at_level_spec. Qed.

Lemma trade_at_level_fills_witness :
  exists s' lv' mo' t',
    trade_at_level 10 6 0 five_asks_market = Ok (6%nat, s') /\
    stdout s' = [Trade (Some 10%Q) 6] /\
    orders s' !! 6%nat = Some mo' /\
    Order.qty mo' = 0 /\
    levels s' !! 0%nat = Some lv' /\
    Level.total_qty lv' = 6 /\
    queue (orders s') (Level.head lv') [5%nat] /\
    qty_in (orders s') 5 = 6 /\
    BookSide.total_qty (side false s') = 16 /\
    side_tree s' false t' /\
    inorder t' = [1; 3; 0; 4; 2]%nat.
Proof.
  destruct (trade_at_level_fills 10 five_asks_market 6
              (Order.mk false true None 6 7 None None) 0
              (Level.mk (Some 10%Q) false 12 (Some 0%nat) (Some 5%nat) (Some 2%nat)
                        (Some 1%nat) None)
              [0; 5]%nat five_asks_tree [1; 3]%nat [4; 2]%nat)
    as (s' & lv' & mo' & t' & H1 & H2 & H3 & H4 & H5 & H6 & H7 & H8 & _ & H9 & H10 & H11).
  - vm_compute. reflexivity.
  - vm_compute. reflexivity.
  - concrete_queue.
  - apply (bool_decide_unpack _). vm_compute. exact I.
  - concrete_side_tree.
  - reflexivity.
  - simpl. lia.
  - simpl. lia.
  - exists s', lv', mo', t'.
    split; [exact H1|]. split; [exact H2|]. split; [exact H3|]. split; [exact H4|].
    split; [exact H5|]. split; [exact H6|]. split; [exact H7|].
    split; [exact (H8 1%nat 5%nat eq_refl)|].
    split; [exact H9|]. split; [exact H10|exact H11].
Defined.

(** X16.  [trade_at_level] on a level whose queue is empty still prints a
    trade, at the level's price and for quantity 0; the order, the level's and
    the side's [total_qty] are as before, and the level leaves the tree
    exactly when its [total_qty] is 0. *)
Theorem trade_at_level_empty_queue fuel s m mo l lv t pre post :
  orders s !! m = Some mo ->
  levels s !! l = Some lv ->
  Level.head lv = None ->
  side_tree s (Level.is_bid lv) t ->
  inorder t = pre ++ l :: post ->
  (length (inorder t) < fuel)%nat ->
  exists s' lv' mo' t',
    trade_at_level fuel m l s = Ok (m, s') /\
    stdout s' = stdout s ++ [Trade (Level.price lv) 0] /\
    orders s' !! m = Some mo' /\
    Order.qty mo' = Order.qty mo /\
    levels s' !! l = Some lv' /\
    Level.total_qty lv' = Level.total_qty lv /\
    BookSide.total_qty (side (Level.is_bid lv) s')
    = BookSide.total_qty (side (Level.is_bid lv) s) /\
    side_tree s' (Level.is_bid lv) t' /\
    inorder t' = (if Level.total_qty lv =? 0 then pre ++ post else pre ++ l :: post).
Proof.
  intros Hm Hlv Hhead Ht Hin Hfuel.
  destruct (trade_at_level_spec fuel s m mo l lv [] t pre post Hm Hlv)
    as (s' & lv' & mo' & t' & H1 & H2 & H3 & H4 & H5 & H6 & _ & _ & _ & H7 & H8 & H9);
    [simpl; exact Hhead|set_solver|exact Ht|exact Hin|simpl; lia|exact Hfuel|].
  cbn [fmap list_fmap fill_queue traded remaining] in *.
  rewrite Z.sub_0_r in H6, H7, H9.
  exists s', lv', mo', t'. auto 10.
Qed.

Lemma trade_at_level_empty_queue_witness :
  exists s',
    trade_at_level 10 2 0 scenario5_state = Ok (2%nat, s') /\
    stdout s' = stdout scenario5_state ++ [Trade (Some 9%Q) 0].
Proof.
  destruct (trade_at_level_empty_queue 10 scenario5_state 2
              (Order.mk true true (Some 12%Q) 0 3 None None) 0
              (Level.mk (Some 9%Q) false 5 None None (Some 1%nat) (Some 2%nat) None)
              scenario5_tree [2%nat] [1%nat])
    as (s' & lv' & mo' & t' & H1 & H2 & _).
  - vm_compute. reflexivity.
  - vm_compute. reflexivity.
  - reflexivity.
  - concrete_side_tree.
  - reflexivity.
  - simpl. lia.
  - exists s'. split; [exact H1|exact H2].
Defined.

(** ** The quote parser: limit lines, short lines, and what it constructs *)

Lemma index_last {A} (x y : A) (l : list A) tok :
  last (y :: l) = Some tok ->
  index (x :: y :: l) (length (x :: y :: l) - 1) = Ok tok.
Proof.
  intros Hlast. unfold index.
  replace (length (x :: y :: l) - 1)%nat with (S (length l)) by (simpl; lia).
  change ((x :: y :: l) !! S (length l)) with ((y :: l) !! length l).
  rewrite last_lookup in Hlast. simpl in Hlast. rewrite Hlast. reflexivity.
Qed.

(** X17.  On a line whose first word is [limit] (in any letter case) and that
    has at least three words, the price is read from the third word and the
    quantity from the last word; the order is a buy order exactly when the
    second word is [buy]. With exactly three words the same word is read as
    the price and as the quantity. *)
Theorem limit_quote_fields py_float py_int quote now second third rest tok p q :
  split (lower quote) = "limit"%string :: second :: third :: rest ->
  py_float third = Some p ->
  last (third :: rest) = Some tok ->
  py_int tok = Some q ->
  Order_init py_float py_int quote now
  = Ok (Order.mk true (bool_decide (second = "buy"%string)) (Some p) q now None None) /\
  (rest = [] -> tok = third).
Proof.
  intros Hsplit Hp Htok Hq. split.
  - unfold Order_init. rewrite Hsplit.
    change (index ("limit"%string :: second :: third :: rest) 0) with (Ok "limit"%string).
    change (index ("limit"%string :: second :: third :: rest) 1) with (Ok second).
    change (index ("limit"%string :: second :: third :: rest) 2) with (Ok third).
    rewrite (index_last _ _ _ tok) by exact Htok.
    cbn [rbind]. rewrite decide_True by reflexivity. cbn [rbind of_value].
    rewrite Hp. cbn [rbind]. rewrite Hq. cbn [rbind].
    destruct (decide (second = "buy"%string)) as [E|E].
    + rewrite bool_decide_eq_true_2 by exact E. reflexivity.
    + rewrite bool_decide_eq_false_2 by exact E. reflexivity.
  - intros ->. simpl in Htok. congruence.
Qed.

Lemma limit_quote_fields_witness :
  Order_init decimal_float decimal "Limit SELL 7" 3
  = Ok (Order.mk true false (Some 7%Q) 7 3 None None) /\
  (@nil string = [] -> "7"%string = "7"%string).
Proof.
  apply (limit_quote_fields decimal_float decimal "Limit SELL 7" 3
           "sell" "7" [] "7" 7%Q 7); reflexivity.
Defined.

(** X18.  A line with fewer than two words, and a [limit] line with only two
    words, construct no order: [Order(quote)] raises [IndexError]. *)
Theorem short_quote_raises py_float py_int quote now :
  ((length (split (lower quote)) < 2)%nat ->
   Order_init py_float py_int quote now = Raise IndexError) /\
  (forall second, split (lower quote) = ["limit"%string; second] ->
   Order_init py_float py_int quote now = Raise IndexError).
Proof.
  split.
  - intros Hlen. unfold Order_init.
    destruct (split (lower quote)) as [|a [|b l]]; [reflexivity|reflexivity|].
    simpl in Hlen. lia.
  - intros second Hsplit. unfold Order_init. rewrite Hsplit.
    cbn [rbind index lookup list_lookup]. rewrite decide_True by reflexivity.
    reflexivity.
Qed.

(** X19.  Every order the parser constructs is stamped with the given time,
    has no queue links, and has a price exactly when it is a limit order. *)
Theorem constructed_orders py_float py_int quote now o :
  Order_init py_float py_int quote now = Ok o ->
  constructed o /\ Order.timestamp o = now.
Proof.
  unfold Order_init, constructed. intros H.
  repeat match type of H with
         | rbind ?r _ = Ok _ => destruct r eqn:?; cbn [rbind] in H; try discriminate H
         end.
  injection H as <-. cbn.
  match goal with
  | E : (if ?c then _ else _) = Ok ?pr |- _ => destruct c
  end.
  - repeat match goal with
           | E : rbind ?r _ = Ok _ |- _ =>
               destruct r eqn:?; cbn [rbind] in E; try discriminate E
           end.
    match goal with E : Ok _ = Ok _ |- _ => injection E as <- end.
    repeat split; eauto.
  - match goal with E : Ok _ = Ok _ |- _ => injection E as <- end.
    repeat split; try reflexivity; try discriminate.
    intros [x Hx]. discriminate.
Qed.

Lemma constructed_orders_witness :
  constructed (Order.mk true false (Some 7%Q) 7 3 None None) /\
  Order.timestamp (Order.mk true false (Some 7%Q) 7 3 None None) = 3.
Proof.
  apply (constructed_orders decimal_float decimal "Limit SELL 7" 3). reflexivity.
Defined.

(** ** [main.py]: where a run ends *)

(** X20.  The run ends at the first line that is exactly [stop]: whatever
    comes after it is never read. *)
Theorem stop_ends_the_run fuel : forall before after now s,
  start_trading_from fuel now (before ++ "stop"%string :: after) s
  = start_trading_from fuel now (before ++ ["stop"%string]) s.
Proof.
  induction before as [|quote before IH]; intros after now s.
  - reflexivity.
  - cbn [app start_trading_from].
    destruct (decide (quote = "stop"%string)); [reflexivity|].
    destruct (Order_init decimal_float decimal quote now) as [o|e|]; try reflexivity.
    unfold bind. destruct (submit fuel o s) as [[u s1]| |]; try reflexivity.
    apply IH.
Qed.

(** X21.  Only the exact line [stop] ends the run: any other line with fewer
    than two words, such as [STOP] or an empty line, is taken for a quote and
    ends the run with [IndexError]. *)
Theorem short_line_aborts_run fuel now quote rest s :
  quote <> "stop"%string ->
  (length (split (lower quote)) < 2)%nat ->
  start_trading_from fuel now (quote :: rest) s = Raise IndexError.
Proof.
  intros Hne Hlen. cbn [start_trading_from].
  rewrite decide_False by exact Hne.
  unfold Order_init.
  destruct (split (lower quote)) as [|a [|b l]]; [reflexivity|reflexivity|].
  simpl in Hlen. lia.
Qed.

Lemma short_line_aborts_run_witness :
  start_trading_from 10 1 ["STOP"; "limit buy 1 1"]%string OrderBook_init
  = Raise IndexError.
Proof.
  apply (short_line_aborts_run 10 1 "STOP" ["limit buy 1 1"%string] OrderBook_init).
  - discriminate.
  - vm_compute. lia.
Defined.

(** ** [book.py]: orders that do not trade *)

Lemma max_level_last fuel b s t :
  BookSide.root (side b s) = root_of t ->
  tree_rep (levels s) None t ->
  (length (inorder t) < fuel)%nat ->
  max_level fuel b None s = Ok (last (inorder t), s).
Proof.
  intros Hroot Hrep Hfuel.
  unfold max_level, load_side. cbn [bind]. rewrite Hroot.
  destruct t as [|l x r]; [reflexivity|]. cbn [root_of].
  simpl in Hfuel. rewrite length_app in Hfuel. simpl in Hfuel.
  rewrite (bind_ok _ _ _ _ _ (max_level_walk_spec r x l None fuel s Hrep ltac:(lia))).
  destruct (inorder_last r x (inorder l)) as (front & Hfront).
  simpl. rewrite Hfront, last_snoc. reflexivity.
Qed.

(** The best level of the opposing side, as [process_limit_order] and
    [process_market_order] look it up. *)
Lemma best_level fuel (buy : bool) s t :
  side_tree s (negb buy) t ->
  (length (inorder t) < fuel)%nat ->
  (if buy then min_level fuel false None else max_level fuel true None) s
  = Ok (if buy then head (inorder t) else last (inorder t), s).
Proof.
  intros (Hroot & Hrep & _) Hfuel. destruct buy; simpl in Hroot.
  - exact (min_level_first fuel false s t Hroot Hrep Hfuel).
  - exact (max_level_last fuel true s t Hroot Hrep Hfuel).
Qed.

(** X22.  A limit order that does not cross the opposing side is simply
    booked: when the best opposing level (the lowest ask for a buy, the
    highest bid for a sell) is priced beyond the order's price, or there is no
    opposing level, [process_limit_order] does what [register_order] on the
    order's own side does, and nothing else. *)
Theorem limit_order_without_crossing fuel s m o p t :
  orders s !! m = Some o ->
  Order.price o = Some p ->
  0 < Order.qty o ->
  side_tree s (negb (Order.is_buy o)) t ->
  (length (inorder t) < fuel)%nat ->
  (forall x, (if Order.is_buy o then head (inorder t) else last (inorder t)) = Some x ->
     exists bv pb, levels s !! x = Some bv /\ Level.price bv = Some pb /\
                   if Order.is_buy o then (p < pb)%Q else (pb < p)%Q) ->
  process_limit_order fuel m s = register_order fuel (Order.is_buy o) m false s.
Proof.
  intros Hm Hp Hqty Ht Hfuel Hbest.
  unfold process_limit_order. fwd. cbn zeta.
  destruct (BookSide.total_qty (side (negb (Order.is_buy o)) s) =? 0); [reflexivity|].
  rewrite (bind_ok _ _ _ _ _ (best_level fuel (Order.is_buy o) s t Ht Hfuel)).
  destruct fuel as [|n]; [lia|]. cbn [process_limit_order_loop]. fwd.
  replace (0 <? Order.qty o) with true by (symmetry; apply Z.ltb_lt; exact Hqty).
  destruct (if Order.is_buy o then head (inorder t) else last (inorder t)) as [x|] eqn:Hx;
    [|reflexivity].
  destruct (Hbest x eq_refl) as (bv & pb & Hbv & Hpb & Hlt).
  fwd. rewrite Hp, Hpb.
  destruct (Order.is_buy o); cbn [negb py_lt py_gt].
  - rewrite bind_ret.
    replace (Qlt_bool p pb) with true by (symmetry; apply Qlt_bool_true; exact Hlt).
    reflexivity.
  - rewrite !bind_ret.
    replace (Qlt_bool pb p) with true by (symmetry; apply Qlt_bool_true; exact Hlt).
    reflexivity.
Qed.

Lemma limit_order_without_crossing_witness :
  process_limit_order 10 6
    (set_orders (<[6%nat := Order.mk true true (Some 7%Q) 4 7 None None]>
                   (orders five_asks_state)) five_asks_state)
  = register_order 10 true 6 false
      (set_orders (<[6%nat := Order.mk true true (Some 7%Q) 4 7 None None]>
                     (orders five_asks_state)) five_asks_state).
Proof.
  apply (limit_order_without_crossing 10
           (set_orders (<[6%nat := Order.mk true true (Some 7%Q) 4 7 None None]>
                          (orders five_asks_state)) five_asks_state)
           6 (Order.mk true true (Some 7%Q) 4 7 None None) 7%Q five_asks_tree).
  - vm_compute. reflexivity.
  - reflexivity.
  - reflexivity.
  - concrete_side_tree.
  - simpl. lia.
  - intros x Hx. simpl in Hx. injection Hx as <-.
    eexists _, _. split; [vm_compute; reflexivity|]. split; reflexivity.
Defined.

(** X23.  An order that wants nothing (quantity 0 or less) and faces resting
    orders is dropped without a trace: a market order when the opposing side
    has a level, a limit order when the opposing side's [total_qty] is not 0.
    A limit order that faces a side whose [total_qty] is 0 is booked at once,
    whatever its quantity. *)
Theorem order_without_quantity fuel s m o t :
  orders s !! m = Some o ->
  side_tree s (negb (Order.is_buy o)) t ->
  (length (inorder t) < fuel)%nat ->
  (Order.is_limit o = false -> Order.qty o <= 0 -> t <> Leaf ->
   add_order fuel m s = Ok (tt, s)) /\
  (Order.is_limit o = true -> Order.qty o <= 0 ->
   BookSide.total_qty (side (negb (Order.is_buy o)) s) <> 0 ->
   add_order fuel m s = Ok (tt, s)) /\
  (Order.is_limit o = true ->
   BookSide.total_qty (side (negb (Order.is_buy o)) s) = 0 ->
   add_order fuel m s = register_order fuel (Order.is_buy o) m false s).
Proof.
  intros Hm Ht Hfuel.
  pose proof (best_level fuel (Order.is_buy o) s t Ht Hfuel) as Hbest.
  assert (Hn : exists n, fuel = S n) by (destruct fuel; [lia|eauto]).
  destruct Hn as [n ->].
  split; [|split].
  - intros Hlim Hqty Hne. unfold add_order. fwd. rewrite Hlim.
    unfold process_market_order. fwd. cbn zeta.
    rewrite (bind_ok _ _ _ _ _ Hbest).
    assert (Hsome : exists x, (if Order.is_buy o then head (inorder t)
                               else last (inorder t)) = Some x).
    { destruct t as [|l x r]; [congruence|].
      destruct (Order.is_buy o).
      - destruct (inorder_head l x (inorder r)) as (tl & Htl).
        cbn [inorder]. rewrite Htl. simpl. eauto.
      - destruct (inorder_last r x (inorder l)) as (front & Hfront).
        cbn [inorder]. rewrite Hfront, last_snoc. eauto. }
    destruct Hsome as [x ->].
    cbn [process_market_order_loop]. fwd.
    replace (0 <? Order.qty o) with false by (symmetry; apply Z.ltb_ge; exact Hqty).
    reflexivity.
  - intros Hlim Hqty Htot. unfold add_order. fwd. rewrite Hlim.
    unfold process_limit_order. fwd. cbn zeta.
    replace (BookSide.total_qty (side (negb (Order.is_buy o)) s) =? 0) with false
      by (symmetry; apply Z.eqb_neq; exact Htot).
    rewrite (bind_ok _ _ _ _ _ Hbest).
    cbn [process_limit_order_loop]. fwd.
    replace (0 <? Order.qty o) with false by (symmetry; apply Z.ltb_ge; exact Hqty).
    reflexivity.
  - intros Hlim Htot. unfold add_order. fwd. rewrite Hlim.
    unfold process_limit_order. fwd. cbn zeta. rewrite Htot. reflexivity.
Qed.

Lemma order_without_quantity_witness :
  add_order 10 6
    (set_orders (<[6%nat := Order.mk false true None 0 7 None None]>
                   (orders five_asks_state)) five_asks_state)
  = Ok (tt, set_orders (<[6%nat := Order.mk false true None 0 7 None None]>
                          (orders five_asks_state)) five_asks_state).
Proof.
  refine (proj1 (order_without_quantity 10
           (set_orders (<[6%nat := Order.mk false true None 0 7 None None]>
                          (orders five_asks_state)) five_asks_state)
           6 (Order.mk false true None 0 7 None None) five_asks_tree _ _ _) _ _ _).
  - vm_compute. reflexivity.
  - concrete_side_tree.
  - simpl. lia.
  - reflexivity.
  - simpl. lia.
  - discriminate.
Defined.

(** ** [reallocate_order] *)


(** X24.  [reallocate_order] on an order queued behind the head of its level
    and re-priced to a price no level of its side has: the call returns, the
    order is unlinked from the old queue and a new level holding it is
    inserted at its place in the tree. The old level's [total_qty] drops by
    the order's quantity while the side's [total_qty] grows by it: the side
    counts the order a second time. The order keeps its [next] link: read from
    the new level, the queue is the order followed by the orders that were
    behind it in the old queue. *)
Theorem reallocate_order_moves fuel s x xv q1 a c q2 cv p t :
  levels s !! x = Some xv ->
  queue (orders s) (Level.head xv) (q1 ++ a :: c :: q2) ->
  orders s !! c = Some cv ->
  Order.price cv = Some p ->
  side_tree s (Order.is_buy cv) t ->
  (forall y, y ∈ inorder t -> ~ priced_at (levels s) p y) ->
  (length (q1 ++ a :: c :: q2) < fuel)%nat ->
  (length (inorder t) < fuel)%nat ->
  exists s' t' l lv' xv' pre post,
    reallocate_order fuel c x s = Ok (tt, s') /\
    side_tree s' (Order.is_buy cv) t' /\
    inorder t = pre ++ post /\
    inorder t' = pre ++ l :: post /\
    levels s !! l = None /\
    levels s' !! l = Some lv' /\
    level_data lv' = (Some p, Order.is_buy cv, Order.qty cv, Some c, Some c) /\
    queue (orders s') (Level.head lv') (c :: q2) /\
    levels s' !! x = Some xv' /\
    queue (orders s') (Level.head xv') (q1 ++ a :: q2) /\
    Level.total_qty xv' = Level.total_qty xv - Order.qty cv /\
    BookSide.total_qty (side (Order.is_buy cv) s')
    = BookSide.total_qty (side (Order.is_buy cv) s) + Order.qty cv.
Proof.
  intros Hxv Hq Hcv Hp Ht Hnone Hfq Hft.
  destruct (remove_order_spec fuel s x xv q1 a c q2 Hxv Hq Hfq)
    as (s1 & xv1 & cv' & Hrun1 & Hcv' & Hxv1 & Hq1 & Htot1 & _ & Hc1 & Hrel & Hfr1).
  rewrite Hcv in Hcv'. injection Hcv' as <-.
  pose proof Hrel as (Hstd & Hbid & Hask & Hview & Hdata).
  assert (Hside : forall b, side b s1 = side b s) by (intros [|]; simpl; assumption).
  assert (Ht1 : side_tree s1 (Order.is_buy cv) t).
  { apply (side_tree_ext s); [rewrite Hside; reflexivity|exact Hview|exact Ht]. }
  assert (Hnone1 : forall y, y ∈ inorder t -> ~ priced_at (levels s1) p y).
  { intros y Hy (v & qv & Hv & Hqv & E). apply (Hnone y Hy).
    specialize (Hview y). rewrite Hv in Hview.
    destruct (levels s !! y) as [v0|] eqn:Hv0; [|discriminate].
    simpl in Hview. unfold tree_view in Hview.
    exists v0, qv. split; [exact Hv0|]. split; [congruence|exact E]. }
  assert (Hlsame : forall l, levels s1 !! l = None -> levels s !! l = None).
  { intros l Hl. specialize (Hview l). rewrite Hl in Hview.
    destruct (levels s !! l); [discriminate|reflexivity]. }
  destruct (register_order_new_spec fuel (Order.is_buy cv) s1 t c cv p true
              Ht1 Hc1 Hp eq_refl Hnone1 Hft)
    as (s' & t' & l & pre & post & lv' & Hrun2 & Ht' & Hin & Hin' & Hfresh & Hlv' & Hld &
        Htot2 & _ & Hord & _ & Hdata2 & _).
  assert (Hxl : x <> l) by (intros ->; congruence).
  destruct (level_data_lookup _ _ x xv1 (Hdata2 x Hxl) Hxv1) as (xv' & Hxv' & Exv).
  unfold level_data in Exv, Hld.
  exists s', t', l, lv', xv', pre, post.
  split.
  { unfold reallocate_order. rewrite (bind_ok _ _ _ _ _ Hrun1). fwd.
    destruct (Order.is_buy cv); exact Hrun2. }
  split; [exact Ht'|]. split; [exact Hin|]. split; [exact Hin'|].
  split; [exact (Hlsame l Hfresh)|]. split; [exact Hlv'|]. split; [exact Hld|].
  split.
  { rewrite Hord. replace (Level.head lv') with (Some c) by congruence.
    simpl. split; [reflexivity|]. exists cv. split; [exact Hc1|].
    replace (q1 ++ a :: q2) with ((q1 ++ [a]) ++ q2) in Hq1
      by (rewrite <- app_assoc; reflexivity).
    apply queue_suffix in Hq1 as (p' & Hq2).
    replace (q1 ++ a :: c :: q2) with ((q1 ++ [a]) ++ c :: q2) in Hq
      by (rewrite <- app_assoc; reflexivity).
    apply queue_suffix in Hq as (p0 & Hq0).
    simpl in Hq0. destruct Hq0 as (_ & cv0 & Hcv0 & Hq0).
    rewrite Hcv in Hcv0. injection Hcv0 as <-.
    rewrite (queue_head _ _ _ Hq0), <- (queue_head _ _ _ Hq2). exact Hq2. }
  split; [exact Hxv'|].
  split; [rewrite Hord; replace (Level.head xv') with (Level.head xv1) by congruence;
          exact Hq1|].
  split; [replace (Level.total_qty xv') with (Level.total_qty xv1) by congruence;
          exact Htot1|].
  rewrite Htot2, Hside. reflexivity.
Qed.

Lemma reallocate_order_moves_witness :
  exists s' t' l xv',
    reallocate_order 10 5 0 five_asks_repriced = Ok (tt, s') /\
    side_tree s' false t' /\
    levels five_asks_repriced !! l = None /\
    levels s' !! 0%nat = Some xv' /\
    queue (orders s') (Level.head xv') [0%nat] /\
    Level.total_qty xv' = 5 /\
    BookSide.total_qty (side false s') = 29.
Proof.
  destruct (reallocate_order_moves 10 five_asks_repriced 0
              (Level.mk (Some 10%Q) false 12 (Some 0%nat) (Some 5%nat) (Some 2%nat)
                        (Some 1%nat) None)
              [] 0 5 [] (Order.mk true false (Some (19 # 2)%Q) 7 6 None (Some 0%nat))
              (19 # 2)%Q five_asks_tree)
    as (s' & t' & l & lv' & xv' & pre & post & H1 & H2 & _ & _ & H3 & _ & _ & _ & H4 & H5 &
        H6 & H7).
  - vm_compute. reflexivity.
  - concrete_queue.
  - vm_compute. reflexivity.
  - reflexivity.
  - concrete_side_tree.
  - intros y Hy (v & q & Hv & Hq & E).
    repeat (apply elem_of_cons in Hy as [->|Hy]);
      try (vm_compute in Hv; injection Hv as <-; injection Hq as <-;
           vm_compute in E; discriminate E).
    inversion Hy.
  - simpl. lia.
  - simpl. lia.
  - exists s', t', l, xv'. split; [exact H1|]. split; [exact H2|]. split; [exact H3|].
    split; [exact H4|]. split; [exact H5|]. split; [rewrite H6; reflexivity|].
    cbn [Order.is_buy] in H7. rewrite H7. reflexivity.
Defined.

(** ** What [add_order] prints *)

Lemma stdout_if_side (b : bool) v s :
  stdout (if b then set_bid v s else set_ask v s) = stdout s.
Proof. destruct b; reflexivity. Qed.

Lemma register_order_search_pure o : forall fuel p aux s r s',
  register_order_search fuel o p aux s = Ok (r, s') -> s' = s.
Proof.
  induction fuel as [|fuel IH]; intros p aux s r s' H; [discriminate|].
  cbn [register_order_search] in H. destruct p as [p|]; [|run_inv H; reflexivity].
  apply bind_inv in H as (pv & s1 & H1 & H). apply load_level_inv in H1 as [-> _].
  apply bind_inv in H as (ov & s1 & H1 & H). apply load_order_inv in H1 as [-> _].
  apply bind_inv in H as (gt & s1 & H1 & H). apply py_lt_inv in H1 as [-> _].
  destruct gt; [exact (IH _ _ _ _ _ H)|].
  apply bind_inv in H as (lt & s1 & H1 & H). apply py_lt_inv in H1 as [-> _].
  destruct lt; [exact (IH _ _ _ _ _ H)|].
  apply ret_inv in H as [_ ->]. reflexivity.
Qed.

Lemma Level_init_inv o s l s' :
  Level_init o s = Ok (l, s') -> stdout s' = stdout s.
Proof.
  unfold Level_init. intros H.
  apply bind_inv in H as (ov & s1 & H1 & H). apply load_order_inv in H1 as [-> _].
  injection H as _ <-. reflexivity.
Qed.

Lemma register_order_quiet fuel b o ts s u s' :
  register_order fuel b o ts s = Ok (u, s') -> stdout s' = stdout s.
Proof.
  unfold register_order. intros H.
  apply bind_inv in H as (ov & s0 & H1 & H). apply load_order_inv in H1 as [-> _].
  apply bind_inv in H as (sd & s0 & H1 & H). apply load_side_inv in H1 as [-> _].
  apply bind_inv in H as (u1 & s1 & H1 & H). apply store_side_inv in H1.
  assert (E1 : stdout s1 = stdout s) by (subst s1; apply stdout_if_side).
  rewrite <- E1. clear E1 H1.
  apply bind_inv in H as (sd1 & s0 & H1 & H). apply load_side_inv in H1 as [-> _].
  destruct (BookSide.root sd1).
  - apply bind_inv in H as (aux & s2 & H1 & H).
    apply register_order_search_pure in H1. subst s2.
    apply bind_inv in H as (a & s2 & H1 & H). apply deref_inv in H1 as [_ ->].
    apply bind_inv in H as (av & s2 & H1 & H). apply load_level_inv in H1 as [-> _].
    destruct (py_eq (Level.price av) (Order.price ov)).
    + destruct ts.
      * apply insert_order_relinked in H. apply H.
      * apply enqueue_order_relinked in H. apply H.
    + apply bind_inv in H as (gt & s2 & H1 & H). apply py_lt_inv in H1 as [-> _].
      apply bind_inv in H as (lvl & s2 & H1 & H).
      assert (E2 : stdout s2 = stdout s1).
      { destruct gt; apply bind_inv in H1 as (l & s3 & H3 & H1);
          apply Level_init_inv in H3; run_inv H1; simpl; exact H3. }
      run_inv H. simpl. exact E2.
  - apply bind_inv in H as (l & s2 & H1 & H). apply Level_init_inv in H1.
    apply modify_side_inv in H. subst s'. rewrite stdout_if_side. exact H1.
Qed.

Lemma reallocate_order_quiet fuel c x s u s' :
  reallocate_order fuel c x s = Ok (u, s') -> stdout s' = stdout s.
Proof.
  unfold reallocate_order. intros H.
  apply bind_inv in H as (u1 & s1 & H1 & H). apply remove_order_relinked in H1.
  apply bind_inv in H as (ov & s2 & H2 & H). apply load_order_inv in H2 as [-> _].
  destruct H1 as (E1 & _). rewrite <- E1.
  destruct (Order.is_buy ov); exact (register_order_quiet _ _ _ _ _ _ _ H).
Qed.

Lemma trade_limit_order_scan_pure o : forall fuel c s r s',
  trade_limit_order_scan fuel o c s = Ok (r, s') -> s' = s.
Proof.
  induction fuel as [|fuel IH]; intros c s r s' H; [discriminate|].
  cbn [trade_limit_order_scan] in H.
  apply bind_inv in H as (c' & s1 & H1 & H). apply deref_inv in H1 as [_ ->].
  apply bind_inv in H as (cv & s1 & H1 & H). apply load_order_inv in H1 as [-> _].
  apply bind_inv in H as (ct & s1 & H1 & H).
  assert (s1 = s) as ->.
  { unfold total in H1. destruct (Order.is_limit cv); [destruct (Order.price cv)|];
      try discriminate; apply ret_inv in H1 as [_ ->]; reflexivity. }
  apply bind_inv in H as (ov & s1 & H2 & H). apply load_order_inv in H2 as [-> _].
  apply bind_inv in H as (ot & s1 & H2 & H).
  assert (s1 = s) as ->.
  { unfold total in H2. destruct (Order.is_limit ov); [destruct (Order.price ov)|];
      try discriminate; apply ret_inv in H2 as [_ ->]; reflexivity. }
  destruct (py_eq ct ot || (Order.qty cv =? Order.qty ov)).
  - destruct (Order.next cv); [exact (IH _ _ _ _ H)|].
    apply ret_inv in H as [_ ->]. reflexivity.
  - apply ret_inv in H as [_ ->]. reflexivity.
Qed.

Lemma total_pure v s r s' : total v s = Ok (r, s') -> s' = s.
Proof.
  unfold total. destruct (Order.is_limit v); [destruct (Order.price v)|];
    try discriminate; intros H; apply ret_inv in H as [_ ->]; reflexivity.
Qed.

Lemma py_abs_sub_pure a b s r s' : py_abs_sub a b s = Ok (r, s') -> s' = s.
Proof.
  destruct a, b; try discriminate. intros H. apply ret_inv in H as [_ ->]. reflexivity.
Qed.

Lemma py_div_pure a n s r s' : py_div a n s = Ok (r, s') -> s' = s.
Proof.
  unfold py_div. destruct (n =? 0); [discriminate|].
  intros H. apply ret_inv in H as [_ ->]. reflexivity.
Qed.

Lemma store_quiet :
  (forall o v s u s', store_order o v s = Ok (u, s') -> stdout s' = stdout s) /\
  (forall o f s u s', modify_order o f s = Ok (u, s') -> stdout s' = stdout s) /\
  (forall l v s u s', store_level l v s = Ok (u, s') -> stdout s' = stdout s) /\
  (forall l f s u s', modify_level l f s = Ok (u, s') -> stdout s' = stdout s) /\
  (forall b v s u s', store_side b v s = Ok (u, s') -> stdout s' = stdout s).
Proof.
  repeat split; intros *; intros H; run_inv H; try reflexivity.
  apply stdout_if_side.
Qed.

(** One statement of a run that returned, kept as what it did to the
    output. *)
Ltac out_step H :=
  let a := fresh "a" in let s1 := fresh "s" in let H1 := fresh "H" in
  apply bind_inv in H as (a & s1 & H1 & H);
  first
    [ apply load_order_inv in H1 as [-> _]
    | apply load_level_inv in H1 as [-> _]
    | apply load_side_inv in H1 as [-> _]
    | apply deref_inv in H1 as [_ ->]
    | apply py_lt_inv in H1 as [-> _]
    | apply total_pure in H1; subst s1
    | apply py_abs_sub_pure in H1; subst s1
    | apply py_div_pure in H1; subst s1
    | apply ret_inv in H1 as [_ ->]
    | apply trade_limit_order_scan_pure in H1; subst s1
    | apply next_level_pure in H1; subst s1
    | apply min_level_pure in H1; subst s1
    | apply max_level_pure in H1; subst s1
    | apply (proj1 store_quiet) in H1
    | apply (proj1 (proj2 store_quiet)) in H1
    | apply (proj1 (proj2 (proj2 store_quiet))) in H1
    | apply (proj1 (proj2 (proj2 (proj2 store_quiet)))) in H1
    | apply (proj2 (proj2 (proj2 (proj2 store_quiet)))) in H1
    | apply reallocate_order_quiet in H1
    | apply register_order_quiet in H1
    | (apply remove_order_relinked in H1; destruct H1 as (H1 & _))
    | (apply remove_level_surgery in H1; destruct H1 as (_ & H1 & _))
    | (unfold print_match in H1; apply print_inv in H1; subst s1)
    | idtac ].

Ltac out_close :=
  repeat first
    [ progress store_simpl
    | rewrite stdout_if_side
    | match goal with
      | E : stdout ?x = _ |- context [stdout ?x] => rewrite E; clear E
      end ].

Lemma trade_limit_order_output fuel m l s r s' :
  trade_limit_order fuel m l s = Ok (r, s') ->
  r = m /\
  (stdout s' = stdout s \/ exists p q, stdout s' = stdout s ++ [Trade p q]).
Proof.
  unfold trade_limit_order. intros H.
  repeat out_step H.
  match type of H with (if ?c then _ else _) _ = _ => destruct c end.
  { apply trade_at_level_output in H as (-> & lv & q & _ & E). split; [reflexivity|].
    right. eauto. }
  repeat out_step H.
  match type of H with (match ?c with Some _ => _ | None => _ end) _ = _ =>
    destruct c as [c|] end;
    [|apply ret_inv in H as [-> ->]; split; [reflexivity|left; reflexivity]].
  repeat out_step H.
  match type of H with (if ?c then _ else _) _ = _ => destruct c end.
  - repeat out_step H.
    apply ret_inv in H as [-> ->]. split; [reflexivity|]. right.
    eexists _, _. out_close. reflexivity.
  - repeat out_step H.
    apply ret_inv in H as [-> ->]. split; [reflexivity|]. right.
    match goal with
    | Hm : (match ?c with Some _ => _ | None => _ end) ?sa = Ok (_, ?sb) |- _ =>
        assert (E : stdout sb = stdout sa);
        [destruct c; [apply ret_inv in Hm as [_ ->]; reflexivity|];
         apply remove_level_surgery in Hm; apply Hm|clear Hm]
    end.
    eexists _, _. out_close. reflexivity.
Qed.

Lemma process_limit_order_loop_output fuel : forall n m os cs cl s u s',
  process_limit_order_loop fuel n m os cs cl s = Ok (u, s') ->
  exists evs, stdout s' = stdout s ++ evs /\ Forall is_trade evs.
Proof.
  induction n as [|n IH]; intros m os cs cl s u s' H; [discriminate|].
  cbn [process_limit_order_loop] in H.
  assert (Hreg : forall s1 u1 s2,
            register_order fuel os m false s1 = Ok (u1, s2) ->
            exists evs, stdout s2 = stdout s1 ++ evs /\ Forall is_trade evs).
  { intros s1 u1 s2 Hr. apply register_order_quiet in Hr.
    exists []. rewrite app_nil_r. auto. }
  out_step H.
  match type of H with (if ?c then _ else _) _ = _ => destruct c end;
    [|apply ret_inv in H as [_ ->]; exists []; rewrite app_nil_r; auto].
  destruct cl as [cl|]; [|exact (Hreg _ _ _ H)].
  out_step H.
  apply bind_inv in H as (c1 & s1 & H1 & H).
  assert (s1 = s) as ->.
  { destruct (Order.is_buy a); [apply py_lt_inv in H1 as [-> _]
                               |apply ret_inv in H1 as [_ ->]]; reflexivity. }
  destruct c1; [exact (Hreg _ _ _ H)|].
  apply bind_inv in H as (c2 & s1 & H2 & H).
  assert (s1 = s) as ->.
  { destruct (negb (Order.is_buy a)); [apply py_lt_inv in H2 as [-> _]
                                      |apply ret_inv in H2 as [_ ->]]; reflexivity. }
  destruct c2; [exact (Hreg _ _ _ H)|].
  apply bind_inv in H as (m' & s1 & Ht & H).
  apply trade_limit_order_output in Ht as (-> & Ht).
  out_step H.
  apply IH in H as (evs & E & Hevs).
  destruct Ht as [Ht|(p & q & Ht)]; rewrite Ht in E.
  - exists evs. auto.
  - exists (Trade p q :: evs). rewrite <- app_assoc in E.
    split; [exact E|]. constructor; [exact I|exact Hevs].
Qed.

Lemma process_market_order_loop_output fuel : forall n m cs cl s u s',
  process_market_order_loop fuel n m cs cl s = Ok (u, s') ->
  exists evs, stdout s' = stdout s ++ evs /\ Forall is_trade evs.
Proof.
  induction n as [|n IH]; intros m cs cl s u s' H; [discriminate|].
  cbn [process_market_order_loop] in H.
  out_step H.
  match type of H with (if ?c then _ else _) _ = _ => destruct c end;
    [|apply ret_inv in H as [_ ->]; exists []; rewrite app_nil_r; auto].
  out_step H.
  apply bind_inv in H as (m' & s1 & Ht & H).
  apply trade_at_level_output in Ht as (-> & lv & q & _ & Ht).
  out_step H.
  match type of H with (match ?c with Some _ => _ | None => _ end) _ = _ =>
    destruct c end.
  - apply IH in H as (evs & E & Hevs). rewrite Ht, <- app_assoc in E.
    exists (Trade (Level.price lv) q :: evs).
    split; [exact E|]. constructor; [exact I|exact Hevs].
  - apply ret_inv in H as [_ ->]. exists [Trade (Level.price lv) q].
    split; [exact Ht|]. repeat constructor.
Qed.

(** X25.  Whenever [add_order] returns, it has only appended lines to the
    output, and these are all trades, unless the order is a market order and
    the one line added is the booking failure. *)
Theorem add_order_output fuel m s u s' :
  add_order fuel m s = Ok (u, s') ->
  exists o evs,
    orders s !! m = Some o /\
    stdout s' = stdout s ++ evs /\
    (Forall is_trade evs \/ (Order.is_limit o = false /\ evs = [BookingFailed])).
Proof.
  unfold add_order. intros H.
  apply bind_inv in H as (o & s0 & Ho & H). apply load_order_inv in Ho as [-> Ho].
  exists o. destruct (Order.is_limit o) eqn:Hlim.
  - unfold process_limit_order in H. repeat out_step H. cbn zeta in H.
    repeat out_step H.
    match type of H with (if ?c then _ else _) _ = _ => destruct c end.
    + apply register_order_quiet in H. exists []. rewrite app_nil_r. auto.
    + apply bind_inv in H as (cl & s1 & Hc & H).
      assert (s1 = s) as ->.
      { destruct (Order.is_buy a); [apply min_level_pure in Hc|apply max_level_pure in Hc];
          exact Hc. }
      apply process_limit_order_loop_output in H as (evs & E & Hevs).
      exists evs. auto.
  - unfold process_market_order in H. out_step H. cbn zeta in H.
    apply bind_inv in H as (cl & s1 & Hc & H).
    assert (s1 = s) as ->.
    { destruct (Order.is_buy a); [apply min_level_pure in Hc|apply max_level_pure in Hc];
        exact Hc. }
    destruct cl as [cl|].
    + apply process_market_order_loop_output in H as (evs & E & Hevs).
      exists evs. auto.
    + apply print_inv in H. subst s'. exists [BookingFailed]. auto.
Qed.

Lemma add_order_output_witness :
  exists o evs,
    orders five_asks_market !! 6%nat = Some o /\
    stdout five_asks_market_added = stdout five_asks_market ++ evs /\
    (Forall is_trade evs \/ (Order.is_limit o = false /\ evs = [BookingFailed])).
Proof.
  apply (add_order_output 10 6 five_asks_market tt five_asks_market_added).
  vm_compute. reflexivity.
Defined.

(** ** [trade_limit_order] never divides by zero *)

Lemma nzd_bind {A B} (m : M A) (k : A -> M B) :
  no_zero_division m -> (forall a, no_zero_division (k a)) ->
  no_zero_division (bind m k).
Proof.
  intros Hm Hk s. unfold bind. specialize (Hm s).
  destruct (m s) as [[a s1]|e|]; [apply Hk|congruence|discriminate].
Qed.

Lemma nzd_ret {A} (a : A) : no_zero_division (ret a).
Proof. intros s. discriminate. Qed.

Lemma nzd_deref {A} (p : option A) : no_zero_division (deref p).
Proof. intros s. destruct p; discriminate. Qed.

Lemma nzd_load_order o : no_zero_division (load_order o).
Proof. intros s. unfold load_order. destruct (orders s !! o); discriminate. Qed.

Lemma nzd_load_level l : no_zero_division (load_level l).
Proof. intros s. unfold load_level. destruct (levels s !! l); discriminate. Qed.

Lemma nzd_load_side b : no_zero_division (load_side b).
Proof. intros s. discriminate. Qed.

Lemma nzd_store_order o v : no_zero_division (store_order o v).
Proof. intros s. discriminate. Qed.

Lemma nzd_store_level l v : no_zero_division (store_level l v).
Proof. intros s. discriminate. Qed.

Lemma nzd_store_side b v : no_zero_division (store_side b v).
Proof. intros s. discriminate. Qed.

Lemma nzd_print e : no_zero_division (print e).
Proof. intros s. discriminate. Qed.

Lemma nzd_py_lt a b : no_zero_division (py_lt a b).
Proof. intros s. destruct a, b; discriminate. Qed.

Lemma nzd_py_abs_sub a b : no_zero_division (py_abs_sub a b).
Proof. intros s. destruct a, b; discriminate. Qed.

Lemma nzd_total v : no_zero_division (total v).
Proof.
  intros s. unfold total. destruct (Order.is_limit v); [destruct (Order.price v)|];
    discriminate.
Qed.

Lemma nzd_timeout {A} : no_zero_division (@timeout A).
Proof. intros s. discriminate. Qed.

(** Takes a composite run apart down to calls and primitives. *)
Ltac nzd :=
  repeat first
    [ match goal with H : _ |- no_zero_division _ => apply H end
    | apply nzd_ret | apply nzd_deref | apply nzd_load_order | apply nzd_load_level
    | apply nzd_load_side | apply nzd_store_order | apply nzd_store_level
    | apply nzd_store_side | apply nzd_print | apply nzd_py_lt | apply nzd_py_abs_sub
    | apply nzd_total | apply nzd_timeout
    | (apply nzd_bind; [|intros ?])
    | match goal with
      | |- no_zero_division (modify_order _ _) => unfold modify_order
      | |- no_zero_division (modify_level _ _) => unfold modify_level
      | |- no_zero_division (modify_side _ _) => unfold modify_side
      | |- no_zero_division (print_match _ _) => unfold print_match
      | |- no_zero_division (py_gt _ _) => unfold py_gt
      | |- no_zero_division (if ?c then _ else _) => destruct c
      | |- no_zero_division (match ?c with Some _ => _ | None => _ end) => destruct c
      | |- no_zero_division (let x := _ in _) => cbn zeta
      end ].

Lemma nzd_Level_init o : no_zero_division (Level_init o).
Proof.
  unfold Level_init. apply nzd_bind; [nzd|]. intros ov s. discriminate.
Qed.

Lemma nzd_enqueue_order l o : no_zero_division (enqueue_order l o).
Proof. unfold enqueue_order. nzd. Qed.

Lemma nzd_dequeue_order l : no_zero_division (dequeue_order l).
Proof. unfold dequeue_order. nzd. Qed.

Lemma nzd_insert_order_scan o : forall fuel p aux,
  no_zero_division (insert_order_scan fuel o p aux).
Proof. induction fuel as [|fuel IH]; intros p aux; cbn [insert_order_scan]; nzd. Qed.

Lemma nzd_insert_order fuel l o : no_zero_division (insert_order fuel l o).
Proof.
  unfold insert_order. pose proof nzd_enqueue_order. pose proof nzd_insert_order_scan.
  nzd.
Qed.

Lemma nzd_remove_order_scan o : forall fuel p aux,
  no_zero_division (remove_order_scan fuel o p aux).
Proof. induction fuel as [|fuel IH]; intros p aux; cbn [remove_order_scan]; nzd. Qed.

Lemma nzd_remove_order fuel l o : no_zero_division (remove_order fuel l o).
Proof.
  unfold remove_order. pose proof nzd_dequeue_order. pose proof nzd_remove_order_scan.
  nzd.
Qed.

Lemma nzd_register_order_search o : forall fuel p aux,
  no_zero_division (register_order_search fuel o p aux).
Proof. induction fuel as [|fuel IH]; intros p aux; cbn [register_order_search]; nzd. Qed.

Lemma nzd_register_order fuel b o ts : no_zero_division (register_order fuel b o ts).
Proof.
  unfold register_order. pose proof nzd_Level_init. pose proof nzd_register_order_search.
  pose proof nzd_insert_order. pose proof nzd_enqueue_order. nzd.
Qed.

Lemma nzd_min_level_walk : forall fuel l, no_zero_division (min_level_walk fuel l).
Proof. induction fuel as [|fuel IH]; intros l; cbn [min_level_walk]; nzd. Qed.

Lemma nzd_min_level fuel b start : no_zero_division (min_level fuel b start).
Proof. unfold min_level. pose proof nzd_min_level_walk. nzd. Qed.

Lemma nzd_next_level_climb : forall fuel p x, no_zero_division (next_level_climb fuel p x).
Proof. induction fuel as [|fuel IH]; intros p x; cbn [next_level_climb]; nzd. Qed.

Lemma nzd_next_level fuel b x : no_zero_division (next_level fuel b x).
Proof.
  unfold next_level. pose proof nzd_min_level. pose proof nzd_next_level_climb. nzd.
Qed.

Lemma nzd_replace_level b old new : no_zero_division (replace_level b old new).
Proof. unfold replace_level. nzd. Qed.

Lemma nzd_remove_level fuel b x : no_zero_division (remove_level fuel b x).
Proof.
  unfold remove_level. pose proof nzd_replace_level. pose proof nzd_next_level. nzd.
Qed.

Lemma nzd_trade_at_level_loop m l : forall fuel c acc,
  no_zero_division (trade_at_level_loop fuel m l c acc).
Proof.
  pose proof nzd_dequeue_order.
  induction fuel as [|fuel IH]; intros c acc; cbn [trade_at_level_loop]; nzd.
Qed.

Lemma nzd_trade_at_level fuel m l : no_zero_division (trade_at_level fuel m l).
Proof.
  unfold trade_at_level. pose proof nzd_trade_at_level_loop. pose proof nzd_remove_level.
  nzd.
Qed.

Lemma nzd_reallocate_order fuel c x : no_zero_division (reallocate_order fuel c x).
Proof.
  unfold reallocate_order. pose proof nzd_remove_order. pose proof nzd_register_order.
  nzd.
Qed.

Lemma nzd_trade_limit_order_scan o : forall fuel c,
  no_zero_division (trade_limit_order_scan fuel o c).
Proof. induction fuel as [|fuel IH]; intros c; cbn [trade_limit_order_scan]; nzd. Qed.

Lemma bind_raise_inv {A B} (m : M A) (k : A -> M B) s e :
  bind m k s = Raise e ->
  m s = Raise e \/ exists a s1, m s = Ok (a, s1) /\ k a s1 = Raise e.
Proof.
  unfold bind. destruct (m s) as [[a s1]|e'|]; 
    [intros H; right; exists a, s1; split; [reflexivity|exact H]
    |intros H; left; injection H as ->; reflexivity|discriminate].
Qed.

Lemma trade_limit_order_scan_found o : forall fuel p s c s',
  trade_limit_order_scan fuel o p s = Ok (Some c, s') ->
  s' = s /\
  exists cv ov, orders s !! c = Some cv /\ orders s !! o = Some ov /\
                Order.qty cv <> Order.qty ov.
Proof.
  induction fuel as [|fuel IH]; intros p s c s' H; [discriminate|].
  cbn [trade_limit_order_scan] in H.
  apply bind_inv in H as (c' & s1 & H1 & H). apply deref_inv in H1 as [-> ->].
  apply bind_inv in H as (cv & s1 & H1 & H). apply load_order_inv in H1 as [-> Hcv].
  apply bind_inv in H as (ct & s1 & H1 & H). apply total_pure in H1. subst s1.
  apply bind_inv in H as (ov & s1 & H1 & H). apply load_order_inv in H1 as [-> Hov].
  apply bind_inv in H as (ot & s1 & H1 & H). apply total_pure in H1. subst s1.
  destruct (py_eq ct ot || (Order.qty cv =? Order.qty ov)) eqn:E.
  - destruct (Order.next cv); [exact (IH _ _ _ _ H)|].
    apply ret_inv in H as [H _]. discriminate.
  - apply ret_inv in H as [H ->]. injection H as ->.
    split; [reflexivity|]. exists cv, ov. split; [exact Hcv|]. split; [exact Hov|].
    apply orb_false_iff in E as [_ E]. apply Z.eqb_neq. exact E.
Qed.

(** One statement of a run that raised [ZeroDivisionError]: the statement
    itself cannot have raised it. *)
Ltac zd_step H :=
  let a := fresh "a" in let s1 := fresh "s" in let H1 := fresh "H" in
  apply bind_raise_inv in H as [H|(a & s1 & H1 & H)];
  [ exfalso; revert H;
    match goal with |- ?f ?s = _ -> False =>
      let N := fresh in assert (N : no_zero_division f) by nzd; exact (N s)
    end
  | first
      [ apply load_order_inv in H1 as [-> H1]
      | apply load_level_inv in H1 as [-> H1]
      | apply total_pure in H1; subst s1
      | apply py_abs_sub_pure in H1; subst s1
      | apply py_lt_inv in H1 as [-> _]
      | idtac ] ].

(** The rest of a run cannot raise [ZeroDivisionError] by its make. *)
Ltac zd_rest H :=
  revert H;
  match goal with |- ?f ?s = _ -> False =>
    let N := fresh in
    assert (N : no_zero_division f)
      by (pose proof nzd_reallocate_order; pose proof nzd_remove_order;
          pose proof nzd_remove_level; pose proof nzd_trade_at_level; nzd);
    exact (N s)
  end.

(** X26.  [trade_limit_order] never raises [ZeroDivisionError], in whatever
    state it is called: the counterparty its scan stops at has a quantity
    other than the incoming order's, so the divisor [new_qty] is not 0. *)
Theorem trade_limit_order_never_divides_by_zero fuel m l :
  no_zero_division (trade_limit_order fuel m l).
Proof.
  intros s H. unfold trade_limit_order in H.
  zd_step H. zd_step H.
  match type of H with (if ?c then _ else _) _ = _ => destruct c end;
    [zd_rest H|].
  apply bind_raise_inv in H as [H|(found & s1 & Hscan & H)];
    [exact (nzd_trade_limit_order_scan _ _ _ _ H)|].
  destruct found as [c|]; [|discriminate].
  apply trade_limit_order_scan_found in Hscan as (-> & cv & ov & Hcv & Hov & Hne).
  zd_step H. zd_step H. cbn zeta in H.
  rewrite Hcv in H2. injection H2 as <-. rewrite Hov in H3. injection H3 as <-.
  do 4 zd_step H.
  assert (Hdiv : forall (x : Q) (k : Q -> M nat),
            (forall p, no_zero_division (k p)) ->
            bind (py_div x (Z.abs (Order.qty cv - Order.qty ov))) k s
            <> Raise ZeroDivisionError).
  { intros x k Hk. unfold py_div.
    replace (Z.abs (Order.qty cv - Order.qty ov) =? 0) with false
      by (symmetry; apply Z.eqb_neq; lia).
    rewrite bind_ret. apply Hk. }
  match type of H with (if ?c then _ else _) _ = _ => destruct c end;
    revert H; apply Hdiv; intros p;
    pose proof nzd_reallocate_order; pose proof nzd_remove_order;
    pose proof nzd_remove_level; nzd.
Qed.

(** ** Orders that the best opposing level absorbs *)

Lemma fill_queue_conserves ns : forall rem,
  traded (fill_queue rem ns) + remaining (fill_queue rem ns) = rem.
Proof.
  induction ns as [|n ns IH]; intros rem; cbn [fill_queue].
  - simpl. lia.
  - destruct (0 <? rem); [|simpl; lia].
    destruct (n <=? rem); [|simpl; lia].
    cbn [traded remaining]. specialize (IH (rem - n)). lia.
Qed.

Lemma absorbed_step fuel s m o l lv q t :
  orders s !! m = Some o ->
  levels s !! l = Some lv ->
  queue (orders s) (Level.head lv) q ->
  m ∉ q ->
  side_tree s (Level.is_bid lv) t ->
  l ∈ inorder t ->
  (length q < fuel)%nat ->
  (length (inorder t) < fuel)%nat ->
  remaining (fill_queue (Order.qty o) (qty_in (orders s) <$> q)) = 0 ->
  Level.total_qty lv <> Order.qty o ->
  exists s' nl mo',
    trade_at_level fuel m l s = Ok (m, s') /\
    next_level fuel (Level.is_bid lv) (Some l) s' = Ok (nl, s') /\
    orders s' !! m = Some mo' /\
    Order.qty mo' = 0 /\
    stdout s' = stdout s ++ [Trade (Level.price lv) (Order.qty o)].
Proof.
  intros Hm Hlv Hq Hmq Ht Hl Hfq Hft Hrem Htot.
  apply list_elem_of_split in Hl as (pre & post & Hin).
  pose proof (fill_queue_conserves (qty_in (orders s) <$> q) (Order.qty o)) as Hcons.
  rewrite Hrem, Z.add_0_r in Hcons.
  destruct (trade_at_level_spec fuel s m o l lv q t pre post Hm Hlv Hq Hmq Ht Hin Hfq Hft)
    as (s' & lv' & mo' & t' & Hrun & Hout & Hmo' & Hqm & _ & _ & _ & _ & _ & _ & Ht' & Hin').
  rewrite Hcons in Hout, Hin'. rewrite Hrem in Hqm.
  replace (Level.total_qty lv - Order.qty o =? 0) with false in Hin'
    by (symmetry; apply Z.eqb_neq; lia).
  exists s', (inorder t' !! S (length pre)), mo'.
  split; [exact Hrun|]. split; [|auto].
  apply (next_level_lookup fuel _ s' t' (length pre) l Ht').
  - rewrite Hin'. apply list_lookup_middle. reflexivity.
  - rewrite Hin', <- Hin. exact Hft.
Qed.

Lemma best_level_in (buy : bool) t l :
  (if buy then head (inorder t) else last (inorder t)) = Some l -> l ∈ inorder t.
Proof.
  destruct buy; intros H.
  - destruct (inorder t); [discriminate|]. injection H as ->. set_solver.
  - apply last_Some_elem_of. exact H.
Qed.

Lemma level_of_side s b t l lv :
  side_tree s b t -> l ∈ inorder t -> levels s !! l = Some lv -> Level.is_bid lv = b.
Proof.
  intros (_ & _ & Hof & _) Hl Hlv. rewrite Forall_forall in Hof.
  destruct (Hof l Hl) as (v & p & Hv & _ & Hb). congruence.
Qed.

(** X27.  A market order that the best opposing level absorbs (the walk along
    its queue leaves nothing of the order, and something of the level) trades
    there and nowhere else: [add_order] does what [trade_at_level] on that
    level does, and prints one trade, at the level's price, for the order's
    whole quantity. *)
Theorem market_order_absorbed fuel s m o t l lv q :
  orders s !! m = Some o ->
  Order.is_limit o = false ->
  0 < Order.qty o ->
  side_tree s (negb (Order.is_buy o)) t ->
  (if Order.is_buy o then head (inorder t) else last (inorder t)) = Some l ->
  levels s !! l = Some lv ->
  queue (orders s) (Level.head lv) q ->
  m ∉ q ->
  (length q < fuel)%nat ->
  (length (inorder t) < fuel)%nat ->
  remaining (fill_queue (Order.qty o) (qty_in (orders s) <$> q)) = 0 ->
  Level.total_qty lv <> Order.qty o ->
  exists s' mo',
    add_order fuel m s = Ok (tt, s') /\
    trade_at_level fuel m l s = Ok (m, s') /\
    stdout s' = stdout s ++ [Trade (Level.price lv) (Order.qty o)] /\
    orders s' !! m = Some mo' /\
    Order.qty mo' = 0.
Proof.
  intros Hm Hlim Hqty Ht Hbest Hlv Hq Hmq Hfq Hft Hrem Htot.
  pose proof (best_level_in _ _ _ Hbest) as Hl.
  pose proof (level_of_side _ _ _ _ _ Ht Hl Hlv) as Hb.
  rewrite <- Hb in Ht.
  destruct (absorbed_step fuel s m o l lv q t Hm Hlv Hq Hmq Ht Hl Hfq Hft Hrem Htot)
    as (s' & nl & mo' & Hrun & Hnext & Hmo' & Hqm & Hout).
  exists s', mo'. split; [|auto].
  assert (Hn : exists n, fuel = S (S n)).
  { destruct (inorder t) as [|y ys] eqn:E; [set_solver|]. simpl in Hft.
    destruct fuel as [|[|k]]; [lia|lia|eauto]. }
  destruct Hn as [n Hn].
  unfold add_order. fwd. rewrite Hlim. unfold process_market_order. fwd. cbn zeta.
  rewrite Hb in Ht.
  rewrite (bind_ok _ _ _ _ _ (best_level fuel (Order.is_buy o) s t Ht Hft)), Hbest.
  rewrite Hn at 2. cbn [process_market_order_loop]. fwd.
  replace (0 <? Order.qty o) with true by (symmetry; apply Z.ltb_lt; exact Hqty).
  fwd. rewrite (bind_ok _ _ _ _ _ Hrun).
  rewrite <- Hb, (bind_ok _ _ _ _ _ Hnext).
  destruct nl as [x|]; [|reflexivity].
  cbn [process_market_order_loop]. fwd. rewrite Hqm. reflexivity.
Qed.

Lemma market_order_absorbed_witness :
  exists s',
    add_order 10 6 five_asks_small_market = Ok (tt, s') /\
    stdout s' = [Trade (Some 8%Q) 2].
Proof.
  destruct (market_order_absorbed 10 five_asks_small_market 6
              (Order.mk false true None 2 7 None None) five_asks_tree 1
              (Level.mk (Some 8%Q) false 3 (Some 1%nat) (Some 1%nat) (Some 3%nat) None
                        (Some 0%nat))
              [1%nat])
    as (s' & mo' & H1 & _ & H2 & _).
  - vm_compute. reflexivity.
  - reflexivity.
  - reflexivity.
  - concrete_side_tree.
  - reflexivity.
  - vm_compute. reflexivity.
  - concrete_queue.
  - apply (bool_decide_unpack _). vm_compute. exact I.
  - simpl. lia.
  - simpl. lia.
  - vm_compute. reflexivity.
  - discriminate.
  - exists s'. split; [exact H1|exact H2].
Defined.

(** X28.  While the opposing side's [total_qty] is not 0, a limit order with
    positive quantity priced exactly like the best opposing level, and
    absorbed by it, trades there like a market order and is not booked:
    [add_order] does what [trade_at_level] on that level does, and prints one
    trade, at that price, for the order's whole quantity. *)
Theorem limit_order_at_best_price_absorbed fuel s m o p t l lv p' q :
  orders s !! m = Some o ->
  Order.is_limit o = true ->
  Order.price o = Some p ->
  0 < Order.qty o ->
  BookSide.total_qty (side (negb (Order.is_buy o)) s) <> 0 ->
  side_tree s (negb (Order.is_buy o)) t ->
  (if Order.is_buy o then head (inorder t) else last (inorder t)) = Some l ->
  levels s !! l = Some lv ->
  Level.price lv = Some p' ->
  (p == p')%Q ->
  queue (orders s) (Level.head lv) q ->
  m ∉ q ->
  (length q < fuel)%nat ->
  (length (inorder t) < fuel)%nat ->
  remaining (fill_queue (Order.qty o) (qty_in (orders s) <$> q)) = 0 ->
  Level.total_qty lv <> Order.qty o ->
  exists s' mo',
    add_order fuel m s = Ok (tt, s') /\
    trade_at_level fuel m l s = Ok (m, s') /\
    stdout s' = stdout s ++ [Trade (Level.price lv) (Order.qty o)] /\
    orders s' !! m = Some mo' /\
    Order.qty mo' = 0.
Proof.
  intros Hm Hlim Hp Hqty Hside Ht Hbest Hlv Hp' Heq Hq Hmq Hfq Hft Hrem Htot.
  pose proof (best_level_in _ _ _ Hbest) as Hl.
  pose proof (level_of_side _ _ _ _ _ Ht Hl Hlv) as Hb.
  rewrite <- Hb in Ht.
  destruct (absorbed_step fuel s m o l lv q t Hm Hlv Hq Hmq Ht Hl Hfq Hft Hrem Htot)
    as (s' & nl & mo' & Hrun & Hnext & Hmo' & Hqm & Hout).
  exists s', mo'. split; [|auto].
  assert (Hn : exists n, fuel = S (S n)).
  { destruct (inorder t) as [|y ys] eqn:E; [set_solver|]. simpl in Hft.
    destruct fuel as [|[|k]]; [lia|lia|eauto]. }
  destruct Hn as [n Hn].
  assert (Hlt1 : Qlt_bool p p' = false).
  { apply Qlt_bool_false. rewrite Heq. apply Qle_refl. }
  assert (Hlt2 : Qlt_bool p' p = false).
  { apply Qlt_bool_false. rewrite Heq. apply Qle_refl. }
  assert (Hpe : Qeq_bool p p' = true) by (apply Qeq_bool_iff; exact Heq).
  unfold add_order. fwd. rewrite Hlim. unfold process_limit_order. fwd. cbn zeta.
  replace (BookSide.total_qty (side (negb (Order.is_buy o)) s) =? 0) with false
    by (symmetry; apply Z.eqb_neq; exact Hside).
  rewrite Hb in Ht.
  rewrite (bind_ok _ _ _ _ _ (best_level fuel (Order.is_buy o) s t Ht Hft)), Hbest.
  rewrite Hn at 2. cbn [process_limit_order_loop]. fwd.
  replace (0 <? Order.qty o) with true by (symmetry; apply Z.ltb_lt; exact Hqty).
  fwd. rewrite Hp, Hp'.
  assert (Hc1 : forall (k : bool -> M unit),
            bind (if Order.is_buy o then py_lt (Some p) (Some p') else ret false) k s
            = k false s).
  { intros k. destruct (Order.is_buy o); cbn [py_lt]; rewrite ?Hlt1, bind_ret;
      reflexivity. }
  assert (Hc2 : forall (k : bool -> M unit),
            bind (if negb (Order.is_buy o) then py_gt (Some p) (Some p') else ret false) k s
            = k false s).
  { intros k. destruct (Order.is_buy o); cbn [negb py_gt py_lt]; rewrite ?Hlt2, bind_ret;
      reflexivity. }
  rewrite Hc1, Hc2.
  unfold trade_limit_order at 1. fwd. rewrite Hp, Hp'. cbn [py_eq]. rewrite Hpe.
  rewrite (bind_ok _ _ _ _ _ Hrun).
  rewrite <- Hb, (bind_ok _ _ _ _ _ Hnext).
  cbn [process_limit_order_loop]. fwd. rewrite Hqm. reflexivity.
Qed.

Lemma limit_order_at_best_price_absorbed_witness :
  exists s',
    add_order 10 6 five_asks_small_limit = Ok (tt, s') /\
    stdout s' = [Trade (Some 8%Q) 2].
Proof.
  destruct (limit_order_at_best_price_absorbed 10 five_asks_small_limit 6
              (Order.mk true true (Some 8%Q) 2 7 None None) 8%Q five_asks_tree 1
              (Level.mk (Some 8%Q) false 3 (Some 1%nat) (Some 1%nat) (Some 3%nat) None
                        (Some 0%nat))
              8%Q [1%nat])
    as (s' & mo' & H1 & _ & H2 & _).
  - vm_compute. reflexivity.
  - reflexivity.
  - reflexivity.
  - reflexivity.
  - discriminate.
  - concrete_side_tree.
  - reflexivity.
  - vm_compute. reflexivity.
  - reflexivity.
  - reflexivity.
  - concrete_queue.
  - apply (bool_decide_unpack _). vm_compute. exact I.
  - simpl. lia.
  - simpl. lia.
  - vm_compute. reflexivity.
  - discriminate.
  - exists s'. split; [exact H1|exact H2].
Defined.

(** ** [trade_at_level]: the walk and its one line of output *)

Lemma fill_queue_stops ns : forall rem,
  0 <= rem ->
  (consumed (fill_queue rem ns) < length ns)%nat ->
  remaining (fill_queue rem ns) = 0.
Proof.
  induction ns as [|n ns IH]; intros rem Hrem Hlt; cbn [fill_queue] in *.
  - simpl in Hlt. lia.
  - destruct (0 <? rem) eqn:Hpos; [|apply Z.ltb_ge in Hpos; simpl; lia].
    destruct (n <=? rem) eqn:Hle; [|reflexivity].
    cbn [consumed remaining] in *. apply Z.leb_le in Hle.
    apply IH; [lia | simpl in Hlt; lia].
Qed.

(** C6.  [trade_at_level] with an order that has a positive quantity left, on
    a level of a search-tree side whose queue is well linked and not empty,
    returns the order after walking the queue from the head as [fill_queue]
    tells: each resting order it meets with at most the order's remaining
    quantity is dequeued whole and its quantity added to the traded total;
    the first larger one stays at the head, reduced in place by what
    remained, and the order then has nothing left.  The traded total and what
    is left of the order add up to the order's quantity; the traded total is
    taken off the level's [total_qty] and off the [total_qty] of the level's
    side; the level leaves the tree exactly when its [total_qty] is then 0;
    and exactly one line is printed, a trade at the level's price for the
    traded total. *)
Theorem trade_at_level_walks_queue fuel s m mo l lv q t pre post :
  orders s !! m = Some mo ->
  0 < Order.qty mo ->
  levels s !! l = Some lv ->
  queue (orders s) (Level.head lv) q ->
  q <> [] ->
  m ∉ q ->
  side_tree s (Level.is_bid lv) t ->
  inorder t = pre ++ l :: post ->
  (length q < fuel)%nat ->
  (length (inorder t) < fuel)%nat ->
  let f := fill_queue (Order.qty mo) (qty_in (orders s) <$> q) in
  exists s' lv' mo' t',
    trade_at_level fuel m l s = Ok (m, s') /\
    stdout s' = stdout s ++ [Trade (Level.price lv) (traded f)] /\
    orders s' !! m = Some mo' /\
    Order.qty mo' = remaining f /\
    traded f + remaining f = Order.qty mo /\
    ((consumed f < length q)%nat -> remaining f = 0) /\
    levels s' !! l = Some lv' /\
    Level.total_qty lv' = Level.total_qty lv - traded f /\
    queue (orders s') (Level.head lv') (drop (consumed f) q) /\
    (forall i c, q !! i = Some c ->
       qty_in (orders s') c
       = qty_in (orders s) c - (if decide (i = consumed f) then reduced_by f else 0)) /\
    (forall z, z <> m -> z ∉ q -> orders s' !! z = orders s !! z) /\
    BookSide.total_qty (side (Level.is_bid lv) s')
    = BookSide.total_qty (side (Level.is_bid lv) s) - traded f /\
    side_tree s' (Level.is_bid lv) t' /\
    inorder t'
    = (if Level.total_qty lv - traded f =? 0 then pre ++ post else pre ++ l :: post).
Proof.
  intros Hm Hpos Hlv Hq _ Hmq Ht Hin Hfq Hft f.
  destruct (trade_at_level_spec fuel s m mo l lv q t pre post Hm Hlv Hq Hmq Ht Hin Hfq Hft)
    as (s' & lv' & mo' & t' & H1 & H2 & H3 & H4 & H5 & H6 & H7 & H8 & H9 & H10 & H11 & H12).
  exists s', lv', mo', t'.
  split; [exact H1|]. split; [exact H2|]. split; [exact H3|]. split; [exact H4|].
  split; [apply fill_queue_conserves|].
  split.
  { intros Hlt. apply fill_queue_stops; [lia|].
    rewrite length_fmap. exact Hlt. }
  auto 10.
Qed.

Lemma trade_at_level_walks_queue_witness :
  exists s' lv' mo' t',
    trade_at_level 10 6 0 five_asks_market = Ok (6%nat, s') /\
    stdout s' = [Trade (Some 10%Q) 6] /\
    orders s' !! 6%nat = Some mo' /\
    Order.qty mo' = 0 /\
    levels s' !! 0%nat = Some lv' /\
    Level.total_qty lv' = 6 /\
    queue (orders s') (Level.head lv') [5%nat] /\
    qty_in (orders s') 5 = 6 /\
    BookSide.total_qty (side false s') = 16 /\
    side_tree s' false t' /\
    inorder t' = [1; 3; 0; 4; 2]%nat.
Proof.
  destruct (trade_at_level_walks_queue 10 five_asks_market 6
              (Order.mk false true None 6 7 None None) 0
              (Level.mk (Some 10%Q) false 12 (Some 0%nat) (Some 5%nat) (Some 2%nat)
                        (Some 1%nat) None)
              [0; 5]%nat five_asks_tree [1; 3]%nat [4; 2]%nat)
    as (s' & lv' & mo' & t' & H1 & H2 & H3 & H4 & _ & _ & H5 & H6 & H7 & H8 & _ & H9 &
        H10 & H11).
  - vm_compute. reflexivity.
  - simpl. lia.
  - vm_compute. reflexivity.
  - concrete_queue.
  - discriminate.
  - apply (bool_decide_unpack _). vm_compute. exact I.
  - concrete_side_tree.
  - reflexivity.
  - simpl. lia.
  - simpl. lia.
  - exists s', lv', mo', t'.
    split; [exact H1|]. split; [exact H2|]. split; [exact H3|]. split; [exact H4|].
    split; [exact H5|]. split; [exact H6|]. split; [exact H7|].
    split; [exact (H8 1%nat 5%nat eq_refl)|].
    split; [exact H9|]. split; [exact H10|exact H11].
Defined.

(** C10.  A call of [trade_at_level] that returns has printed exactly one
    line, a trade at the level's price.  On a level of a search-tree side
    whose queue is well linked the call does return, and the quantity of that
    trade is the total traded along the queue; it is 0 when nothing is
    matched, as on a level whose queue is empty. *)
Theorem trade_at_level_one_event fuel m l s :
  (forall r s', trade_at_level fuel m l s = Ok (r, s') ->
     exists lv n, levels s !! l = Some lv /\
                  stdout s' = stdout s ++ [Trade (Level.price lv) n]) /\
  (forall mo lv q t pre post,
     orders s !! m = Some mo ->
     levels s !! l = Some lv ->
     queue (orders s) (Level.head lv) q ->
     m ∉ q ->
     side_tree s (Level.is_bid lv) t ->
     inorder t = pre ++ l :: post ->
     (length q < fuel)%nat ->
     (length (inorder t) < fuel)%nat ->
     exists s' n,
       trade_at_level fuel m l s = Ok (m, s') /\
       stdout s' = stdout s ++ [Trade (Level.price lv) n] /\
       n = traded (fill_queue (Order.qty mo) (qty_in (orders s) <$> q)) /\
       (q = [] -> n = 0) /\
       (Order.qty mo <= 0 -> n = 0)).
Proof.
  split.
  - intros r s' Hrun.
    destruct (trade_at_level_output fuel m l s r s' Hrun) as (_ & lv & n & Hlv & Hout).
    exists lv, n. auto.
  - intros mo lv q t pre post Hm Hlv Hq Hmq Ht Hin Hfq Hft.
    destruct (trade_at_level_spec fuel s m mo l lv q t pre post Hm Hlv Hq Hmq Ht Hin Hfq Hft)
      as (s' & lv' & mo' & t' & H1 & H2 & _).
    exists s', (traded (fill_queue (Order.qty mo) (qty_in (orders s) <$> q))).
    split; [exact H1|]. split; [exact H2|]. split; [reflexivity|].
    split.
    + intros ->. reflexivity.
    + intros Hle. destruct q as [|c q']; [reflexivity|].
      cbn [fmap list_fmap fill_queue].
      replace (0 <? Order.qty mo) with false by (symmetry; apply Z.ltb_ge; exact Hle).
      reflexivity.
Qed.

Lemma trade_at_level_one_event_witness :
  (exists s', trade_at_level 10 2 0 scenario5_state = Ok (2%nat, s') /\
              stdout s' = stdout scenario5_state ++ [Trade (Some 9%Q) 0]) /\
  (exists s', trade_at_level 10 6 0 five_asks_market = Ok (6%nat, s') /\
              stdout s' = stdout five_asks_market ++ [Trade (Some 10%Q) 6]).
Proof.
  split.
  - destruct (proj2 (trade_at_level_one_event 10 2 0 scenario5_state)
                (Order.mk true true (Some 12%Q) 0 3 None None)
                (Level.mk (Some 9%Q) false 5 None None (Some 1%nat) (Some 2%nat) None)
                [] scenario5_tree [2%nat] [1%nat])
      as (s' & n & H1 & H2 & _ & H3 & _).
    + vm_compute. reflexivity.
    + vm_compute. reflexivity.
    + reflexivity.
    + apply (bool_decide_unpack _). vm_compute. exact I.
    + concrete_side_tree.
    + reflexivity.
    + simpl. lia.
    + simpl. lia.
    + exists s'. split; [exact H1|]. rewrite H2, (H3 eq_refl). reflexivity.
  - destruct (proj2 (trade_at_level_one_event 10 6 0 five_asks_market)
                (Order.mk false true None 6 7 None None)
                (Level.mk (Some 10%Q) false 12 (Some 0%nat) (Some 5%nat) (Some 2%nat)
                          (Some 1%nat) None)
                [0; 5]%nat five_asks_tree [1; 3]%nat [4; 2]%nat)
      as (s' & n & H1 & H2 & H3 & _).
    + vm_compute. reflexivity.
    + vm_compute. reflexivity.
    + concrete_queue.
    + apply (bool_decide_unpack _). vm_compute. exact I.
    + concrete_side_tree.
    + reflexivity.
    + simpl. lia.
    + simpl. lia.
    + exists s'. split; [exact H1|]. rewrite H2, H3. reflexivity.
Defined.
